(** * mcp-file-compaction: context cache, lifecycle controller and renderer

    A shallow embedding of [src/state.ts] (class [ContextState]),
    [src/tools.ts] (the six tools), [src/parsers/index.ts] ([isSupported],
    [parseFile], [formatFileHeader]) and the renderers [formatSummary] of
    [src/parsers/rust.ts] and [src/parsers/php.ts], followed by the
    properties of the specification that concern them.

    - A JavaScript string is a [string], read as a sequence of code units
      below 256; its UTF-8 encoding and its SHA-256 digest are computed.
    - The [Map] of summaries is an association list in insertion order.
    - The file system is the files, a finite map from normalized absolute
      paths to contents, and the set of the directories.  A call of [fs]
      fails when the shape of the file system says so: a missing file, a
      directory where a file is meant, a file where a directory is
      meant.  Permissions and faults of the device are left out.
    - The content of a file is the text it is read as.  The part on files
      as bytes keeps the bytes and decodes them.
    - The [while] loop of [evictIfNeeded] runs on fuel: the result is
      [None] when the loop is still running after that many iterations, so
      a call that never returns is one whose result is [None] for every
      fuel.  The tools inherit the fuel from the [setSummary] they call.
    - A tool returns the process after the call together with the text it
      returned or the error it threw.
    - The functions of [path], [process.cwd()], the text of the errors
      of [fs] and one floating-point computation are parameters
      ([Host]); the walks over the syntax tree
      of tree-sitter are parameters ([Extractors]). *)

From Stdlib Require Import Ascii ZArith Lia DecimalString.
From stdpp Require Import base option list strings gmap.

Local Open Scope string_scope.
Local Open Scope list_scope.

(** ** JavaScript string and array primitives used by the sources *)

Module Js.

(** [if (s)] on a string: the empty string is falsy. *)
Definition truthy (s : string) : bool :=
  match s with
  | EmptyString => false
  | String _ _ => true
  end.

(** [s.startsWith(p)]. *)
Fixpoint startsWith (p s : string) : bool :=
  match p, s with
  | EmptyString, _ => true
  | String a p', String b s' => if decide (a = b) then startsWith p' s' else false
  | String _ _, EmptyString => false
  end.

(** [s.slice(n)] for [0 <= n]. *)
Fixpoint sliceFrom (n : nat) (s : string) : string :=
  match n, s with
  | O, _ => s
  | S n', String _ s' => sliceFrom n' s'
  | S _, EmptyString => EmptyString
  end.

(** Leftmost match of [pat] in [s], as the text before it and the text
    after it; this is [s.indexOf(pat)] together with the two slices
    around the match.  The empty pattern matches at index 0. *)
Fixpoint search (pat s : string) : option (string * string) :=
  if startsWith pat s then Some (EmptyString, sliceFrom (String.length pat) s)
  else match s with
       | EmptyString => None
       | String c s' =>
           match search pat s' with
           | Some (before, after) => Some (String c before, after)
           | None => None
           end
       end.

(** [s.includes(pat)]. *)
Definition includes (s pat : string) : bool :=
  match search pat s with
  | Some _ => true
  | None => false
  end.

(** The code units of a string, one string each: [s.split('')]. *)
Fixpoint codeUnits (s : string) : list string :=
  match s with
  | EmptyString => []
  | String c s' => String c EmptyString :: codeUnits s'
  end.

(** [s.split(sep)] for a non-empty separator: cut at the leftmost match,
    continue after it.  Every match consumes at least one code unit, so
    [String.length s] rounds are enough. *)
Fixpoint splitLoop (rounds : nat) (sep s : string) : list string :=
  match rounds with
  | O => [s]
  | S rounds' =>
      match search sep s with
      | None => [s]
      | Some (before, after) => before :: splitLoop rounds' sep after
      end
  end.

(** [s.split(sep)] with a string separator and no limit. *)
Definition split (s sep : string) : list string :=
  match sep with
  | EmptyString => codeUnits s
  | String _ _ => splitLoop (String.length s) sep s
  end.

(** [GetSubstitution] of ECMA-262 for a string pattern (no captures):
    in the replacement template, [$$] stands for a dollar sign, [$&] for
    the matched text, [$`] for the text before the match and [$'] for the
    text after it; any other [$] is literal. *)
Fixpoint getSubstitution (matched before after template : string) : string :=
  match template with
  | EmptyString => EmptyString
  | String c rest =>
      if decide (c = "$"%char) then
        match rest with
        | EmptyString => String c EmptyString
        | String d rest' =>
            if decide (d = "$"%char) then
              String "$"%char (getSubstitution matched before after rest')
            else if decide (d = "&"%char) then
              matched +:+ getSubstitution matched before after rest'
            else if decide (d = "`"%char) then
              before +:+ getSubstitution matched before after rest'
            else if decide (d = "'"%char) then
              after +:+ getSubstitution matched before after rest'
            else String c (getSubstitution matched before after rest)
        end
      else String c (getSubstitution matched before after rest)
  end.

(** [s.replace(pat, repl)] with a string pattern and a string
    replacement: only the first match is replaced, and the replacement
    goes through [GetSubstitution]. *)
Definition replace (s pat repl : string) : string :=
  match search pat s with
  | None => s
  | Some (before, after) => before +:+ getSubstitution pat before after repl +:+ after
  end.

(** [lines.join(sep)]. *)
Fixpoint join (sep : string) (l : list string) : string :=
  match l with
  | [] => EmptyString
  | [x] => x
  | x :: rest => x +:+ sep +:+ join sep rest
  end.

(** White space and line terminators among the code units below 256. *)
Definition isWhiteSpace (c : ascii) : bool :=
  let n := nat_of_ascii c in
  (n =? 9)%nat || (n =? 10)%nat || (n =? 11)%nat || (n =? 12)%nat
  || (n =? 13)%nat || (n =? 32)%nat || (n =? 160)%nat.

Fixpoint trimStart (s : string) : string :=
  match s with
  | EmptyString => EmptyString
  | String c s' => if isWhiteSpace c then trimStart s' else s
  end.

(** Drops the white space at the end: a code unit is kept when it is
    not white space or something is kept after it. *)
Fixpoint trimEnd (s : string) : string :=
  match s with
  | EmptyString => EmptyString
  | String c s' =>
      match trimEnd s' with
      | EmptyString => if isWhiteSpace c then EmptyString else String c EmptyString
      | kept => String c kept
      end
  end.

(** [s.trim()]. *)
Definition trim (s : string) : string := trimEnd (trimStart s).

Fixpoint repeatUnit (n : nat) (c : ascii) : string :=
  match n with
  | O => EmptyString
  | S n' => String c (repeatUnit n' c)
  end.

(** [s.padEnd(n)] and [s.padStart(n)] with the default filler, a space. *)
Definition padEnd (s : string) (n : nat) : string :=
  s +:+ repeatUnit (n - String.length s) " "%char.

Definition padStart (s : string) (n : nat) : string :=
  repeatUnit (n - String.length s) " "%char +:+ s.

(** [s.toLowerCase()] on code units below 256: the letters A to Z and
    the capital letters of Latin-1. *)
Definition lowerUnit (c : ascii) : ascii :=
  let n := nat_of_ascii c in
  if ((65 <=? n)%nat && (n <=? 90)%nat)
     || ((192 <=? n)%nat && (n <=? 222)%nat && negb (n =? 215)%nat)
  then ascii_of_nat (n + 32) else c.

Fixpoint toLowerCase (s : string) : string :=
  match s with
  | EmptyString => EmptyString
  | String c s' => String (lowerUnit c) (toLowerCase s')
  end.

(** The UTF-8 encoding of a string of code units below 256: one byte
    below 128, two bytes from 128 on. *)
Fixpoint utf8 (s : string) : list Z :=
  match s with
  | EmptyString => []
  | String c s' =>
      let n := Z.of_nat (nat_of_ascii c) in
      if (n <? 128)%Z then n :: utf8 s'
      else (192 + n / 64)%Z :: (128 + n mod 64)%Z :: utf8 s'
  end.

(** [Buffer.byteLength(s, 'utf8')]. *)
Definition byteLength (s : string) : Z := Z.of_nat (length (utf8 s)).

End Js.


(** ** SHA-256 (FIPS 180-4), the digest behind [createHash('sha256')]

    Words are integers below [2^32]; the message is a list of bytes. *)

Module Sha256.
Local Open Scope Z_scope.

Definition add32 (a b : Z) : Z := (a + b) mod 0x100000000.

Definition rotr (n x : Z) : Z :=
  Z.lor (Z.shiftr x n) (Z.shiftl x (32 - n) mod 0x100000000).

Definition Ch (x y z : Z) : Z :=
  Z.lxor (Z.land x y) (Z.land (Z.lxor x 0xffffffff) z).

Definition Maj (x y z : Z) : Z :=
  Z.lxor (Z.lxor (Z.land x y) (Z.land x z)) (Z.land y z).

Definition bigSigma0 (x : Z) : Z := Z.lxor (Z.lxor (rotr 2 x) (rotr 13 x)) (rotr 22 x).
Definition bigSigma1 (x : Z) : Z := Z.lxor (Z.lxor (rotr 6 x) (rotr 11 x)) (rotr 25 x).
Definition smallSigma0 (x : Z) : Z := Z.lxor (Z.lxor (rotr 7 x) (rotr 18 x)) (Z.shiftr x 3).
Definition smallSigma1 (x : Z) : Z := Z.lxor (Z.lxor (rotr 17 x) (rotr 19 x)) (Z.shiftr x 10).

(** The round constants: the first 32 bits of the fractional parts of
    the cube roots of the first 64 primes. *)
Definition K : list Z :=
  [
   1116352408; 1899447441; 3049323471; 3921009573;
   961987163; 1508970993; 2453635748; 2870763221;
   3624381080; 310598401; 607225278; 1426881987;
   1925078388; 2162078206; 2614888103; 3248222580;
   3835390401; 4022224774; 264347078; 604807628;
   770255983; 1249150122; 1555081692; 1996064986;
   2554220882; 2821834349; 2952996808; 3210313671;
   3336571891; 3584528711; 113926993; 338241895;
   666307205; 773529912; 1294757372; 1396182291;
   1695183700; 1986661051; 2177026350; 2456956037;
   2730485921; 2820302411; 3259730800; 3345764771;
   3516065817; 3600352804; 4094571909; 275423344;
   430227734; 506948616; 659060556; 883997877;
   958139571; 1322822218; 1537002063; 1747873779;
   1955562222; 2024104815; 2227730452; 2361852424;
   2428436474; 2756734187; 3204031479; 3329325298
  ].

(** The initial hash value: the same of the square roots of the first 8
    primes. *)
Definition H0 : list Z :=
  [1779033703; 3144134277; 1013904242; 2773480762;
   1359893119; 2600822924; 528734635; 1541459225].

(** The [width] bytes of [n], most significant first. *)
Fixpoint bigEndian (width : nat) (n : Z) : list Z :=
  match width with
  | O => []
  | S width' => (n / 256 ^ Z.of_nat width') mod 256 :: bigEndian width' n
  end.

(** The message, a one bit, zero bits up to 56 modulo 64 bytes, and the
    length of the message in bits on eight bytes. *)
Definition pad (message : list Z) : list Z :=
  let len := Z.of_nat (length message) in
  message ++ [0x80] ++ List.repeat 0 (Z.to_nat ((55 - len) mod 64)) ++ bigEndian 8 (8 * len).

Fixpoint words (bytes : list Z) : list Z :=
  match bytes with
  | a :: b :: c :: d :: rest => (((a * 256 + b) * 256 + c) * 256 + d) :: words rest
  | _ => []
  end.

Fixpoint blocks (count : nat) (ws : list Z) : list (list Z) :=
  match count with
  | O => []
  | S count' => take 16 ws :: blocks count' (drop 16 ws)
  end.

(** The message schedule: [n] more words after those of [w]. *)
Fixpoint extend (n : nat) (w : list Z) : list Z :=
  match n with
  | O => w
  | S n' =>
      let t := length w in
      let word i := nth (t - i) w 0 in
      extend n' (w ++ [add32 (add32 (smallSigma1 (word 2%nat)) (word 7%nat))
                             (add32 (smallSigma0 (word 15%nat)) (word 16%nat))])
  end.

Definition round (state : list Z) (kw : Z * Z) : list Z :=
  match state with
  | [a; b; c; d; e; f; g; h] =>
      let t1 := add32 (add32 (add32 h (bigSigma1 e)) (add32 (Ch e f g) kw.1)) kw.2 in
      let t2 := add32 (bigSigma0 a) (Maj a b c) in
      [add32 t1 t2; a; b; c; add32 d t1; e; f; g]
  | _ => state
  end.

Definition compress (hash block : list Z) : list Z :=
  zip_with add32 hash (fold_left round (zip K (extend 48 block)) hash).

Definition digest (message : list Z) : list Z :=
  let ws := words (pad message) in
  fold_left compress (blocks (length ws / 16) ws) H0.

Definition hexDigit (d : Z) : ascii :=
  default "0"%char (String.get (Z.to_nat d) "0123456789abcdef").

(** The [n] hexadecimal digits of [x], most significant first. *)
Fixpoint hexDigits (n : nat) (x : Z) : string :=
  match n with
  | O => EmptyString
  | S n' => hexDigits n' (x / 16) +:+ String (hexDigit (x mod 16)) EmptyString
  end.

(** [.digest('hex')]. *)
Definition hex (message : list Z) : string :=
  String.concat EmptyString (map (hexDigits 8) (digest message)).

End Sha256.

(** ** The JavaScript [Map], keyed by strings

    A [Map] iterates in insertion order: [set] on a present key keeps the
    key's place, [set] on an absent key appends, [delete] removes.  A
    [Map] holds a key once ([wf]); [delete] removes every entry of the
    key, which on such a list is the one there is. *)

Module JsMap.
Section Ops.
Context {V : Type}.

Fixpoint get (k : string) (m : list (string * V)) : option V :=
  match m with
  | [] => None
  | (k', v) :: m' => if decide (k' = k) then Some v else get k m'
  end.

Definition has (k : string) (m : list (string * V)) : bool :=
  match get k m with
  | Some _ => true
  | None => false
  end.

Fixpoint set (k : string) (v : V) (m : list (string * V)) : list (string * V) :=
  match m with
  | [] => [(k, v)]
  | (k', v') :: m' =>
      if decide (k' = k) then (k, v) :: m' else (k', v') :: set k v m'
  end.

Fixpoint delete (k : string) (m : list (string * V)) : list (string * V) :=
  match m with
  | [] => []
  | (k', v') :: m' =>
      if decide (k' = k) then delete k m' else (k', v') :: delete k m'
  end.

Definition size (m : list (string * V)) : nat := length m.

Definition keys (m : list (string * V)) : list string := map fst m.

(** The maps a program can build: no key twice. *)
Definition wf (m : list (string * V)) : Prop := NoDup (keys m).
End Ops.
End JsMap.

(** ** Data model of [state.ts] *)

Record CachedSummary := {
  summary : string;        (* the generated summary text *)
  contentHash : string;    (* hash of the full file contents *)
  fullSize : Z;            (* size of the full file in bytes *)
  summarySize : Z;         (* size of the summary in bytes *)
  lastAccessed : Z;        (* time stamp of the last access *)
  relativePath : string    (* path relative to the project root *)
}.

Record ContextConfig := {
  maxTrackedFiles : Z;
  maxDocLines : Z;
  projectRoot : string
}.

(** The argument of the constructor, a [Partial<ContextConfig>]. *)
Record PartialConfig := {
  maxTrackedFiles_opt : option Z;
  maxDocLines_opt : option Z;
  projectRoot_opt : option string
}.

Record ContextState := {
  activeFile : option string;
  summaries : list (string * CachedSummary);
  accessOrder : list string;
  config : ContextConfig
}.

(** The result of [getStatus]. *)
Module Status.
Record row := {
  path : string;
  relativePath : string;
  fullSize : Z;
  summarySize : Z;
  savings : Z;
  lastAccessed : Z
}.
Record t := {
  activeFile : option string;
  summaries : list row;
  totalFullSize : Z;
  totalSummarySize : Z;
  totalSavings : Z
}.
End Status.

(** ** The Node.js built-ins the sources import

    [path], [process], the floating-point arithmetic of the engine and
    the text of the errors of [fs] are not part of the repository; the
    model takes them as given. *)

(** The [code] of an error that a call of [fs] throws, for the
    failures that the shape of the file system decides. *)
Inductive FsCode := ENOENT | EISDIR | ENOTDIR | EEXIST.

(** The calls of [fs] that can throw. *)
Inductive FsCall := ReadFileCall | WriteFileCall | MkdirCall.

Class Host := {
  (* path.isAbsolute, path.resolve, path.normalize *)
  path_isAbsolute : string -> bool;
  path_resolve : string -> string;
  path_normalize : string -> string;
  (* path.relative(from, to) *)
  path_relative : string -> string -> string;
  (* path.extname, path.dirname *)
  path_extname : string -> string;
  path_dirname : string -> string;
  (* error.message of the error that a call of fs throws for a path *)
  fs_errorText : FsCall -> FsCode -> string -> string;
  (* process.cwd() *)
  process_cwd : string;
  (* ((a / b) * 100).toFixed(0), in double arithmetic *)
  percentToFixed0 : Z -> Z -> string
}.

(** ** [ContextState] *)

Section ContextState.
Context `{Host}.

Definition withActiveFile (s : ContextState) (a : option string) : ContextState :=
  {| activeFile := a; summaries := summaries s;
     accessOrder := accessOrder s; config := config s |}.

Definition withSummaries (s : ContextState) (m : list (string * CachedSummary))
  : ContextState :=
  {| activeFile := activeFile s; summaries := m;
     accessOrder := accessOrder s; config := config s |}.

Definition withAccessOrder (s : ContextState) (o : list string) : ContextState :=
  {| activeFile := activeFile s; summaries := summaries s;
     accessOrder := o; config := config s |}.

(** [new ContextState(config)]. *)
Definition newContextState (c : PartialConfig) : ContextState :=
  {| activeFile := None;
     summaries := [];
     accessOrder := [];
     config := {| maxTrackedFiles := default 50%Z (maxTrackedFiles_opt c);
                  maxDocLines := default 5%Z (maxDocLines_opt c);
                  projectRoot := default process_cwd (projectRoot_opt c) |} |}.

Definition noConfig : PartialConfig :=
  {| maxTrackedFiles_opt := None; maxDocLines_opt := None; projectRoot_opt := None |}.

Definition getActiveFile (s : ContextState) : option string := activeFile s.

(** Normalize a file path to absolute form. *)
Definition normalizePath (filePath : string) : string :=
  if path_isAbsolute filePath then path_normalize filePath else path_resolve filePath.

(** Get relative path from project root. *)
Definition getRelativePath (s : ContextState) (filePath : string) : string :=
  let absolute := if path_isAbsolute filePath then filePath else path_resolve filePath in
  path_relative (projectRoot (config s)) absolute.

(** Hash file contents for staleness detection. *)
Definition hashContent (content : string) : string :=
  Sha256.hex (Js.utf8 content).

(** Update access order for LRU tracking. *)
Definition updateAccessOrder (s : ContextState) (filePath : string) : ContextState :=
  withAccessOrder s (filter (fun p => p <> filePath) (accessOrder s) ++ [filePath]).

(** Set a file as active, returning the previous active file (if any). *)
Definition setActiveFile (s : ContextState) (filePath : string)
  : ContextState * option string :=
  let previousActive := activeFile s in
  let s1 := withActiveFile s (Some (normalizePath filePath)) in
  (updateAccessOrder s1 (normalizePath filePath), previousActive).

Definition clearActiveFile (s : ContextState) : ContextState :=
  withActiveFile s None.

Definition isActive (s : ContextState) (filePath : string) : bool :=
  bool_decide (activeFile s = Some (normalizePath filePath)).

Definition getSummary (s : ContextState) (filePath : string) : option CachedSummary :=
  JsMap.get (normalizePath filePath) (summaries s).

(** The test of the eviction loop: [summaries.size > maxTrackedFiles]. *)
Definition overLimit (s : ContextState) : bool :=
  bool_decide (maxTrackedFiles (config s) < Z.of_nat (JsMap.size (summaries s)))%Z.

(** The body of the eviction loop.  [shift()] of an empty array is
    [undefined] and leaves the array empty; [oldest &&] also rejects the
    empty string. *)
Definition evictOldest (s : ContextState) : ContextState :=
  match accessOrder s with
  | [] => s
  | oldest :: rest =>
      let s1 := withAccessOrder s rest in
      if Js.truthy oldest && negb (bool_decide (Some oldest = activeFile s)) then
        withSummaries s1 (JsMap.delete oldest (summaries s1))
      else s1
  end.

(** Evict least recently used files if over limit: the [while] loop,
    run for at most [fuel] iterations; [None] when it is still over the
    limit after that. *)
Fixpoint evictIfNeeded (fuel : nat) (s : ContextState) : option ContextState :=
  if overLimit s then
    match fuel with
    | O => None
    | S fuel' => evictIfNeeded fuel' (evictOldest s)
    end
  else Some s.

(** Store a summary for a file; [now] is the value of [new Date()]. *)
Definition storeSummary (now : Z) (s : ContextState)
    (filePath summaryText fullContent : string) : ContextState :=
  let normalizedPath := normalizePath filePath in
  let entry := {| summary := summaryText;
                  contentHash := hashContent fullContent;
                  fullSize := Js.byteLength fullContent;
                  summarySize := Js.byteLength summaryText;
                  lastAccessed := now;
                  relativePath := getRelativePath s filePath |} in
  updateAccessOrder (withSummaries s (JsMap.set normalizedPath entry (summaries s)))
                    normalizedPath.

Definition setSummary (fuel : nat) (now : Z) (s : ContextState)
    (filePath summaryText fullContent : string) : option ContextState :=
  evictIfNeeded fuel (storeSummary now s filePath summaryText fullContent).

(** [fs.readFileSync(p, 'utf8')]: [None] when the call throws.  The disk
    is keyed by the normalized absolute path, so that two spellings of
    one path name one file. *)
Definition readFileSync (disk : gmap string string) (p : string) : option string :=
  disk !! normalizePath p.

(** Check if a cached summary is stale (file has changed on disk). *)
Definition isStale (s : ContextState) (disk : gmap string string) (filePath : string)
  : bool :=
  match JsMap.get (normalizePath filePath) (summaries s) with
  | None => true
  | Some cached =>
      match readFileSync disk filePath with
      | Some currentContent =>
          negb (bool_decide (hashContent currentContent = contentHash cached))
      | None => true
      end
  end.

(** Remove a file from tracking. *)
Definition forget (s : ContextState) (filePath : string) : ContextState * bool :=
  let normalizedPath := normalizePath filePath in
  let deleted := JsMap.has normalizedPath (summaries s) in
  let s1 := withSummaries s (JsMap.delete normalizedPath (summaries s)) in
  let s2 := if bool_decide (activeFile s1 = Some normalizedPath)
            then withActiveFile s1 None else s1 in
  (withAccessOrder s2 (filter (fun p => p <> normalizedPath) (accessOrder s2)), deleted).

Definition statusRow (kv : string * CachedSummary) : Status.row :=
  {| Status.path := kv.1;
     Status.relativePath := relativePath kv.2;
     Status.fullSize := fullSize kv.2;
     Status.summarySize := summarySize kv.2;
     Status.savings := fullSize kv.2 - summarySize kv.2;
     Status.lastAccessed := lastAccessed kv.2 |}.

(** Get all tracked files with their status. *)
Definition getStatus (s : ContextState) : Status.t :=
  let summaryList := map statusRow (summaries s) in
  let totalFullSize :=
    fold_left (fun sum r => sum + Status.fullSize r)%Z summaryList 0%Z in
  let totalSummarySize :=
    fold_left (fun sum r => sum + Status.summarySize r)%Z summaryList 0%Z in
  {| Status.activeFile := activeFile s;
     Status.summaries := summaryList;
     Status.totalFullSize := totalFullSize;
     Status.totalSummarySize := totalSummarySize;
     Status.totalSavings := totalFullSize - totalSummarySize |}.

End ContextState.

(** ** The files as bytes

    The model above keeps, for every file, the text that
    [fs.readFileSync(p, 'utf-8')] gives.  Here the files hold bytes, and
    reading decodes them: what cannot be decoded comes out as U+FFFD.  A
    text is the list of its code points. *)

Module Utf8.
Local Open Scope Z_scope.

(** U+FFFD, which stands for what cannot be decoded. *)
Definition replacement : Z := 65533.

(** A sequence that has begun: the bits of its code point read so
    far, the number of bytes it still needs, and the range of the next
    one. *)
Record Pending := { bits : Z; needed : nat; lower : Z; upper : Z }.

Definition within (lo hi b : Z) : bool := (lo <=? b) && (b <=? hi).

(** A byte where a sequence begins: a code point of its own, the lead
    of a sequence of two, three or four bytes, or a byte that begins
    nothing. *)
Definition lead (b : Z) : list Z * option Pending :=
  if within 0 127 b then ([b], None)
  else if within 194 223 b then
    ([], Some {| bits := Z.land b 31; needed := 1; lower := 128; upper := 191 |})
  else if within 224 239 b then
    ([], Some {| bits := Z.land b 15; needed := 2;
                 lower := if b =? 224 then 160 else 128;
                 upper := if b =? 237 then 159 else 191 |})
  else if within 240 244 b then
    ([], Some {| bits := Z.land b 7; needed := 3;
                 lower := if b =? 240 then 144 else 128;
                 upper := if b =? 244 then 143 else 191 |})
  else ([replacement], None).

(** The decoder of [buffer.toString('utf-8')], the one of the Encoding
    Standard: a byte out of the range of a sequence that has begun ends
    it with U+FFFD and is read again as the begin of a sequence; so
    does the end of the bytes. *)
Fixpoint decodeFrom (pending : option Pending) (bytes : list Z) : list Z :=
  match bytes with
  | [] =>
      match pending with
      | Some _ => [replacement]
      | None => []
      end
  | b :: rest =>
      match pending with
      | None => let '(out, next) := lead b in out ++ decodeFrom next rest
      | Some p =>
          if within (lower p) (upper p) b then
            let bits' := Z.lor (Z.shiftl (bits p) 6) (Z.land b 63) in
            match needed p with
            | S (S n) =>
                decodeFrom (Some {| bits := bits'; needed := S n;
                                    lower := 128; upper := 191 |}) rest
            | _ => bits' :: decodeFrom None rest
            end
          else
            let '(out, next) := lead b in replacement :: out ++ decodeFrom next rest
      end
  end.

Definition decode (bytes : list Z) : list Z := decodeFrom None bytes.

(** The bytes of a code point; a surrogate on its own is written as
    U+FFFD. *)
Definition encodeOne (c : Z) : list Z :=
  if c <? 128 then [c]
  else if c <? 2048 then [192 + c / 64; 128 + c mod 64]
  else if within 55296 57343 c then [239; 191; 189]
  else if c <? 65536 then [224 + c / 4096; 128 + (c / 64) mod 64; 128 + c mod 64]
  else [240 + c / 262144; 128 + (c / 4096) mod 64; 128 + (c / 64) mod 64;
        128 + c mod 64].

(** [Buffer.from(text, 'utf8')]. *)
Definition encode (text : list Z) : list Z := concat (map encodeOne text).

(** The code points of a string of code units below 256. *)
Fixpoint codePoints (s : string) : list Z :=
  match s with
  | EmptyString => []
  | String c s' => Z.of_nat (nat_of_ascii c) :: codePoints s'
  end.

End Utf8.

(** [ContextState] over files of bytes: the operations that look at the
    content of a file, for a content given by its code points. *)
Module Raw.
Section Raw.
Context `{Host}.

(** Hash file contents for staleness detection. *)
Definition hashContent (content : list Z) : string :=
  Sha256.hex (Utf8.encode content).

(** Store a summary for a file; [now] is the value of [new Date()]. *)
Definition storeSummary (now : Z) (s : ContextState)
    (filePath summaryText : string) (fullContent : list Z) : ContextState :=
  let normalizedPath := normalizePath filePath in
  let entry := {| summary := summaryText;
                  contentHash := hashContent fullContent;
                  fullSize := Z.of_nat (length (Utf8.encode fullContent));
                  summarySize := Js.byteLength summaryText;
                  lastAccessed := now;
                  relativePath := getRelativePath s filePath |} in
  updateAccessOrder (withSummaries s (JsMap.set normalizedPath entry (summaries s)))
                    normalizedPath.

Definition setSummary (fuel : nat) (now : Z) (s : ContextState)
    (filePath summaryText : string) (fullContent : list Z) : option ContextState :=
  evictIfNeeded fuel (storeSummary now s filePath summaryText fullContent).

(** [fs.readFileSync(p, 'utf-8')]: [None] when the call throws. *)
Definition readFileSync (disk : gmap string (list Z)) (p : string) : option (list Z) :=
  Utf8.decode <$> disk !! normalizePath p.

(** Check if a cached summary is stale (file has changed on disk). *)
Definition isStale (s : ContextState) (disk : gmap string (list Z)) (filePath : string)
  : bool :=
  match JsMap.get (normalizePath filePath) (summaries s) with
  | None => true
  | Some cached =>
      match readFileSync disk filePath with
      | Some currentContent =>
          negb (bool_decide (hashContent currentContent = contentHash cached))
      | None => true
      end
  end.

End Raw.
End Raw.


(** ** The Summary Model of [parsers/types.ts] *)

Module FunctionSummary.
Record t := {
  name : string;
  doc : option string;
  signature : string;
  isUnsafe : bool;
  isAsync : bool;
  isPublic : bool
}.
End FunctionSummary.

Module FieldSummary.
Record t := {
  name : string;
  type : string;
  doc : option string;
  isPublic : bool
}.
End FieldSummary.

Module StructSummary.
Record t := {
  name : string;
  doc : option string;
  generics : string;
  fields : list FieldSummary.t;
  methods : list FunctionSummary.t;
  derives : list string
}.
End StructSummary.

Module TraitSummary.
Record t := {
  name : string;
  doc : option string;
  generics : string;
  bounds : string;
  methods : list FunctionSummary.t
}.
End TraitSummary.

Module EnumSummary.
Record t := {
  name : string;
  doc : option string;
  generics : string;
  variants : list string;
  derives : list string
}.
End EnumSummary.

Module TypeAliasSummary.
Record t := {
  name : string;
  doc : option string;
  definition : string
}.
End TypeAliasSummary.

Module ConstantSummary.
Record t := {
  name : string;
  doc : option string;
  type : string;
  isStatic : bool
}.
End ConstantSummary.

Record FileSummary := {
  purpose : option string;
  structs : list StructSummary.t;
  traits : list TraitSummary.t;
  enums : list EnumSummary.t;
  functions : list FunctionSummary.t;
  typeAliases : list TypeAliasSummary.t;
  constants : list ConstantSummary.t;
  reexports : list string
}.

Inductive ParseOutcome :=
| ParseResult (summary : FileSummary) (formattedSummary : string)
| ParseError (error : string).

(** The line feed, ['\n']. *)
Definition newline : string := String "010"%char EmptyString.

(** [doc.split('\n')[0]]; an index outside an array reads [undefined]. *)
Definition firstLine (d : string) : string :=
  hd "undefined" (Js.split d newline).

(** The re-exports, and a blank line if there are any. *)
Definition reexportLines (r : list string) : list string :=
  match r with
  | [] => []
  | _ :: _ => r ++ [""]
  end.

(** The blank line pushed after a non-empty section. *)
Definition blankAfter {A} (l : list A) : list string :=
  match l with
  | [] => []
  | _ :: _ => [""]
  end.

(** ** The renderer of [parsers/rust.ts] *)

Module Rust.

Definition docLine (doc : option string) : list string :=
  match doc with
  | Some d => if Js.truthy d then ["/// " +:+ firstLine d] else []
  | None => []
  end.

Definition derivesLine (derives : list string) : list string :=
  match derives with
  | [] => []
  | _ :: _ => ["#[derive(" +:+ Js.join ", " derives +:+ ")]"]
  end.

Definition purposeLines (p : option string) : list string :=
  match p with
  | Some text =>
      if Js.truthy text then
        let purposeLines :=
          filter (fun l => Js.truthy (Js.trim l) = true) (Js.split text newline) in
        ("// Purpose: " +:+ hd "undefined" purposeLines)
          :: map (fun l => "//          " +:+ l) (tail purposeLines)
          ++ [""]
      else []
  | None => []
  end.

Definition constantLines (c : ConstantSummary.t) : list string :=
  docLine (ConstantSummary.doc c)
  ++ ["pub " +:+ (if ConstantSummary.isStatic c then "static" else "const") +:+ " "
      +:+ ConstantSummary.name c +:+ ": " +:+ ConstantSummary.type c +:+ ";"].

Definition aliasLines (a : TypeAliasSummary.t) : list string :=
  docLine (TypeAliasSummary.doc a) ++ ["pub " +:+ TypeAliasSummary.definition a].

Definition methodLine (m : FunctionSummary.t) : string :=
  "    " +:+ FunctionSummary.signature m +:+ ";".

Definition structLines (st : StructSummary.t) : list string :=
  let pubFields := filter (fun f => FieldSummary.isPublic f = true) (StructSummary.fields st) in
  derivesLine (StructSummary.derives st)
  ++ docLine (StructSummary.doc st)
  ++ ["pub struct " +:+ StructSummary.name st +:+ StructSummary.generics st +:+ " { ... }"]
  ++ match pubFields with
     | [] => []
     | _ :: _ =>
         "  // Public fields:"
           :: map (fun f => "  pub " +:+ FieldSummary.name f +:+ ": "
                              +:+ FieldSummary.type f +:+ ",") pubFields
     end
  ++ match StructSummary.methods st with
     | [] => []
     | _ :: _ =>
         ("impl" +:+ StructSummary.generics st +:+ " " +:+ StructSummary.name st
            +:+ StructSummary.generics st +:+ " {")
           :: map methodLine (StructSummary.methods st) ++ ["}"]
     end
  ++ [""].

Definition enumLines (e : EnumSummary.t) : list string :=
  derivesLine (EnumSummary.derives e)
  ++ docLine (EnumSummary.doc e)
  ++ ["pub enum " +:+ EnumSummary.name e +:+ EnumSummary.generics e +:+ " {"]
  ++ map (fun v => "    " +:+ v +:+ ",") (EnumSummary.variants e)
  ++ ["}"; ""].

Definition traitLines (t : TraitSummary.t) : list string :=
  let header := "pub trait " +:+ TraitSummary.name t +:+ TraitSummary.generics t in
  let header := if Js.truthy (TraitSummary.bounds t)
                then header +:+ ": " +:+ TraitSummary.bounds t else header in
  docLine (TraitSummary.doc t)
  ++ [header +:+ " {"]
  ++ map methodLine (TraitSummary.methods t)
  ++ ["}"; ""].

Definition functionLines (f : FunctionSummary.t) : list string :=
  docLine (FunctionSummary.doc f) ++ [FunctionSummary.signature f +:+ ";"].

(** Format a summary into human-readable text. *)
Definition formatSummary (summary : FileSummary) : string :=
  let lines :=
    purposeLines (purpose summary)
    ++ reexportLines (reexports summary)
    ++ concat (map constantLines (constants summary))
    ++ blankAfter (constants summary)
    ++ concat (map aliasLines (typeAliases summary))
    ++ blankAfter (typeAliases summary)
    ++ concat (map structLines (structs summary))
    ++ concat (map enumLines (enums summary))
    ++ concat (map traitLines (traits summary))
    ++ concat (map functionLines (functions summary)) in
  Js.trim (Js.join newline lines).

(** Check if this parser supports the given file extension. *)
Definition supportsExtension (ext : string) : bool := bool_decide (ext = ".rs").

End Rust.

(** ** The renderer of [parsers/php.ts] *)

Module Php.

Definition docLine (doc : option string) : list string :=
  match doc with
  | Some d => if Js.truthy d then ["/** " +:+ firstLine d +:+ " */"] else []
  | None => []
  end.

Definition purposeLines (p : option string) : list string :=
  match p with
  | Some text =>
      if Js.truthy text then
        "/**" :: map (fun line => " * " +:+ line) (Js.split text newline) ++ [" */"; ""]
      else []
  | None => []
  end.

Definition constantLines (c : ConstantSummary.t) : list string :=
  docLine (ConstantSummary.doc c)
  ++ ["const " +:+ ConstantSummary.name c +:+ ": " +:+ ConstantSummary.type c +:+ ";"].

Definition methodLine (m : FunctionSummary.t) : string :=
  "    " +:+ FunctionSummary.signature m +:+ ";".

Definition enumLines (e : EnumSummary.t) : list string :=
  docLine (EnumSummary.doc e)
  ++ ["enum " +:+ EnumSummary.name e +:+ " {"]
  ++ map (fun v => "    case " +:+ v +:+ ";") (EnumSummary.variants e)
  ++ ["}"; ""].

Definition interfaceLines (iface : TraitSummary.t) : list string :=
  let header := "interface " +:+ TraitSummary.name iface in
  let header := if Js.truthy (TraitSummary.bounds iface)
                then header +:+ " extends " +:+ TraitSummary.bounds iface else header in
  docLine (TraitSummary.doc iface)
  ++ [header +:+ " {"]
  ++ map methodLine (TraitSummary.methods iface)
  ++ ["}"; ""].

Definition classLines (cls : StructSummary.t) : list string :=
  let header := match StructSummary.derives cls with
                | [] => ""
                | _ :: _ => Js.join " " (StructSummary.derives cls) +:+ " "
                end in
  let header := header +:+ "class " +:+ StructSummary.name cls in
  let header := if Js.truthy (StructSummary.generics cls)
                then header +:+ " " +:+ StructSummary.generics cls else header in
  docLine (StructSummary.doc cls)
  ++ [header +:+ " {"]
  ++ map (fun f => "    public " +:+ FieldSummary.type f +:+ " $" +:+ FieldSummary.name f +:+ ";")
         (StructSummary.fields cls)
  ++ map methodLine (StructSummary.methods cls)
  ++ ["}"; ""].

Definition functionLines (f : FunctionSummary.t) : list string :=
  docLine (FunctionSummary.doc f) ++ [FunctionSummary.signature f +:+ ";"].

(** Format a summary into human-readable PHP-style text. *)
Definition formatSummary (summary : FileSummary) : string :=
  let lines :=
    ["<?php"]
    ++ purposeLines (purpose summary)
    ++ reexportLines (reexports summary)
    ++ concat (map constantLines (constants summary))
    ++ blankAfter (constants summary)
    ++ concat (map enumLines (enums summary))
    ++ concat (map interfaceLines (traits summary))
    ++ concat (map classLines (structs summary))
    ++ concat (map functionLines (functions summary)) in
  Js.trim (Js.join newline lines).

Definition supportsExtension (ext : string) : bool := bool_decide (ext = ".php").

End Php.

(** ** The extractors

    The walks over the syntax tree that tree-sitter builds are taken as
    given: for Rust and PHP the part of the [try] block that comes before
    the call of [formatSummary] ([inl] is the message of what it threw),
    for the other languages the whole parser. *)

Class Extractors := {
  rustExtract : string -> string + FileSummary;
  phpExtract : string -> string + FileSummary;
  parsePython : string -> ParseOutcome;
  parseTypeScript : string -> string -> ParseOutcome;
  parseCSharp : string -> ParseOutcome;
  parseGDScript : string -> ParseOutcome
}.

Section Parsers.
Context `{Host} `{Extractors}.

(** Parse Rust source code and extract public interface. *)
Definition parseRust (source : string) : ParseOutcome :=
  match rustExtract source with
  | inr summary => ParseResult summary (Rust.formatSummary summary)
  | inl message => ParseError message
  end.

(** Parse PHP source code and extract public interface. *)
Definition parsePHP (source : string) : ParseOutcome :=
  match phpExtract source with
  | inr summary => ParseResult summary (Php.formatSummary summary)
  | inl message => ParseError message
  end.

Definition pythonSupports (ext : string) : bool := bool_decide (ext = ".py").
Definition tsSupports (ext : string) : bool :=
  bool_decide (ext = ".ts") || bool_decide (ext = ".tsx")
  || bool_decide (ext = ".js") || bool_decide (ext = ".jsx").
Definition csharpSupports (ext : string) : bool := bool_decide (ext = ".cs").
Definition gdscriptSupports (ext : string) : bool := bool_decide (ext = ".gd").

(** Supported file extensions and their parsers. *)
Definition SUPPORTED_EXTENSIONS : list string :=
  [".rs"; ".py"; ".ts"; ".tsx"; ".js"; ".jsx"; ".php"; ".cs"; ".gd"].

(** Check if a file extension is supported for summarization. *)
Definition isSupported (filePath : string) : bool :=
  let ext := Js.toLowerCase (path_extname filePath) in
  bool_decide (ext ∈ SUPPORTED_EXTENSIONS).

(** Parse a file and generate a summary; [None] is the [null] returned
    when the file type is not supported. *)
Definition parseFile (filePath content : string) : option ParseOutcome :=
  let ext := Js.toLowerCase (path_extname filePath) in
  if Rust.supportsExtension ext then Some (parseRust content)
  else if pythonSupports ext then Some (parsePython content)
  else if tsSupports ext then Some (parseTypeScript content ext)
  else if Php.supportsExtension ext then Some (parsePHP content)
  else if csharpSupports ext then Some (parseCSharp content)
  else if gdscriptSupports ext then Some (parseGDScript content)
  else None.

(** Format a file path header for inclusion in context. *)
Definition formatFileHeader (relativePath : string) (isSummary : bool) : string :=
  let tag := if isSummary then "SUMMARY" else "FULL" in
  "// === " +:+ relativePath +:+ " [" +:+ tag +:+ "] ===".

End Parsers.

(** ** The tools of [tools.ts] *)

(** What a tool throws: the failure of [fs.readFileSync],
    [fs.writeFileSync] or [fs.mkdirSync], with its code and the path given
    to the call, or one of the two [Error]s of [editFile]. *)
Inductive ToolError :=
| ReadFailure (code : FsCode) (path : string)
| WriteFailure (code : FsCode) (path : string)
| MkdirFailure (code : FsCode) (path : string)
| NoMatch (relativePath : string)
| AmbiguousMatch (occurrences : Z) (relativePath : string).

Inductive Result :=
| Returned (text : string)
| Threw (e : ToolError).

(** The process: the singleton [ContextState] that [getContextState()]
    hands out, the file system, and the clock read by [new Date()].  The
    file system is the files with their content ([disk]) and the
    directories ([dirs]), both by their normalized absolute path.
    Permissions, quotas and faults of the device are not part of it: a
    call of [fs] fails when the shape of the file system says so, and
    only then. *)
Record World := {
  ctx : ContextState;
  disk : gmap string string;
  dirs : gset string;
  clock : Z
}.

(** A number in a template literal. *)
Definition numberToString (z : Z) : string := NilZero.string_of_int (Z.to_int z).

(** [(num / den).toFixed(1)] for integers [0 <= num] and a power of two
    [den]: the quotient is exact, and [toFixed] rounds half up. *)
Definition toFixed1 (num den : Z) : string :=
  let n := ((10 * num + den / 2) / den)%Z in
  numberToString (n / 10) +:+ "." +:+ numberToString (n mod 10).

(** Format bytes into human-readable size. *)
Definition formatSize (bytes : Z) : string :=
  if (bytes <? 1024)%Z then numberToString bytes +:+ " B"
  else if (bytes <? 1024 * 1024)%Z then toFixed1 bytes 1024 +:+ " KB"
  else toFixed1 bytes (1024 * 1024) +:+ " MB".

(** [error.message]. *)
Definition errorMessage `{Host} (e : ToolError) : string :=
  match e with
  | ReadFailure code path => fs_errorText ReadFileCall code path
  | WriteFailure code path => fs_errorText WriteFileCall code path
  | MkdirFailure code path => fs_errorText MkdirCall code path
  | NoMatch relativePath =>
      "The specified old_string was not found in " +:+ relativePath +:+ ". "
      +:+ "Make sure you're using the exact string including whitespace and indentation."
  | AmbiguousMatch occurrences relativePath =>
      "The specified old_string appears " +:+ numberToString occurrences +:+ " times in "
      +:+ relativePath +:+ ". "
      +:+ "Please provide a more specific string that uniquely identifies the location."
  end.

Section Tools.
Context `{Host} `{Extractors}.

Definition withCtx (w : World) (s : ContextState) : World :=
  {| ctx := s; disk := disk w; dirs := dirs w; clock := clock w |}.

Definition withDisk (w : World) (d : gmap string string) : World :=
  {| ctx := ctx w; disk := d; dirs := dirs w; clock := clock w |}.

Definition withDirs (w : World) (d : gset string) : World :=
  {| ctx := ctx w; disk := disk w; dirs := d; clock := clock w |}.

(** *** The file system *)

(** The directory that holds a path: [path.dirname], as a key of the
    file system. *)
Definition parentOf (p : string) : string := normalizePath (path_dirname p).

(** The directories above a path, the nearest first, up to the one
    that is its own parent. *)
Fixpoint above (rounds : nat) (key : string) : list string :=
  match rounds with
  | O => []
  | S rounds' =>
      let parent := parentOf key in
      if decide (parent = key) then [] else parent :: above rounds' parent
  end.

Definition parentsOf (key : string) : list string := above (String.length key) key.

Definition isFile (w : World) (key : string) : bool :=
  match disk w !! key with
  | Some _ => true
  | None => false
  end.

Definition isDirectory (w : World) (key : string) : bool := bool_decide (key ∈ dirs w).

(** [fs.existsSync(p)]. *)
Definition existsSync (w : World) (p : string) : bool :=
  isFile w (normalizePath p) || isDirectory w (normalizePath p).

(** Why the look-up of a path that is no file fails: the path is a
    directory; or, from the root down, the first directory above it
    that is no directory is a file, or does not exist; or the path itself
    does not exist. *)
Definition lookupCode (w : World) (p : string) : FsCode :=
  if isDirectory w (normalizePath p) then EISDIR
  else match find (fun a => negb (isDirectory w a)) (reverse (parentsOf (normalizePath p))) with
       | Some a => if isFile w a then ENOTDIR else ENOENT
       | None => ENOENT
       end.

(** [fs.mkdirSync(dir, { recursive: true })]: the directories afterwards,
    or the code of the error.  Nothing is made when a path above [dir] is
    a file. *)
Definition mkdirSync (w : World) (dir : string) : FsCode + gset string :=
  let key := normalizePath dir in
  if isFile w key then inl EEXIST
  else if existsb (isFile w) (parentsOf key) then inl ENOTDIR
  else inr (dirs w ∪ list_to_set (key :: parentsOf key)).

(** [fs.writeFileSync(p, content, 'utf8')]: the files afterwards, or the
    code of the error.  A file is overwritten; a new file needs its
    directory. *)
Definition writeFileSync (w : World) (p content : string) : FsCode + gmap string string :=
  let key := normalizePath p in
  if isFile w key then inr (<[key := content]> (disk w))
  else if isDirectory w key then inl EISDIR
  else if isDirectory w (parentOf key) then inr (<[key := content]> (disk w))
  else inl (lookupCode w p).

(** [path.isAbsolute(filePath) ? filePath : path.resolve(filePath)]. *)
Definition absolutePathOf (filePath : string) : string :=
  if path_isAbsolute filePath then filePath else path_resolve filePath.

(** Internal: summarize a file and cache the result.  A failure to read
    the file is caught and ignored. *)
Definition summarizeFile (fuel : nat) (w : World) (filePath : string) : option World :=
  match readFileSync (disk w) filePath with
  | Some content =>
      match parseFile filePath content with
      | Some (ParseResult _ formattedSummary) =>
          s ← setSummary fuel (clock w) (ctx w) filePath formattedSummary content;
          Some (withCtx w s)
      | _ => Some w
      end
  | None => Some w
  end.

(** The step that [readFile], [editFile] and [writeFile] share:
    summarize the previous active file if there was one and it is not
    [absolutePath]. *)
Definition summarizePrevious (fuel : nat) (w : World) (absolutePath : string)
  : option World :=
  match getActiveFile (ctx w) with
  | Some previousActive =>
      if Js.truthy previousActive && negb (bool_decide (previousActive = absolutePath))
      then summarizeFile fuel w previousActive
      else Some w
  | None => Some w
  end.

(** Read a file and mark it as active. *)
Definition readFile (fuel : nat) (w : World) (filePath : string)
  : option (World * Result) :=
  let absolutePath := absolutePathOf filePath in
  match readFileSync (disk w) absolutePath with
  | None => Some (w, Threw (ReadFailure (lookupCode w absolutePath) absolutePath))
  | Some content =>
      let relativePath := getRelativePath (ctx w) absolutePath in
      if negb (isSupported absolutePath) then
        let header := formatFileHeader relativePath false in
        Some (w, Returned (header +:+ newline
                +:+ "// (Unsupported file type - not tracked for compaction)"
                +:+ newline +:+ newline +:+ content))
      else
        w1 ← summarizePrevious fuel w absolutePath;
        let w2 := withCtx w1 (setActiveFile (ctx w1) absolutePath).1 in
        let header := formatFileHeader relativePath false in
        Some (w2, Returned (header +:+ newline +:+ newline +:+ content))
  end.

(** The cached summary that [peekFile] may serve:
    [cached && !state.isStale(absolutePath)]. *)
Definition freshSummary (w : World) (absolutePath : string) : option CachedSummary :=
  match getSummary (ctx w) absolutePath with
  | Some cached => if negb (isStale (ctx w) (disk w) absolutePath) then Some cached else None
  | None => None
  end.

(** Peek at a file's summary without changing the active file. *)
Definition peekFile (fuel : nat) (w : World) (filePath : string)
  : option (World * Result) :=
  let absolutePath := absolutePathOf filePath in
  match readFileSync (disk w) absolutePath with
  | None => Some (w, Threw (ReadFailure (lookupCode w absolutePath) absolutePath))
  | Some content =>
      let relativePath := getRelativePath (ctx w) absolutePath in
      if negb (isSupported absolutePath) then
        let header := formatFileHeader relativePath false in
        Some (w, Returned (header +:+ newline
                +:+ "// (Unsupported file type - returning full contents)"
                +:+ newline +:+ newline +:+ content))
      else if isActive (ctx w) absolutePath then
        let header := formatFileHeader relativePath false in
        Some (w, Returned (header +:+ newline +:+ "// (This is the active file)"
                +:+ newline +:+ newline +:+ content))
      else
        match freshSummary w absolutePath with
        | Some cached =>
            let header := formatFileHeader relativePath true in
            Some (w, Returned (header +:+ newline +:+ newline +:+ summary cached))
        | None =>
            match parseFile absolutePath content with
            | Some (ParseResult _ formattedSummary) =>
                s ← setSummary fuel (clock w) (ctx w) absolutePath formattedSummary content;
                let header := formatFileHeader relativePath true in
                Some (withCtx w s,
                      Returned (header +:+ newline +:+ newline +:+ formattedSummary))
            | Some (ParseError error) =>
                let header := formatFileHeader relativePath false in
                Some (w, Returned (header +:+ newline
                        +:+ "// (Could not generate summary (Parse error: " +:+ error
                        +:+ "))" +:+ newline +:+ newline +:+ content))
            | None =>
                let header := formatFileHeader relativePath false in
                Some (w, Returned (header +:+ newline
                        +:+ "// (Could not generate summary)"
                        +:+ newline +:+ newline +:+ content))
            end
        end
  end.

(** [content.split(oldString).length - 1]. *)
Definition countOccurrences (content oldString : string) : Z :=
  (Z.of_nat (length (Js.split content oldString)) - 1)%Z.

(** The tail that [editFile] and [writeFile] share once the file is
    written and its type is supported: summarize the previous active
    file, mark this one as active, regenerate its summary. *)
Definition activateAndSummarize (fuel : nat) (w : World)
    (absolutePath content : string) : option World :=
  w1 ← summarizePrevious fuel w absolutePath;
  let w2 := withCtx w1 (setActiveFile (ctx w1) absolutePath).1 in
  match parseFile absolutePath content with
  | Some (ParseResult _ formattedSummary) =>
      s ← setSummary fuel (clock w2) (ctx w2) absolutePath formattedSummary content;
      Some (withCtx w2 s)
  | _ => Some w2
  end.

(** Edit a file using string replacement. *)
Definition editFile (fuel : nat) (w : World) (filePath oldString newString : string)
  : option (World * Result) :=
  let absolutePath := absolutePathOf filePath in
  let relativePath := getRelativePath (ctx w) absolutePath in
  match readFileSync (disk w) absolutePath with
  | None => Some (w, Threw (ReadFailure (lookupCode w absolutePath) absolutePath))
  | Some content =>
      if negb (Js.includes content oldString) then
        Some (w, Threw (NoMatch relativePath))
      else
        let occurrences := countOccurrences content oldString in
        if (1 <? occurrences)%Z then
          Some (w, Threw (AmbiguousMatch occurrences relativePath))
        else
          let newContent := Js.replace content oldString newString in
          match writeFileSync w absolutePath newContent with
          | inl code => Some (w, Threw (WriteFailure code absolutePath))
          | inr written =>
              let w1 := withDisk w written in
              if negb (isSupported absolutePath) then
                Some (w1, Returned ("Successfully edited " +:+ relativePath
                                    +:+ " (unsupported file type - not tracked)"))
              else
                w2 ← activateAndSummarize fuel w1 absolutePath newContent;
                Some (w2, Returned ("Successfully edited " +:+ relativePath))
          end
  end.

(** The first step of [writeFile]: create the directory if needed.
    The directories afterwards, or the error of [fs.mkdirSync]. *)
Definition ensureDirectory (w : World) (absolutePath : string) : ToolError + gset string :=
  let dir := path_dirname absolutePath in
  if negb (existsSync w dir) then
    match mkdirSync w dir with
    | inl code => inl (MkdirFailure code dir)
    | inr made => inr made
    end
  else inr (dirs w).

(** Write a new file. *)
Definition writeFile (fuel : nat) (w : World) (filePath content : string)
  : option (World * Result) :=
  let absolutePath := absolutePathOf filePath in
  let relativePath := getRelativePath (ctx w) absolutePath in
  match ensureDirectory w absolutePath with
  | inl e => Some (w, Threw e)
  | inr made =>
      let w0 := withDirs w made in
      match writeFileSync w0 absolutePath content with
      | inl code => Some (w0, Threw (WriteFailure code absolutePath))
      | inr written =>
          let w1 := withDisk w0 written in
          if negb (isSupported absolutePath) then
            Some (w1, Returned ("Successfully wrote " +:+ relativePath
                                +:+ " (unsupported file type - not tracked)"))
          else
            w2 ← activateAndSummarize fuel w1 absolutePath content;
            Some (w2, Returned ("Successfully wrote " +:+ relativePath))
      end
  end.

Definition statusLine (r : Status.row) : string :=
  "  " +:+ Js.padEnd (Status.relativePath r) 40 +:+ " "
  +:+ Js.padStart (formatSize (Status.summarySize r)) 8 +:+ " "
  +:+ "(was " +:+ formatSize (Status.fullSize r) +:+ ", saved "
  +:+ formatSize (Status.savings r) +:+ ")".

(** The first block of [fileStatus]: the line of the active file.  Its
    read of the file is inside [try]/[catch]. *)
Definition activeLine (w : World) (status : Status.t) : string :=
  match Status.activeFile status with
  | Some active =>
      if Js.truthy active then
        let relativePath := getRelativePath (ctx w) active in
        match readFileSync (disk w) active with
        | Some content =>
            "Active: " +:+ relativePath +:+ " (full, "
            +:+ formatSize (Js.byteLength content) +:+ ")"
        | None => "Active: " +:+ relativePath +:+ " (file not found)"
        end
      else "Active: (none)"
  | None => "Active: (none)"
  end.

Definition cachedLines (status : Status.t) : list string :=
  match Status.summaries status with
  | [] => ["Cached Summaries: (none)"; ""]
  | _ :: _ => "Cached Summaries:" :: map statusLine (Status.summaries status) ++ [""]
  end.

(** [activeSize] in the totals block: the file is read again, outside
    any [try], so a failure of that read leaves [fileStatus]. *)
Definition activeSize (w : World) (status : Status.t) : ToolError + Z :=
  match Status.activeFile status with
  | Some active =>
      if Js.truthy active then
        match readFileSync (disk w) active with
        | Some content => inr (Js.byteLength content)
        | None => inl (ReadFailure (lookupCode w active) active)
        end
      else inr 0%Z
  | None => inr 0%Z
  end.

Definition totalLines (status : Status.t) (activeSize : Z) : list string :=
  let totalContext := (activeSize + Status.totalSummarySize status)%Z in
  let totalWithoutCompaction := (activeSize + Status.totalFullSize status)%Z in
  let savingsPercent :=
    if (0 <? totalWithoutCompaction)%Z
    then percentToFixed0 (Status.totalSavings status) totalWithoutCompaction
    else "0" in
  ["Total Context:        " +:+ formatSize totalContext;
   "Without Compaction:   " +:+ formatSize totalWithoutCompaction;
   "Savings:              " +:+ formatSize (Status.totalSavings status)
     +:+ " (" +:+ savingsPercent +:+ "%)"].

(** Get the status of all tracked files. *)
Definition fileStatus (w : World) : Result :=
  let status := getStatus (ctx w) in
  let lines := ["Context Status"; "=============="; ""]
               ++ [activeLine w status] ++ [""] ++ cachedLines status in
  match Status.summaries status with
  | [] => Returned (Js.join newline lines)
  | _ :: _ =>
      match activeSize w status with
      | inr size => Returned (Js.join newline (lines ++ totalLines status size))
      | inl e => Threw e
      end
  end.

(** Forget a file (remove it from tracking). *)
Definition forgetFile (w : World) (filePath : string) : World * Result :=
  let absolutePath := absolutePathOf filePath in
  let relativePath := getRelativePath (ctx w) absolutePath in
  let '(s, wasTracked) := forget (ctx w) absolutePath in
  (withCtx w s,
   Returned (if wasTracked then "Removed " +:+ relativePath +:+ " from tracking"
             else relativePath +:+ " was not being tracked")).

(** What [readFile] returns for a readable file of an unsupported type. *)
Definition unsupportedRead (w : World) (absolutePath content : string) : string :=
  formatFileHeader (getRelativePath (ctx w) absolutePath) false +:+ newline
  +:+ "// (Unsupported file type - not tracked for compaction)"
  +:+ newline +:+ newline +:+ content.

(** What [peekFile] returns for a readable file of an unsupported type. *)
Definition unsupportedPeek (w : World) (absolutePath content : string) : string :=
  formatFileHeader (getRelativePath (ctx w) absolutePath) false +:+ newline
  +:+ "// (Unsupported file type - returning full contents)"
  +:+ newline +:+ newline +:+ content.

End Tools.

(** ** What the built-ins guarantee

    [path.resolve] returns an absolute path in normal form. *)

Class HostLaws `{Host} := {
  resolve_isAbsolute : forall p, path_isAbsolute (path_resolve p) = true;
  normalize_resolve : forall p, path_normalize (path_resolve p) = path_resolve p
}.

(** ** A host for the examples

    A POSIX host whose working directory is [/work].  The path functions
    are those of Node.js on paths without [.] and [..] segments and
    without doubled or trailing slashes, which are the only ones the
    examples use. *)

Module Example.

Definition isAbsolute (p : string) : bool := Js.startsWith "/" p.

Definition cwd : string := "/work".

Definition resolve (p : string) : string :=
  if isAbsolute p then p else cwd +:+ "/" +:+ p.

Definition relative (from to : string) : string :=
  if Js.startsWith (from +:+ "/") to
  then Js.sliceFrom (String.length from + 1) to else to.

(** The part of a path after its last slash. *)
Fixpoint basename (p : string) : string :=
  match p with
  | EmptyString => EmptyString
  | String c p' =>
      if Js.includes p' "/" then basename p'
      else if decide (c = "/"%char) then p' else p
  end.

(** The suffix that starts at the last dot. *)
Fixpoint fromLastDot (s : string) : option string :=
  match s with
  | EmptyString => None
  | String c s' =>
      match fromLastDot s' with
      | Some e => Some e
      | None => if decide (c = "."%char) then Some s else None
      end
  end.

(** [path.extname]: from the last dot of the base name, unless that dot
    is its first character or the base name is [..]. *)
Definition extname (p : string) : string :=
  match basename p with
  | EmptyString => EmptyString
  | String c rest =>
      if decide (String c rest = "..") then EmptyString
      else if decide (c = "."%char) then default EmptyString (fromLastDot rest)
      else default EmptyString (fromLastDot (String c rest))
  end.

(** The part of a path before its last slash. *)
Fixpoint beforeLastSlash (p : string) : option string :=
  match p with
  | EmptyString => None
  | String c p' =>
      match beforeLastSlash p' with
      | Some d => Some (String c d)
      | None => if decide (c = "/"%char) then Some EmptyString else None
      end
  end.

(** [path.dirname]. *)
Definition dirname (p : string) : string :=
  match beforeLastSlash p with
  | Some EmptyString => "/"
  | Some d => d
  | None => "."
  end.

(** The messages of the errors of [fs] on Linux. *)
Definition errorText (call : FsCall) (code : FsCode) (path : string) : string :=
  match code with
  | ENOENT => "ENOENT: no such file or directory"
  | EISDIR => "EISDIR: illegal operation on a directory"
  | ENOTDIR => "ENOTDIR: not a directory"
  | EEXIST => "EEXIST: file already exists"
  end
  +:+ match call, code with
      | ReadFileCall, EISDIR => ", read"
      | MkdirCall, _ => ", mkdir '" +:+ path +:+ "'"
      | _, _ => ", open '" +:+ path +:+ "'"
      end.

(** [((a / b) * 100).toFixed(0)], rounded from the exact quotient. *)
Definition percent (a b : Z) : string :=
  numberToString ((200 * a + b) / (2 * b)).

#[export] Instance host : Host := {|
  path_isAbsolute := isAbsolute;
  path_resolve := resolve;
  path_normalize := fun p => p;
  path_relative := relative;
  path_extname := extname;
  path_dirname := dirname;
  fs_errorText := errorText;
  process_cwd := cwd;
  percentToFixed0 := percent
|}.

(** A stand-in for the Rust extractor: a summary with no declarations
    whose purpose is the first line of the source, or a failure on the
    empty source. *)
Definition extract (source : string) : string + FileSummary :=
  if Js.truthy source then
    inr {| purpose := Some (firstLine source); structs := []; traits := [];
           enums := []; functions := []; typeAliases := []; constants := [];
           reexports := [] |}
  else inl "empty source".

#[export] Instance extractors : Extractors := {|
  rustExtract := extract;
  phpExtract := extract;
  parsePython := fun _ => ParseError "no grammar";
  parseTypeScript := fun _ _ => ParseError "no grammar";
  parseCSharp := fun _ => ParseError "no grammar";
  parseGDScript := fun _ => ParseError "no grammar"
|}.

(** The directories of the examples: the root and the working
    directory. *)
Definition folders : gset string := {[ "/"; "/work" ]}.

(** A fresh process: [getContextState()] builds the state on first
    use, with the default configuration unless one is given. *)
Definition boot (c : PartialConfig) (files : list (string * string)) : World :=
  {| ctx := newContextState c; disk := list_to_map files; dirs := folders; clock := 0 |}.

Definition limit (n : Z) : PartialConfig :=
  {| maxTrackedFiles_opt := Some n; maxDocLines_opt := None; projectRoot_opt := None |}.

(** The files of the examples. *)
Definition files : list (string * string) :=
  [("/work/a.rs", "fn a() {}"); ("/work/b.rs", "fn b() {}");
   ("/work/notes.txt", "price: X")].

Definition entryA : CachedSummary :=
  {| summary := "// a"; contentHash := hashContent "fn a() {}"; fullSize := 9;
     summarySize := 4;
     lastAccessed := 0; relativePath := "a.rs" |}.

(** A cache of limit 1 after [setActiveFile] and [setSummary] of
    [/work/a.rs]. *)
Definition cacheA : ContextState :=
  {| activeFile := Some "/work/a.rs";
     summaries := [("/work/a.rs", entryA)];
     accessOrder := ["/work/a.rs"];
     config := {| maxTrackedFiles := 1; maxDocLines := 5; projectRoot := "/work" |} |}.

(** [cacheA] once the eviction loop has popped the whole recency list. *)
Definition drained : ContextState :=
  {| activeFile := Some "/work/a.rs";
     summaries := [("/work/a.rs", entryA)];
     accessOrder := [];
     config := {| maxTrackedFiles := 1; maxDocLines := 5; projectRoot := "/work" |} |}.

(** Four calls on a fresh [ContextState] of limit 1: activate and
    summarize [/work/a.rs], summarize [/work/b.rs], activate
    [/work/b.rs]. *)
Definition beforeHang : option ContextState :=
  let s1 := (setActiveFile (newContextState (limit 1)) "/work/a.rs").1 in
  s2 ← setSummary 2 0 s1 "/work/a.rs" "// a" "fn a() {}";
  s3 ← setSummary 2 0 s2 "/work/b.rs" "// b" "fn b() {}";
  Some (setActiveFile s3 "/work/b.rs").1.

(** The state those four calls reach. *)
Definition hanging : ContextState :=
  {| activeFile := Some "/work/b.rs";
     summaries := [("/work/a.rs", entryA)];
     accessOrder := ["/work/b.rs"];
     config := {| maxTrackedFiles := 1; maxDocLines := 5; projectRoot := "/work" |} |}.

(** A process whose active file is [/work/a.rs], read and not yet
    summarized. *)
Definition readingA : World :=
  {| ctx := {| activeFile := Some "/work/a.rs"; summaries := [];
               accessOrder := ["/work/a.rs"];
               config := {| maxTrackedFiles := 50; maxDocLines := 5;
                            projectRoot := "/work" |} |};
     disk := list_to_map files;
     dirs := folders;
     clock := 0 |}.

Definition entryB : CachedSummary :=
  {| summary := "// Purpose: fn b() {}"; contentHash := hashContent "fn b() {}";
     fullSize := 9;
     summarySize := 21; lastAccessed := 0; relativePath := "b.rs" |}.

(** [readingA] after a peek at [/work/b.rs]. *)
Definition peekedB : World :=
  {| ctx := {| activeFile := Some "/work/a.rs";
               summaries := [("/work/b.rs", entryB)];
               accessOrder := ["/work/a.rs"; "/work/b.rs"];
               config := {| maxTrackedFiles := 50; maxDocLines := 5;
                            projectRoot := "/work" |} |};
     disk := list_to_map files;
     dirs := folders;
     clock := 0 |}.

(** A Summary Model. *)
Definition model : FileSummary :=
  {| purpose := Some "Pointers.";
     structs :=
       [{| StructSummary.name := "Ptr"; StructSummary.doc := Some "A pointer";
           StructSummary.generics := "<T>";
           StructSummary.fields :=
             [{| FieldSummary.name := "raw"; FieldSummary.type := "*mut T";
                 FieldSummary.doc := None; FieldSummary.isPublic := true |}];
           StructSummary.methods :=
             [{| FunctionSummary.name := "new"; FunctionSummary.doc := None;
                 FunctionSummary.signature := "pub fn new(raw: *mut T) -> Self";
                 FunctionSummary.isUnsafe := false; FunctionSummary.isAsync := false;
                 FunctionSummary.isPublic := true |}];
           StructSummary.derives := ["Debug"; "Clone"] |}];
     traits := []; enums := []; functions := []; typeAliases := [];
     constants :=
       [{| ConstantSummary.name := "MAX"; ConstantSummary.doc := None;
           ConstantSummary.type := "usize"; ConstantSummary.isStatic := false |}];
     reexports := [] |}.

End Example.

(** ** Invariants of the cache used in the statements *)

Section Invariants.
Context `{Host}.

(** The keys the eviction loop never deletes: the active path, and the
    empty string, which [oldest &&] rejects. *)
Definition pinned (s : ContextState) (k : string) : bool :=
  negb (Js.truthy k) || bool_decide (Some k = activeFile s).

(** The entries no iteration of the loop can delete: their key is
    pinned or is not in the recency list. *)
Definition unevictable (s : ContextState) (kv : string * CachedSummary) : bool :=
  pinned s kv.1 || negb (bool_decide (kv.1 ∈ accessOrder s)).

Definition stuck (s : ContextState) : list (string * CachedSummary) :=
  filter (fun kv => unevictable s kv = true) (summaries s).

(** The entries whose path is not the active path. *)
Definition nonActive (s : ContextState) : list (string * CachedSummary) :=
  filter (fun kv => Some kv.1 <> activeFile s) (summaries s).

(** Whether a code unit occurs in a string. *)
Fixpoint hasUnit (c : ascii) (s : string) : bool :=
  match s with
  | EmptyString => false
  | String x s' => bool_decide (x = c) || hasUnit c s'
  end.

(** The invariants of the data model: the map holds a key once, and the
    recency list holds a path once. *)
Definition wellFormed (s : ContextState) : Prop :=
  JsMap.wf (summaries s) /\ NoDup (accessOrder s).

(** The call [setSummary] returns: some number of iterations of the
    eviction loop is enough. *)
Definition settles (s : ContextState) : Prop :=
  exists fuel s', evictIfNeeded fuel s = Some s'.

End Invariants.

(** ** Further vocabulary of the statements *)

Section MoreVocabulary.
Context `{Host}.

(** The sum of a list of integers. *)
Definition sumZ (l : list Z) : Z := foldr Z.add 0%Z l.

(** The entries that the eviction loop keeps once it has popped the
    paths of [popped]: those whose key is pinned or was not popped. *)
Definition keptAfter (s : ContextState) (popped : list string)
  : list (string * CachedSummary) :=
  filter (fun kv => pinned s kv.1 = true \/ kv.1 ∉ popped) (summaries s).

(** The entry that [setSummary] stores. *)
Definition entryOf (now : Z) (s : ContextState) (filePath summaryText fullContent : string)
  : CachedSummary :=
  {| summary := summaryText;
     contentHash := hashContent fullContent;
     fullSize := Js.byteLength fullContent;
     summarySize := Js.byteLength summaryText;
     lastAccessed := now;
     relativePath := getRelativePath s filePath |}.

End MoreVocabulary.


(** ** The tool call handler

    The handler of [CallToolRequestSchema], for requests whose arguments
    are strings, as the input schemas of the tools declare them; any of
    them may be missing. *)

Inductive ErrorCode := InvalidParams | MethodNotFound.

(** What the handler answers: a content block, flagged as an error or
    not, or the [McpError] it throws. *)
Inductive Response :=
| Content (text : string) (isError : bool)
| McpError (code : ErrorCode) (message : string).

Module Args.
Record t := {
  path : option string;
  old_string : option string;
  new_string : option string;
  content : option string
}.
End Args.

(** [!path] on an argument: it is missing or the empty string. *)
Definition falsy (a : option string) : bool :=
  match a with
  | Some s => negb (Js.truthy s)
  | None => true
  end.

(** The two ways out of the [try] block for a tool that ran: its text,
    or the [catch] that wraps the message of its error. *)
Definition respond `{Host} (r : Result) : Response :=
  match r with
  | Returned text => Content text false
  | Threw e => Content ("Error: " +:+ errorMessage e) true
  end.

Section Handler.
Context `{Host} `{Extractors}.

Definition callTool (fuel : nat) (w : World) (name : string) (args : Args.t)
  : option (World * Response) :=
  if decide (name = "read_file") then
    match Args.path args with
    | Some path =>
        if falsy (Some path) then Some (w, McpError InvalidParams "path is required")
        else '(w', r) ← readFile fuel w path; Some (w', respond r)
    | None => Some (w, McpError InvalidParams "path is required")
    end
  else if decide (name = "peek_file") then
    match Args.path args with
    | Some path =>
        if falsy (Some path) then Some (w, McpError InvalidParams "path is required")
        else '(w', r) ← peekFile fuel w path; Some (w', respond r)
    | None => Some (w, McpError InvalidParams "path is required")
    end
  else if decide (name = "edit_file") then
    match Args.path args, Args.old_string args, Args.new_string args with
    | Some path, Some oldString, Some newString =>
        if falsy (Some path) then
          Some (w, McpError InvalidParams "path, old_string, and new_string are required")
        else '(w', r) ← editFile fuel w path oldString newString; Some (w', respond r)
    | _, _, _ =>
        Some (w, McpError InvalidParams "path, old_string, and new_string are required")
    end
  else if decide (name = "write_file") then
    match Args.path args, Args.content args with
    | Some path, Some content =>
        if falsy (Some path) then
          Some (w, McpError InvalidParams "path and content are required")
        else '(w', r) ← writeFile fuel w path content; Some (w', respond r)
    | _, _ => Some (w, McpError InvalidParams "path and content are required")
    end
  else if decide (name = "file_status") then
    Some (w, respond (fileStatus w))
  else if decide (name = "forget_file") then
    match Args.path args with
    | Some path =>
        if falsy (Some path) then Some (w, McpError InvalidParams "path is required")
        else let '(w', r) := forgetFile w path in Some (w', respond r)
    | None => Some (w, McpError InvalidParams "path is required")
    end
  else Some (w, McpError MethodNotFound ("Unknown tool: " +:+ name)).

(** The states of a server process: it starts with the state that the
    first [getContextState()] builds, with no configuration, and
    answers tool calls; in between, the files change under it and time
    passes. *)
Inductive reachable : World -> Prop :=
| reachable_start d ds t :
    reachable {| ctx := newContextState noConfig; disk := d; dirs := ds; clock := t |}
| reachable_call fuel w name args w' response :
    reachable w -> callTool fuel w name args = Some (w', response) -> reachable w'
| reachable_outside w d ds t :
    reachable w -> reachable {| ctx := ctx w; disk := d; dirs := ds; clock := t |}.

(** An entry of the cache is sound when its summary is what the parser
    made of some content of a file of that path, and its digest and
    sizes are those of that content and of the summary. *)
Definition sound (kv : string * CachedSummary) : Prop :=
  exists q content model,
    kv.1 = normalizePath q /\
    parseFile q content = Some (ParseResult model (summary kv.2)) /\
    contentHash kv.2 = hashContent content /\
    fullSize kv.2 = Js.byteLength content /\
    summarySize kv.2 = Js.byteLength (summary kv.2).

(** What holds of every state of a server process. *)
Record invariant (w : World) : Prop := {
  inv_config : config (ctx w) = config (newContextState noConfig);
  inv_wellFormed : wellFormed (ctx w);
  inv_size : (Z.of_nat (JsMap.size (summaries (ctx w))) <= 50)%Z;
  inv_sound : Forall sound (summaries (ctx w));
  inv_active : forall a, activeFile (ctx w) = Some a ->
    exists p, a = normalizePath (absolutePathOf p) /\ isSupported (absolutePathOf p) = true
}.

End Handler.


(** ** The public part of a Summary Model *)

(** A struct without the fields that are not public. *)
Definition withPublicFields (st : StructSummary.t) : StructSummary.t :=
  {| StructSummary.name := StructSummary.name st;
     StructSummary.doc := StructSummary.doc st;
     StructSummary.generics := StructSummary.generics st;
     StructSummary.fields :=
       filter (fun f => FieldSummary.isPublic f = true) (StructSummary.fields st);
     StructSummary.methods := StructSummary.methods st;
     StructSummary.derives := StructSummary.derives st |}.

Definition publicInterface (m : FileSummary) : FileSummary :=
  {| purpose := purpose m;
     structs := map withPublicFields (structs m);
     traits := traits m;
     enums := enums m;
     functions := functions m;
     typeAliases := typeAliases m;
     constants := constants m;
     reexports := reexports m |}.


(** ** The documentation that a summary shows *)

(** What the renderers show of the documentation of a declaration: the
    first line of one that is not empty. *)
Definition docShown (doc : option string) : option string :=
  match doc with
  | Some d => if Js.truthy d then Some (firstLine d) else None
  | None => None
  end.

(** A documentation cut after its first line, unless that line is
    empty. *)
Definition docHead (doc : option string) : option string :=
  match doc with
  | Some d => if Js.truthy (firstLine d) then Some (firstLine d) else Some d
  | None => None
  end.

(** A Summary Model with other documentation: [declared] rewrites the
    documentation of the constants, type aliases, structs, enums, traits
    and functions of the file, [inner] that of the fields and of the
    methods; the purpose stays. *)
Section WithDocs.
Variables (declared inner : option string -> option string).

Definition functionWithDoc (g : option string -> option string) (f : FunctionSummary.t)
  : FunctionSummary.t :=
  {| FunctionSummary.name := FunctionSummary.name f;
     FunctionSummary.doc := g (FunctionSummary.doc f);
     FunctionSummary.signature := FunctionSummary.signature f;
     FunctionSummary.isUnsafe := FunctionSummary.isUnsafe f;
     FunctionSummary.isAsync := FunctionSummary.isAsync f;
     FunctionSummary.isPublic := FunctionSummary.isPublic f |}.

Definition fieldWithDoc (f : FieldSummary.t) : FieldSummary.t :=
  {| FieldSummary.name := FieldSummary.name f;
     FieldSummary.type := FieldSummary.type f;
     FieldSummary.doc := inner (FieldSummary.doc f);
     FieldSummary.isPublic := FieldSummary.isPublic f |}.

Definition structWithDocs (st : StructSummary.t) : StructSummary.t :=
  {| StructSummary.name := StructSummary.name st;
     StructSummary.doc := declared (StructSummary.doc st);
     StructSummary.generics := StructSummary.generics st;
     StructSummary.fields := map fieldWithDoc (StructSummary.fields st);
     StructSummary.methods := map (functionWithDoc inner) (StructSummary.methods st);
     StructSummary.derives := StructSummary.derives st |}.

Definition traitWithDocs (t : TraitSummary.t) : TraitSummary.t :=
  {| TraitSummary.name := TraitSummary.name t;
     TraitSummary.doc := declared (TraitSummary.doc t);
     TraitSummary.generics := TraitSummary.generics t;
     TraitSummary.bounds := TraitSummary.bounds t;
     TraitSummary.methods := map (functionWithDoc inner) (TraitSummary.methods t) |}.

Definition enumWithDoc (e : EnumSummary.t) : EnumSummary.t :=
  {| EnumSummary.name := EnumSummary.name e;
     EnumSummary.doc := declared (EnumSummary.doc e);
     EnumSummary.generics := EnumSummary.generics e;
     EnumSummary.variants := EnumSummary.variants e;
     EnumSummary.derives := EnumSummary.derives e |}.

Definition aliasWithDoc (a : TypeAliasSummary.t) : TypeAliasSummary.t :=
  {| TypeAliasSummary.name := TypeAliasSummary.name a;
     TypeAliasSummary.doc := declared (TypeAliasSummary.doc a);
     TypeAliasSummary.definition := TypeAliasSummary.definition a |}.

Definition constantWithDoc (c : ConstantSummary.t) : ConstantSummary.t :=
  {| ConstantSummary.name := ConstantSummary.name c;
     ConstantSummary.doc := declared (ConstantSummary.doc c);
     ConstantSummary.type := ConstantSummary.type c;
     ConstantSummary.isStatic := ConstantSummary.isStatic c |}.

Definition withDocs (m : FileSummary) : FileSummary :=
  {| purpose := purpose m;
     structs := map structWithDocs (structs m);
     traits := map traitWithDocs (traits m);
     enums := map enumWithDoc (enums m);
     functions := map (functionWithDoc declared) (functions m);
     typeAliases := map aliasWithDoc (typeAliases m);
     constants := map constantWithDoc (constants m);
     reexports := reexports m |}.

End WithDocs.

(** A Summary Model whose purpose and whose documentation have more
    than one line. *)
Definition documented : FileSummary :=
  {| purpose := Some ("Pointers." +:+ newline +:+ "Use with care.");
     structs :=
       [{| StructSummary.name := "Ptr";
           StructSummary.doc := Some ("A pointer" +:+ newline +:+ "that owns.");
           StructSummary.generics := "<T>";
           StructSummary.fields :=
             [{| FieldSummary.name := "raw"; FieldSummary.type := "*mut T";
                 FieldSummary.doc := Some "The address"; FieldSummary.isPublic := true |}];
           StructSummary.methods :=
             [{| FunctionSummary.name := "new"; FunctionSummary.doc := Some "Wraps.";
                 FunctionSummary.signature := "pub fn new(raw: *mut T) -> Self";
                 FunctionSummary.isUnsafe := false; FunctionSummary.isAsync := false;
                 FunctionSummary.isPublic := true |}];
           StructSummary.derives := [] |}];
     traits := []; enums := [];
     functions :=
       [{| FunctionSummary.name := "null";
           FunctionSummary.doc := Some ("The null pointer." +:+ newline +:+ newline
                                        +:+ "Never dereferenced.");
           FunctionSummary.signature := "pub fn null() -> Ptr<()>";
           FunctionSummary.isUnsafe := false; FunctionSummary.isAsync := false;
           FunctionSummary.isPublic := true |}];
     typeAliases := []; constants := []; reexports := [] |}.


(** ** The syntax trees of tree-sitter

    A node as the extractors use it: its type, whether it is named, the
    name of the field it fills in its parent, the span of the source it
    covers, its text, and its children.  A node comes with the siblings
    before it, which is what [previousNamedSibling] walks. *)

Module Syntax.

#[warnings="-register-all"] Inductive Node :=
| node (type : string) (isNamed : bool) (fieldName : option string)
       (startIndex endIndex : nat) (text : string) (children : list Node).

Definition type (n : Node) : string := let 'node t _ _ _ _ _ _ := n in t.
Definition isNamed (n : Node) : bool := let 'node _ b _ _ _ _ _ := n in b.
Definition fieldName (n : Node) : option string := let 'node _ _ f _ _ _ _ := n in f.
Definition startIndex (n : Node) : nat := let 'node _ _ _ i _ _ _ := n in i.
Definition endIndex (n : Node) : nat := let 'node _ _ _ _ i _ _ := n in i.
Definition text (n : Node) : string := let 'node _ _ _ _ _ t _ := n in t.
Definition children (n : Node) : list Node := let 'node _ _ _ _ _ _ c := n in c.

(** [node.childForFieldName(name)]: the first child in that field. *)
Definition childForFieldName (n : Node) (name : string) : option Node :=
  find (fun c => bool_decide (fieldName c = Some name)) (children n).

(** [node.children.find((c) => c.type === type)]. *)
Definition childOfType (n : Node) (t : string) : option Node :=
  find (fun c => bool_decide (type c = t)) (children n).

(** A node in its place: the siblings before it, in the order of the
    source, and the node. *)
Record Located := { before : list Node; this : Node }.

Fixpoint locate (seen : list Node) (l : list Node) : list Located :=
  match l with
  | [] => []
  | n :: rest => {| before := seen; this := n |} :: locate (seen ++ [n]) rest
  end.

(** [node.namedChildren], each child in its place. *)
Definition namedChildren (n : Node) : list Located :=
  filter (fun c => isNamed (this c) = true) (locate [] (children n)).

(** [node.previousNamedSibling], then its [previousNamedSibling], and so
    on to the first child of the parent. *)
Definition previousNamedSiblings (n : Located) : list Node :=
  reverse (filter (fun c => isNamed c = true) (before n)).

End Syntax.

(** ** Strings and regular expressions of the extractors *)

Module Text.

(** [s.slice(a, b)] for [0 <= a] and [0 <= b]. *)
Definition slice (s : string) (a b : nat) : string := String.substring a (b - a) s.

(** [source.slice(node.startIndex, node.endIndex)]. *)
Definition span (source : string) (n : Syntax.Node) : string :=
  slice source (Syntax.startIndex n) (Syntax.endIndex n).

(** [\s?] at the start of a string. *)
Definition dropSpace (s : string) : string :=
  match s with
  | String c rest => if Js.isWhiteSpace c then rest else s
  | EmptyString => s
  end.

(** [text.replace(/^\/\/[\/!]\s?/, '')]. *)
Definition stripLineDoc (text : string) : string :=
  if Js.startsWith "///" text || Js.startsWith "//!" text
  then dropSpace (Js.sliceFrom 3 text) else text.

(** [text.replace(/^\/\/!\s?/, '')]. *)
Definition stripInnerLineDoc (text : string) : string :=
  if Js.startsWith "//!" text then dropSpace (Js.sliceFrom 3 text) else text.

(** [text.replace(/^\/\*[*!]\s?/, '')]. *)
Definition stripBlockStart (text : string) : string :=
  if Js.startsWith "/**" text || Js.startsWith "/*!" text
  then dropSpace (Js.sliceFrom 3 text) else text.

(** [text.replace(/^\/\*!\s?/, '')]. *)
Definition stripInnerBlockStart (text : string) : string :=
  if Js.startsWith "/*!" text then dropSpace (Js.sliceFrom 3 text) else text.

(** [text.replace(/\*\/$/, '')]: the two code units at the end of the
    text. *)
Fixpoint stripBlockEnd (text : string) : string :=
  match text with
  | EmptyString => EmptyString
  | String c rest =>
      if decide (text = "*/") then EmptyString else String c (stripBlockEnd rest)
  end.

(** [line.replace(/^\s*\*\s?/, '')]: the white space at the start of
    the line must be followed by a star. *)
Definition stripStar (line : string) : string :=
  match Js.trimStart line with
  | String c rest => if decide (c = "*"%char) then dropSpace rest else line
  | EmptyString => line
  end.

(** The lines of a block comment once its opening is removed:
    [.replace(/\*\/$/, '').split('\n').map(...).join('\n').trim()]. *)
Definition blockLines (opened : string) : string :=
  Js.trim (Js.join newline (map stripStar (Js.split (stripBlockEnd opened) newline))).

(** The longest prefix without the code unit [c], and what follows. *)
Fixpoint upTo (c : ascii) (s : string) : string * string :=
  match s with
  | EmptyString => (EmptyString, EmptyString)
  | String x rest =>
      if decide (x = c) then (EmptyString, s)
      else let '(taken, others) := upTo c rest in (String x taken, others)
  end.

(** A match of [/#\[derive\(([^)]+)\)\]/] at the start of [s]: the
    group takes every code unit up to the first closing parenthesis. *)
Definition deriveHere (s : string) : option string :=
  if Js.startsWith "#[derive(" s then
    let '(group, others) := upTo ")" (Js.sliceFrom 9 s) in
    if Js.truthy group && Js.startsWith ")]" others then Some group else None
  else None.

(** [text.match(/#\[derive\(([^)]+)\)\]/)]: the group of the leftmost
    match. *)
Fixpoint deriveMatch (text : string) : option string :=
  match deriveHere text with
  | Some group => Some group
  | None =>
      match text with
      | EmptyString => None
      | String _ rest => deriveMatch rest
      end
  end.

(** [text.replace(/^:\s*/, '')]. *)
Definition stripColon (text : string) : string :=
  match text with
  | String c rest => if decide (c = ":"%char) then Js.trimStart rest else text
  | EmptyString => text
  end.

(** [parts[parts.length - 1] += s]. *)
Definition appendToLast (parts : list string) (s : string) : list string :=
  match reverse parts with
  | [] => parts
  | lastPart :: front => reverse front ++ [lastPart +:+ s]
  end.

End Text.

(** ** The extractor of [parsers/rust.ts]

    The functions of the extractor, on the syntax tree that
    [parser.parse(source)] returns. *)

Module RustParser.

(** The loop of [extractDocComment]: walk backwards through the
    comments before a node. *)
Fixpoint docLoop (source : string) (siblings : list Syntax.Node) (comments : list string)
  : list string :=
  match siblings with
  | [] => comments
  | sibling :: rest =>
      if decide (Syntax.type sibling = "line_comment") then
        let text := Text.span source sibling in
        if Js.startsWith "///" text || Js.startsWith "//!" text then
          docLoop source rest (Text.stripLineDoc text :: comments)
        else comments
      else if decide (Syntax.type sibling = "block_comment") then
        let text := Text.span source sibling in
        if Js.startsWith "/**" text || Js.startsWith "/*!" text then
          Text.blockLines (Text.stripBlockStart text) :: comments
        else comments
      else comments
  end.

(** Extract doc comments from a node's preceding siblings. *)
Definition extractDocComment (n : Syntax.Located) (source : string) : option string :=
  match docLoop source (Syntax.previousNamedSiblings n) [] with
  | [] => None
  | comments => Some (Js.join newline comments)
  end.

(** The loop of [extractModuleDoc] over the children of the root. *)
Fixpoint moduleDocLoop (source : string) (children : list Syntax.Node)
    (comments : list string) : list string :=
  match children with
  | [] => comments
  | child :: rest =>
      if decide (Syntax.type child = "line_comment") then
        let text := Text.span source child in
        if Js.startsWith "//!" text then
          moduleDocLoop source rest (comments ++ [Text.stripInnerLineDoc text])
        else moduleDocLoop source rest comments
      else if decide (Syntax.type child = "block_comment") then
        let text := Text.span source child in
        if Js.startsWith "/*!" text then
          moduleDocLoop source rest
            (comments ++ [Text.blockLines (Text.stripInnerBlockStart text)])
        else moduleDocLoop source rest comments
      else if negb (bool_decide (Syntax.type child = "use_declaration"))
              && negb (bool_decide (Syntax.type child = "attribute_item"))
              && negb (Js.includes (Syntax.type child) "comment") then
        comments
      else moduleDocLoop source rest comments
  end.

(** Extract module-level doc comments. *)
Definition extractModuleDoc (root : Syntax.Node) (source : string) : option string :=
  match moduleDocLoop source (Syntax.children root) [] with
  | [] => None
  | comments => Some (Js.join newline comments)
  end.

(** Check if a node has pub visibility. *)
Definition isPublic (n : Syntax.Node) : bool :=
  match Syntax.childOfType n "visibility_modifier" with
  | Some child =>
      bool_decide (Syntax.text child = "pub") || Js.startsWith "pub(" (Syntax.text child)
  | None => false
  end.

(** Get the visibility text if public. *)
Definition getVisibility (n : Syntax.Node) : string :=
  match Syntax.childOfType n "visibility_modifier" with
  | Some child => Syntax.text child
  | None => ""
  end.

(** Extract generics from a node. *)
Definition extractGenerics (n : Syntax.Node) (source : string) : string :=
  match Syntax.childForFieldName n "type_parameters" with
  | Some typeParams => Text.span source typeParams
  | None => ""
  end.

(** The loop of [extractDerives] over the attributes before a node. *)
Fixpoint derivesLoop (source : string) (siblings : list Syntax.Node) (derives : list string)
  : list string :=
  match siblings with
  | [] => derives
  | sibling :: rest =>
      if decide (Syntax.type sibling = "attribute_item") then
        match Text.deriveMatch (Text.span source sibling) with
        | Some group =>
            derivesLoop source rest (derives ++ map Js.trim (Js.split group ","))
        | None => derivesLoop source rest derives
        end
      else derives
  end.

(** Extract derive macros from attributes. *)
Definition extractDerives (n : Syntax.Located) (source : string) : list string :=
  derivesLoop source (Syntax.previousNamedSiblings n) [].

(** [node.childForFieldName('name')?.text], when it is a non-empty
    string. *)
Definition nameOf (n : Syntax.Node) : option string :=
  match Syntax.childForFieldName n "name" with
  | Some child => if Js.truthy (Syntax.text child) then Some (Syntax.text child) else None
  | None => None
  end.

(** Parse a function signature. *)
Definition parseFunctionSignature (n : Syntax.Located) (source : string)
  : option FunctionSummary.t :=
  let node := Syntax.this n in
  match nameOf node with
  | None => None
  | Some name =>
      let pub := isPublic node in
      let doc := extractDocComment n source in
      let isUnsafe :=
        existsb (fun c => bool_decide (Syntax.text c = "unsafe")) (Syntax.children node) in
      let isAsync :=
        existsb (fun c => bool_decide (Syntax.text c = "async")) (Syntax.children node) in
      let parts := if pub then [getVisibility node] else [] in
      let parts := if isUnsafe then parts ++ ["unsafe"] else parts in
      let parts := if isAsync then parts ++ ["async"] else parts in
      let parts := parts ++ ["fn"] in
      let parts := parts ++ [name] in
      let generics := extractGenerics node source in
      let parts := if Js.truthy generics then Text.appendToLast parts generics else parts in
      let parts :=
        match Syntax.childForFieldName node "parameters" with
        | Some params => Text.appendToLast parts (Text.span source params)
        | None => parts
        end in
      let parts :=
        match Syntax.childForFieldName node "return_type" with
        | Some returnType => parts ++ ["->"] ++ [Text.span source returnType]
        | None => parts
        end in
      let parts :=
        match Syntax.childOfType node "where_clause" with
        | Some whereClause => parts ++ [Text.span source whereClause]
        | None => parts
        end in
      Some {| FunctionSummary.name := name;
              FunctionSummary.doc := doc;
              FunctionSummary.signature := Js.join " " parts;
              FunctionSummary.isUnsafe := isUnsafe;
              FunctionSummary.isAsync := isAsync;
              FunctionSummary.isPublic := pub |}
  end.

(** The body of the loop of [parseStructFields]. *)
Definition fieldOf (source : string) (child : Syntax.Located) : list FieldSummary.t :=
  if decide (Syntax.type (Syntax.this child) = "field_declaration") then
    match nameOf (Syntax.this child), Syntax.childForFieldName (Syntax.this child) "type" with
    | Some name, Some type =>
        [{| FieldSummary.name := name;
            FieldSummary.type := Text.span source type;
            FieldSummary.doc := extractDocComment child source;
            FieldSummary.isPublic := isPublic (Syntax.this child) |}]
    | _, _ => []
    end
  else [].

(** Parse struct fields. *)
Definition parseStructFields (n : Syntax.Located) (source : string) : list FieldSummary.t :=
  match Syntax.childOfType (Syntax.this n) "field_declaration_list" with
  | None => []
  | Some fieldList => concat (map (fieldOf source) (Syntax.namedChildren fieldList))
  end.

(** Parse a struct definition. *)
Definition parseStruct (n : Syntax.Located) (source : string) : option StructSummary.t :=
  match nameOf (Syntax.this n) with
  | None => None
  | Some name =>
      Some {| StructSummary.name := name;
              StructSummary.doc := extractDocComment n source;
              StructSummary.generics := extractGenerics (Syntax.this n) source;
              StructSummary.fields := parseStructFields n source;
              StructSummary.methods := [];
              StructSummary.derives := extractDerives n source |}
  end.

(** The body of the loop of [parseEnumVariants]. *)
Definition variantOf (source : string) (child : Syntax.Located) : list string :=
  if decide (Syntax.type (Syntax.this child) = "enum_variant") then
    match nameOf (Syntax.this child) with
    | Some name =>
        match find (fun c => bool_decide (Syntax.type c = "field_declaration_list")
                             || bool_decide (Syntax.type c = "ordered_field_declaration_list"))
                (Syntax.children (Syntax.this child)) with
        | Some fields => [name +:+ Text.span source fields]
        | None => [name]
        end
    | None => []
    end
  else [].

(** Parse enum variants. *)
Definition parseEnumVariants (n : Syntax.Located) (source : string) : list string :=
  match Syntax.childOfType (Syntax.this n) "enum_variant_list" with
  | None => []
  | Some body => concat (map (variantOf source) (Syntax.namedChildren body))
  end.

(** Parse an enum definition. *)
Definition parseEnum (n : Syntax.Located) (source : string) : option EnumSummary.t :=
  match nameOf (Syntax.this n) with
  | None => None
  | Some name =>
      Some {| EnumSummary.name := name;
              EnumSummary.doc := extractDocComment n source;
              EnumSummary.generics := extractGenerics (Syntax.this n) source;
              EnumSummary.variants := parseEnumVariants n source;
              EnumSummary.derives := extractDerives n source |}
  end.

(** The body of the loop of [parseTrait] over the declarations. *)
Definition traitMethodOf (source : string) (child : Syntax.Located)
  : list FunctionSummary.t :=
  if bool_decide (Syntax.type (Syntax.this child) = "function_item")
     || bool_decide (Syntax.type (Syntax.this child) = "function_signature_item") then
    match parseFunctionSignature child source with
    | Some fn => [fn]
    | None => []
    end
  else [].

(** Parse a trait definition. *)
Definition parseTrait (n : Syntax.Located) (source : string) : option TraitSummary.t :=
  match nameOf (Syntax.this n) with
  | None => None
  | Some name =>
      let methods :=
        match Syntax.childOfType (Syntax.this n) "declaration_list" with
        | Some body => concat (map (traitMethodOf source) (Syntax.namedChildren body))
        | None => []
        end in
      let bounds :=
        match Syntax.childOfType (Syntax.this n) "trait_bounds" with
        | Some boundsNode => Text.stripColon (Text.span source boundsNode)
        | None => ""
        end in
      Some {| TraitSummary.name := name;
              TraitSummary.doc := extractDocComment n source;
              TraitSummary.generics := extractGenerics (Syntax.this n) source;
              TraitSummary.bounds := bounds;
              TraitSummary.methods := methods |}
  end.

(** Parse a type alias. *)
Definition parseTypeAlias (n : Syntax.Located) (source : string)
  : option TypeAliasSummary.t :=
  match nameOf (Syntax.this n), Syntax.childForFieldName (Syntax.this n) "type" with
  | Some name, Some type =>
      let generics := extractGenerics (Syntax.this n) source in
      Some {| TypeAliasSummary.name := name;
              TypeAliasSummary.doc := extractDocComment n source;
              TypeAliasSummary.definition :=
                "type " +:+ name +:+ generics +:+ " = " +:+ Text.span source type +:+ ";" |}
  | _, _ => None
  end.

(** Parse a const or static item. *)
Definition parseConstant (n : Syntax.Located) (source : string) (isStatic : bool)
  : option ConstantSummary.t :=
  match nameOf (Syntax.this n), Syntax.childForFieldName (Syntax.this n) "type" with
  | Some name, Some type =>
      Some {| ConstantSummary.name := name;
              ConstantSummary.doc := extractDocComment n source;
              ConstantSummary.type := Text.span source type;
              ConstantSummary.isStatic := isStatic |}
  | _, _ => None
  end.

(** [struct.methods.push(fn)]. *)
Definition pushMethod (fn : FunctionSummary.t) (st : StructSummary.t) : StructSummary.t :=
  {| StructSummary.name := StructSummary.name st;
     StructSummary.doc := StructSummary.doc st;
     StructSummary.generics := StructSummary.generics st;
     StructSummary.fields := StructSummary.fields st;
     StructSummary.methods := StructSummary.methods st ++ [fn];
     StructSummary.derives := StructSummary.derives st |}.

(** The body of the loop of [parseImplBlock]: the struct is the object
    that [structMap] holds, which is the one at index [i] of
    [summary.structs]. *)
Definition implMethod (source : string) (i : nat) (structs : list StructSummary.t)
    (child : Syntax.Located) : list StructSummary.t :=
  if decide (Syntax.type (Syntax.this child) = "function_item") then
    match parseFunctionSignature child source with
    | Some fn => if FunctionSummary.isPublic fn then alter (pushMethod fn) i structs
                 else structs
    | None => structs
    end
  else structs.

(** Parse an impl block and add methods to the appropriate struct. *)
Definition parseImplBlock (n : Syntax.Located) (source : string)
    (structMap : list (string * nat)) (structs : list StructSummary.t)
  : list StructSummary.t :=
  match Syntax.childForFieldName (Syntax.this n) "type" with
  | None => structs
  | Some type =>
      match Syntax.childForFieldName (Syntax.this n) "trait" with
      | Some _ => structs
      | None =>
          match Js.split (Syntax.text type) "<" with
          | [] => structs
          | typeName :: _ =>
              match JsMap.get typeName structMap with
              | None => structs
              | Some i =>
                  match Syntax.childOfType (Syntax.this n) "declaration_list" with
                  | None => structs
                  | Some body =>
                      fold_left (implMethod source i) (Syntax.namedChildren body) structs
                  end
              end
          end
      end
  end.

(** Parse a use declaration for re-exports. *)
Definition parseReexport (n : Syntax.Located) (source : string) : option string :=
  if negb (isPublic (Syntax.this n)) then None
  else Some (Text.span source (Syntax.this n)).

(** The summary under construction, and [structMap]: the struct of a
    name is the object pushed last under that name, given by its index
    in [structs]. *)
Record Collected := {
  summary : FileSummary;
  structMap : list (string * nat)
}.

Definition withStructs (s : FileSummary) (l : list StructSummary.t) : FileSummary :=
  {| purpose := purpose s; structs := l; traits := traits s; enums := enums s;
     functions := functions s; typeAliases := typeAliases s; constants := constants s;
     reexports := reexports s |}.

Definition withTraits (s : FileSummary) (l : list TraitSummary.t) : FileSummary :=
  {| purpose := purpose s; structs := structs s; traits := l; enums := enums s;
     functions := functions s; typeAliases := typeAliases s; constants := constants s;
     reexports := reexports s |}.

Definition withEnums (s : FileSummary) (l : list EnumSummary.t) : FileSummary :=
  {| purpose := purpose s; structs := structs s; traits := traits s; enums := l;
     functions := functions s; typeAliases := typeAliases s; constants := constants s;
     reexports := reexports s |}.

Definition withFunctions (s : FileSummary) (l : list FunctionSummary.t) : FileSummary :=
  {| purpose := purpose s; structs := structs s; traits := traits s; enums := enums s;
     functions := l; typeAliases := typeAliases s; constants := constants s;
     reexports := reexports s |}.

Definition withTypeAliases (s : FileSummary) (l : list TypeAliasSummary.t) : FileSummary :=
  {| purpose := purpose s; structs := structs s; traits := traits s; enums := enums s;
     functions := functions s; typeAliases := l; constants := constants s;
     reexports := reexports s |}.

Definition withConstants (s : FileSummary) (l : list ConstantSummary.t) : FileSummary :=
  {| purpose := purpose s; structs := structs s; traits := traits s; enums := enums s;
     functions := functions s; typeAliases := typeAliases s; constants := l;
     reexports := reexports s |}.

Definition withReexports (s : FileSummary) (l : list string) : FileSummary :=
  {| purpose := purpose s; structs := structs s; traits := traits s; enums := enums s;
     functions := functions s; typeAliases := typeAliases s; constants := constants s;
     reexports := l |}.

Definition keep (c : Collected) (s : FileSummary) : Collected :=
  {| summary := s; structMap := structMap c |}.

(** The body of the first loop of [parseRust]: the [switch] on the
    type of a child of the root. *)
Definition collectItem (source : string) (c : Collected) (n : Syntax.Located) : Collected :=
  let node := Syntax.this n in
  let s := summary c in
  if decide (Syntax.type node = "struct_item") then
    if isPublic node then
      match parseStruct n source with
      | Some struct =>
          {| summary := withStructs s (structs s ++ [struct]);
             structMap := JsMap.set (StructSummary.name struct) (length (structs s))
                            (structMap c) |}
      | None => c
      end
    else c
  else if decide (Syntax.type node = "enum_item") then
    if isPublic node then
      match parseEnum n source with
      | Some enumDef => keep c (withEnums s (enums s ++ [enumDef]))
      | None => c
      end
    else c
  else if decide (Syntax.type node = "trait_item") then
    if isPublic node then
      match parseTrait n source with
      | Some trait => keep c (withTraits s (traits s ++ [trait]))
      | None => c
      end
    else c
  else if decide (Syntax.type node = "function_item") then
    if isPublic node then
      match parseFunctionSignature n source with
      | Some fn => keep c (withFunctions s (functions s ++ [fn]))
      | None => c
      end
    else c
  else if decide (Syntax.type node = "type_item") then
    if isPublic node then
      match parseTypeAlias n source with
      | Some alias => keep c (withTypeAliases s (typeAliases s ++ [alias]))
      | None => c
      end
    else c
  else if decide (Syntax.type node = "const_item") then
    if isPublic node then
      match parseConstant n source false with
      | Some constant => keep c (withConstants s (constants s ++ [constant]))
      | None => c
      end
    else c
  else if decide (Syntax.type node = "static_item") then
    if isPublic node then
      match parseConstant n source true with
      | Some staticItem => keep c (withConstants s (constants s ++ [staticItem]))
      | None => c
      end
    else c
  else if decide (Syntax.type node = "use_declaration") then
    match parseReexport n source with
    | Some reexport =>
        if Js.truthy reexport then keep c (withReexports s (reexports s ++ [reexport]))
        else c
    | None => c
    end
  else c.

(** The body of the second loop of [parseRust]. *)
Definition collectImpl (source : string) (c : Collected) (n : Syntax.Located) : Collected :=
  if decide (Syntax.type (Syntax.this n) = "impl_item") then
    keep c (withStructs (summary c)
              (parseImplBlock n source (structMap c) (structs (summary c))))
  else c.

Definition emptySummary (root : Syntax.Node) (source : string) : Collected :=
  {| summary := {| purpose := extractModuleDoc root source; structs := []; traits := [];
                   enums := []; functions := []; typeAliases := []; constants := [];
                   reexports := [] |};
     structMap := [] |}.

Definition firstPass (root : Syntax.Node) (source : string) : Collected :=
  fold_left (collectItem source) (Syntax.namedChildren root) (emptySummary root source).

(** The summary that [parseRust] builds from the tree of the source:
    first all items except impl blocks, then the impl blocks. *)
Definition extract (root : Syntax.Node) (source : string) : FileSummary :=
  summary (fold_left (collectImpl source) (Syntax.namedChildren root)
             (firstPass root source)).

(** [parseRust], given [parser.parse]: a failure of the parser is
    caught and reported. *)
Definition parseRustWith (parse : string -> string + Syntax.Node) (source : string)
  : ParseOutcome :=
  match parse source with
  | inr root =>
      let summary := extract root source in
      ParseResult summary (Rust.formatSummary summary)
  | inl message => ParseError message
  end.

End RustParser.


(** ** Vocabulary of the statements about the extractor *)


(** A node with other children. *)
Definition withChildren (n : Syntax.Node) (l : list Syntax.Node) : Syntax.Node :=
  Syntax.node (Syntax.type n) (Syntax.isNamed n) (Syntax.fieldName n)
    (Syntax.startIndex n) (Syntax.endIndex n) (Syntax.text n) l.

(** A child of the root at which the loop of [extractModuleDoc]
    stops. *)
Definition endsModuleDoc (c : Syntax.Node) : Prop :=
  Syntax.type c <> "line_comment" /\ Syntax.type c <> "block_comment" /\
  Syntax.type c <> "use_declaration" /\ Syntax.type c <> "attribute_item" /\
  Js.includes (Syntax.type c) "comment" = false.

(** The name of a child of the root when it is an item of the type
    [itemType] with pub visibility and a name. *)
Definition publicItemName (itemType : string) (n : Syntax.Located) : option string :=
  if decide (Syntax.type (Syntax.this n) = itemType) then
    if RustParser.isPublic (Syntax.this n) then RustParser.nameOf (Syntax.this n) else None
  else None.

(** A function as the summary of a public interface lists it: flagged
    as public, with a signature that starts with [pub]. *)
Definition listedAsPublic (fn : FunctionSummary.t) : Prop :=
  FunctionSummary.isPublic fn = true /\
  Js.startsWith "pub" (FunctionSummary.signature fn) = true.

(** The places of a name in a list of names: [i] is the last one. *)
Definition lastNamed (names : list string) (name : string) (i : nat) : Prop :=
  names !! i = Some name /\ forall j, names !! j = Some name -> j <= i.


(** The parts of a signature once [fn] is pushed: the first one, and at
    least one more. *)
Definition headed (v : string) (parts : list string) : Prop :=
  exists tail, parts = v :: tail /\ tail <> [].

(** What the first loop keeps: [structMap] gives, for a name, the last
    struct of that name, and no struct has a method yet. *)
Definition collected (c : RustParser.Collected) : Prop :=
  (forall name i,
     JsMap.get name (RustParser.structMap c) = Some i ->
     lastNamed (map StructSummary.name (structs (RustParser.summary c))) name i) /\
  Forall (fun st => StructSummary.methods st = []) (structs (RustParser.summary c)).

(** What the second loop keeps: a struct with a method is the last one
    of its name. *)
Definition attached (l : list StructSummary.t) : Prop :=
  forall i st,
    l !! i = Some st -> StructSummary.methods st <> [] ->
    lastNamed (map StructSummary.name l) (StructSummary.name st) i.

(** ** Syntax trees for the examples *)

Module RustExample.

Definition leaf (source type : string) (isNamed : bool) (fieldName : option string)
    (startIndex endIndex : nat) : Syntax.Node :=
  Syntax.node type isNamed fieldName startIndex endIndex
    (Text.slice source startIndex endIndex) [].

Definition branch (source type : string) (fieldName : option string)
    (startIndex endIndex : nat) (children : list Syntax.Node) : Syntax.Node :=
  Syntax.node type true fieldName startIndex endIndex
    (Text.slice source startIndex endIndex) children.

(** A documented public function. *)
Definition addSource : string :=
  "/// Adds." +:+ newline +:+ "pub fn add(a: i32) -> i32 {}".

Definition addComment : Syntax.Node := leaf addSource "line_comment" true None 0 9.

Definition addFunction : Syntax.Node :=
  branch addSource "function_item" None 10 38
    [leaf addSource "visibility_modifier" true None 10 13;
     leaf addSource "fn" false None 14 16;
     leaf addSource "identifier" true (Some "name") 17 20;
     leaf addSource "parameters" true (Some "parameters") 20 28;
     leaf addSource "->" false None 29 31;
     leaf addSource "primitive_type" true (Some "return_type") 32 35;
     leaf addSource "block" true (Some "body") 36 38].

Definition addTree : Syntax.Node :=
  branch addSource "source_file" None 0 38 [addComment; addFunction].

(** A private function. *)
Definition hiddenSource : string := "fn hidden() {}".

Definition hiddenTree : Syntax.Node :=
  branch hiddenSource "source_file" None 0 14
    [branch hiddenSource "function_item" None 0 14
       [leaf hiddenSource "fn" false None 0 2;
        leaf hiddenSource "identifier" true (Some "name") 3 9;
        leaf hiddenSource "parameters" true (Some "parameters") 9 11;
        leaf hiddenSource "block" true (Some "body") 12 14]].

(** Two public structs of one name, and an impl block of that name. *)
Definition twiceSource : string :=
  "pub struct P;" +:+ newline +:+ "pub struct P;" +:+ newline
  +:+ "impl P { pub fn new() {} }".

Definition twiceTree : Syntax.Node :=
  branch twiceSource "source_file" None 0 54
    [branch twiceSource "struct_item" None 0 13
       [leaf twiceSource "visibility_modifier" true None 0 3;
        leaf twiceSource "struct" false None 4 10;
        leaf twiceSource "type_identifier" true (Some "name") 11 12;
        leaf twiceSource ";" false None 12 13];
     branch twiceSource "struct_item" None 14 27
       [leaf twiceSource "visibility_modifier" true None 14 17;
        leaf twiceSource "struct" false None 18 24;
        leaf twiceSource "type_identifier" true (Some "name") 25 26;
        leaf twiceSource ";" false None 26 27];
     branch twiceSource "impl_item" None 28 54
       [leaf twiceSource "impl" false None 28 32;
        leaf twiceSource "type_identifier" true (Some "type") 33 34;
        branch twiceSource "declaration_list" (Some "body") 35 54
          [leaf twiceSource "{" false None 35 36;
           branch twiceSource "function_item" None 37 52
             [leaf twiceSource "visibility_modifier" true None 37 40;
              leaf twiceSource "fn" false None 41 43;
              leaf twiceSource "identifier" true (Some "name") 44 47;
              leaf twiceSource "parameters" true (Some "parameters") 47 49;
              leaf twiceSource "block" true (Some "body") 50 52];
           leaf twiceSource "}" false None 53 54]]].

(** The two structs that [twiceTree] gives. *)
Definition firstP : StructSummary.t :=
  {| StructSummary.name := "P"; StructSummary.doc := None; StructSummary.generics := "";
     StructSummary.fields := []; StructSummary.methods := []; StructSummary.derives := [] |}.

Definition secondP : StructSummary.t :=
  {| StructSummary.name := "P"; StructSummary.doc := None; StructSummary.generics := "";
     StructSummary.fields := [];
     StructSummary.methods :=
       [{| FunctionSummary.name := "new"; FunctionSummary.doc := None;
           FunctionSummary.signature := "pub fn new()";
           FunctionSummary.isUnsafe := false; FunctionSummary.isAsync := false;
           FunctionSummary.isPublic := true |}];
     StructSummary.derives := [] |}.


End RustExample.


(** * Properties *)

(** ** The digest

    The test vectors of FIPS 180-4 for the empty message, for [abc] and
    for the 56-byte message that needs two blocks, and the digest of the
    two-byte encoding of a code unit above 127. *)

Lemma sha256_test_vectors :
  Sha256.hex (Js.utf8 "")
  = "e3b0c44298fc1c149afbf4c8996fb92427ae41e4649b934ca495991b7852b855" /\
  Sha256.hex (Js.utf8 "abc")
  = "ba7816bf8f01cfea414140de5dae2223b00361a396177a9cb410ff61f20015ad" /\
  Sha256.hex (Js.utf8 "abcdbcdecdefdefgefghfghighijhijkijkljklmklmnlmnomnopnopq")
  = "248d6a61d20638b8e5c026930c3e6039a33ce45964ff2167f6ecedd419db06c1" /\
  Sha256.hex (Js.utf8 (String (ascii_of_nat 233) EmptyString))
  = "4a99557e4033c3539de2eb65472017cad5f9557f7a0625a09f1c3f6e2ba69c4c".
Proof.
  split; [vm_compute; reflexivity|]. split; [vm_compute; reflexivity|].
  split; vm_compute; reflexivity.
Qed.

(** ** The [Map] *)

Section JsMapFacts.
Context {V : Type}.
Implicit Types (m : list (string * V)) (k : string) (v : V).

Lemma get_set_eq k v m : JsMap.get k (JsMap.set k v m) = Some v.
Proof.
  induction m as [|[k' v'] m IH]; simpl.
  - by rewrite decide_True.
  - destruct (decide (k' = k)) as [->|Hne]; simpl.
    + by rewrite decide_True.
    + by rewrite decide_False.
Qed.

Lemma get_set_ne k k' v m : k <> k' -> JsMap.get k' (JsMap.set k v m) = JsMap.get k' m.
Proof.
  intros Hne. induction m as [|[k0 v0] m IH]; simpl.
  - by rewrite decide_False.
  - destruct (decide (k0 = k)) as [->|Hk]; simpl.
    + by rewrite !decide_False.
    + destruct (decide (k0 = k')); [done | apply IH].
Qed.

Lemma size_set_present k v m :
  JsMap.has k m = true -> JsMap.size (JsMap.set k v m) = JsMap.size m.
Proof.
  unfold JsMap.has, JsMap.size.
  induction m as [|[k' v'] m IH]; simpl; [done|].
  destruct (decide (k' = k)); simpl; [done|].
  intros Hhas. by rewrite IH.
Qed.

Lemma size_set_absent k v m :
  JsMap.has k m = false -> JsMap.size (JsMap.set k v m) = S (JsMap.size m).
Proof.
  unfold JsMap.has, JsMap.size.
  induction m as [|[k' v'] m IH]; simpl; [done|].
  destruct (decide (k' = k)); simpl; [done|].
  intros Hhas. by rewrite IH.
Qed.

Lemma delete_filter k m :
  JsMap.delete k m = filter (fun kv => kv.1 <> k) m.
Proof.
  induction m as [|[k' v'] m IH]; simpl; [done|].
  destruct (decide (k' = k)) as [->|Hne].
  - rewrite filter_cons_False; [done | simpl; auto].
  - rewrite filter_cons_True; [by rewrite IH | done].
Qed.

Lemma get_delete_eq k m : JsMap.get k (JsMap.delete k m) = None.
Proof.
  induction m as [|[k' v'] m IH]; simpl; [done|].
  destruct (decide (k' = k)); simpl; [done|]. by rewrite decide_False.
Qed.

Lemma get_delete_ne k k' m : k <> k' -> JsMap.get k' (JsMap.delete k m) = JsMap.get k' m.
Proof.
  intros Hne. induction m as [|[k0 v0] m IH]; simpl; [done|].
  destruct (decide (k0 = k)) as [->|Hk]; simpl.
  - by rewrite decide_False.
  - destruct (decide (k0 = k')); [done | apply IH].
Qed.

Lemma has_get k m : JsMap.has k m = true <-> is_Some (JsMap.get k m).
Proof.
  unfold JsMap.has. destruct (JsMap.get k m) as [v|]; split; intros Hx;
    eauto; try done; by destruct Hx.
Qed.

Lemma get_elem_of k v m : JsMap.get k m = Some v -> (k, v) ∈ m.
Proof.
  induction m as [|[k' v'] m IH]; simpl; [done|].
  destruct (decide (k' = k)) as [->|Hne].
  - intros [= ->]. left.
  - intros Hget. right. by apply IH.
Qed.

Lemma wf_set k v m : JsMap.wf m -> JsMap.wf (JsMap.set k v m).
Proof.
  unfold JsMap.wf, JsMap.keys.
  induction m as [|[k' v'] m IH]; simpl; intros Hwf.
  - apply NoDup_singleton.
  - apply NoDup_cons in Hwf as [Hnotin Hwf].
    destruct (decide (k' = k)) as [->|Hne]; simpl.
    + by apply NoDup_cons.
    + apply NoDup_cons. split; [|by apply IH].
      intros Hin. apply Hnotin.
      clear -Hin Hne. induction m as [|[k0 v0] m IH]; simpl in *.
      * apply list_elem_of_singleton in Hin. congruence.
      * destruct (decide (k0 = k)) as [->|Hk]; simpl in *.
        -- apply elem_of_cons in Hin as [Heq|Hin]; [congruence | by right].
        -- apply elem_of_cons in Hin as [Heq|Hin]; [subst; left | right; by apply IH].
Qed.

Lemma wf_delete k m : JsMap.wf m -> JsMap.wf (JsMap.delete k m).
Proof.
  unfold JsMap.wf, JsMap.keys. rewrite delete_filter.
  induction m as [|[k' v'] m IH]; simpl; intros Hwf; [done|].
  apply NoDup_cons in Hwf as [Hnotin Hwf].
  destruct (decide (k' <> k)) as [Hne|Heq].
  - rewrite filter_cons_True by done. simpl. apply NoDup_cons. split; [|by apply IH].
    intros Hin. apply Hnotin.
    apply list_elem_of_fmap in Hin as [[k0 v0] [-> Hin]].
    apply list_elem_of_filter in Hin as [_ Hin].
    apply list_elem_of_fmap. by exists (k0, v0).
  - rewrite filter_cons_False by done. by apply IH.
Qed.

End JsMapFacts.

(** ** The eviction loop *)

Section Eviction.
Context `{Host}.
Implicit Types (s : ContextState) (k : string).

Lemma evictOldest_activeFile s : activeFile (evictOldest s) = activeFile s.
Proof.
  unfold evictOldest. destruct (accessOrder s) as [|oldest rest]; [done|].
  by destruct (Js.truthy oldest && _).
Qed.

Lemma evictOldest_config s : config (evictOldest s) = config s.
Proof.
  unfold evictOldest. destruct (accessOrder s) as [|oldest rest]; [done|].
  by destruct (Js.truthy oldest && _).
Qed.

Lemma pinned_evictOldest s k : pinned (evictOldest s) k = pinned s k.
Proof. unfold pinned. by rewrite evictOldest_activeFile. Qed.

(** One iteration leaves the entry of a pinned key alone. *)
Lemma evictOldest_get_pinned s k :
  pinned s k = true ->
  JsMap.get k (summaries (evictOldest s)) = JsMap.get k (summaries s).
Proof.
  intros Hpin. unfold evictOldest.
  destruct (accessOrder s) as [|oldest rest]; [done|].
  destruct (Js.truthy oldest && negb (bool_decide (Some oldest = activeFile s))) eqn:E;
    simpl; [|done].
  apply get_delete_ne. intros ->. unfold pinned in Hpin.
  destruct (Js.truthy k), (bool_decide (Some k = activeFile s)); simpl in *; congruence.
Qed.

(** One iteration does not change the entries it keeps. *)
Lemma evictOldest_get_kept s k v :
  JsMap.get k (summaries (evictOldest s)) = Some v -> JsMap.get k (summaries s) = Some v.
Proof.
  unfold evictOldest. destruct (accessOrder s) as [|oldest rest]; [done|].
  destruct (Js.truthy oldest && _); simpl; [|done].
  destruct (decide (oldest = k)) as [->|Hne].
  - by rewrite get_delete_eq.
  - by rewrite get_delete_ne.
Qed.

Lemma evictOldest_size s :
  JsMap.size (summaries (evictOldest s)) <= JsMap.size (summaries s).
Proof.
  unfold evictOldest. destruct (accessOrder s) as [|oldest rest]; [done|].
  destruct (Js.truthy oldest && _); simpl; [|done].
  rewrite delete_filter. apply length_filter.
Qed.

(** One iteration deletes no entry that is stuck, and makes no entry
    stuck that was not. *)
Lemma evictOldest_stuck s : stuck (evictOldest s) = stuck s.
Proof.
  unfold stuck, evictOldest, unevictable, pinned.
  destruct (accessOrder s) as [|oldest rest] eqn:Horder; [by rewrite Horder|].
  destruct (Js.truthy oldest && negb (bool_decide (Some oldest = activeFile s))) eqn:E;
    simpl.
  - rewrite delete_filter, list_filter_filter. apply list_filter_iff.
    intros [k v]; simpl. rewrite !orb_true_iff, !negb_true_iff, !bool_decide_eq_false.
    rewrite bool_decide_eq_true, elem_of_cons.
    apply andb_true_iff in E as [Ht Ha]. apply negb_true_iff, bool_decide_eq_false in Ha.
    split.
    + intros [[Hp|Hnot] Hne]; [by left | right; intros [?|?]; done].
    + intros [[Ht'|Hact]|Hnot].
      * split; [by left; left|]. intros ->. by rewrite Ht in Ht'.
      * split; [by left; right|]. by intros ->.
      * split; [right; intros ?; apply Hnot; by right|]. intros ->. apply Hnot. by left.
  - apply list_filter_iff. intros [k v]; simpl.
    rewrite !orb_true_iff, !negb_true_iff, !bool_decide_eq_false, bool_decide_eq_true.
    rewrite elem_of_cons.
    split.
    + intros [Hp|Hnot]; [by left|].
      destruct (decide (k = oldest)) as [->|Hne].
      * left. apply andb_false_iff in E as [Ht|Ha].
        -- left. by rewrite Ht.
        -- right. by apply negb_false_iff, bool_decide_eq_true in Ha.
      * right. by intros [?|?].
    + intros [Hp|Hnot]; [by left|]. right. intros ?. apply Hnot. by right.
Qed.

Lemma evictIfNeeded_activeFile fuel s s' :
  evictIfNeeded fuel s = Some s' -> activeFile s' = activeFile s.
Proof.
  revert s. induction fuel as [|fuel IH]; intros s; simpl;
    destruct (overLimit s); try done; try (by intros [= <-]).
  intros Hrun. apply IH in Hrun. by rewrite Hrun, evictOldest_activeFile.
Qed.

Lemma evictIfNeeded_config fuel s s' :
  evictIfNeeded fuel s = Some s' -> config s' = config s.
Proof.
  revert s. induction fuel as [|fuel IH]; intros s; simpl;
    destruct (overLimit s); try done; try (by intros [= <-]).
  intros Hrun. apply IH in Hrun. by rewrite Hrun, evictOldest_config.
Qed.

Lemma evictIfNeeded_get_pinned fuel s s' k :
  evictIfNeeded fuel s = Some s' -> pinned s k = true ->
  JsMap.get k (summaries s') = JsMap.get k (summaries s).
Proof.
  revert s. induction fuel as [|fuel IH]; intros s; simpl;
    destruct (overLimit s); try done; try (by intros [= <-]).
  intros Hrun Hpin. rewrite (IH _ Hrun); [by apply evictOldest_get_pinned|].
  by rewrite pinned_evictOldest.
Qed.

Lemma evictIfNeeded_get_kept fuel s s' k v :
  evictIfNeeded fuel s = Some s' ->
  JsMap.get k (summaries s') = Some v -> JsMap.get k (summaries s) = Some v.
Proof.
  revert s. induction fuel as [|fuel IH]; intros s; simpl;
    destruct (overLimit s); try done; try (by intros [= <-]).
  intros Hrun Hget. eapply evictOldest_get_kept, IH; eauto.
Qed.

(** The loop leaves only when the test fails. *)
Lemma evictIfNeeded_within_limit fuel s s' :
  evictIfNeeded fuel s = Some s' ->
  (Z.of_nat (JsMap.size (summaries s')) <= maxTrackedFiles (config s))%Z.
Proof.
  revert s. induction fuel as [|fuel IH]; intros s; simpl;
    destruct (overLimit s) eqn:Hover; try done.
  - intros [= <-]. unfold overLimit in Hover. apply bool_decide_eq_false in Hover. lia.
  - intros Hrun. apply IH in Hrun. by rewrite evictOldest_config in Hrun.
  - intros [= <-]. unfold overLimit in Hover. apply bool_decide_eq_false in Hover. lia.
Qed.

Lemma evictIfNeeded_stuck fuel s s' :
  evictIfNeeded fuel s = Some s' -> stuck s' = stuck s.
Proof.
  revert s. induction fuel as [|fuel IH]; intros s; simpl;
    destruct (overLimit s); try done; try (by intros [= <-]).
  intros Hrun. apply IH in Hrun. by rewrite Hrun, evictOldest_stuck.
Qed.

(** More fuel does not change a result. *)
Lemma evictIfNeeded_more_fuel fuel fuel' s s' :
  evictIfNeeded fuel s = Some s' -> fuel <= fuel' -> evictIfNeeded fuel' s = Some s'.
Proof.
  revert fuel' s. induction fuel as [|fuel IH]; intros fuel' s; simpl.
  - destruct (overLimit s) eqn:Hover; [done|].
    intros [= <-] _. destruct fuel'; simpl; by rewrite Hover.
  - destruct (overLimit s) eqn:Hover.
    + intros Hrun Hle. destruct fuel' as [|fuel']; [lia|]. simpl. rewrite Hover.
      apply IH; [done | lia].
    + intros [= <-] _. destruct fuel'; simpl; by rewrite Hover.
Qed.

(** When the recency list is empty, every entry is stuck. *)
Lemma stuck_no_order s : accessOrder s = [] -> stuck s = summaries s.
Proof.
  intros Horder. unfold stuck, unevictable. rewrite Horder.
  induction (summaries s) as [|kv m IH]; [done|].
  rewrite filter_cons_True; [by rewrite IH|].
  rewrite orb_true_iff, negb_true_iff, bool_decide_eq_false. right. apply not_elem_of_nil.
Qed.

Lemma evictOldest_order s :
  accessOrder (evictOldest s) = tail (accessOrder s).
Proof.
  unfold evictOldest. destruct (accessOrder s) as [|oldest rest] eqn:Horder;
    [by rewrite Horder|].
  by destruct (Js.truthy oldest && _).
Qed.

(** When the stuck entries fit the limit, the loop ends within as many
    iterations as the recency list is long. *)
Lemma settles_fuel s :
  (Z.of_nat (length (stuck s)) <= maxTrackedFiles (config s))%Z ->
  exists s', evictIfNeeded (length (accessOrder s)) s = Some s'.
Proof.
  remember (length (accessOrder s)) as n eqn:Hn.
  revert s Hn. induction n as [|n IH]; intros s Hn Hfit; simpl.
  - destruct (overLimit s) eqn:Hover; [|by eexists].
    exfalso. symmetry in Hn. apply nil_length_inv in Hn.
    rewrite (stuck_no_order _ Hn) in Hfit.
    unfold overLimit in Hover. apply bool_decide_eq_true in Hover.
    unfold JsMap.size in Hover. lia.
  - destruct (overLimit s) eqn:Hover; [|by eexists].
    apply IH.
    + rewrite evictOldest_order. destruct (accessOrder s); simpl in *; lia.
    + by rewrite evictOldest_stuck, evictOldest_config.
Qed.

(** The loop ends exactly when the stuck entries fit the limit. *)
Lemma settles_iff s :
  settles s <-> (Z.of_nat (length (stuck s)) <= maxTrackedFiles (config s))%Z.
Proof.
  split.
  - intros (fuel & s' & Hrun).
    pose proof (evictIfNeeded_within_limit _ _ _ Hrun) as Hlim.
    rewrite <- (evictIfNeeded_stuck _ _ _ Hrun).
    pose proof (length_filter (fun kv => unevictable s' kv = true) (summaries s')) as Hlen.
    unfold stuck, JsMap.size in *. lia.
  - intros Hfit. exists (length (accessOrder s)). by apply settles_fuel.
Qed.

(** With more stuck entries than the limit allows, no number of
    iterations ends the loop. *)
Lemma evictIfNeeded_never s fuel :
  (maxTrackedFiles (config s) < Z.of_nat (length (stuck s)))%Z ->
  evictIfNeeded fuel s = None.
Proof.
  intros Hover. destruct (evictIfNeeded fuel s) as [s'|] eqn:Hrun; [|done].
  assert (settles s) as Hs by (by exists fuel, s').
  apply settles_iff in Hs. lia.
Qed.

End Eviction.

(** ** The invariants of the data model *)

Section WellFormed.
Context `{Host}.
Implicit Types (s : ContextState).

Lemma wellFormed_new c : wellFormed (newContextState c).
Proof. split; apply NoDup_nil_2. Qed.

Lemma NoDup_bump (l : list string) p : NoDup l -> NoDup (filter (fun q => q <> p) l ++ [p]).
Proof.
  intros Hl. apply NoDup_app. split; [by apply NoDup_filter|].
  split; [|apply NoDup_singleton].
  intros q Hq Hp. apply list_elem_of_filter in Hq as [Hne _].
  apply list_elem_of_singleton in Hp. done.
Qed.

Lemma wellFormed_updateAccessOrder s p :
  wellFormed s -> wellFormed (updateAccessOrder s p).
Proof. intros [Hm Ho]. split; [done|]. by apply NoDup_bump. Qed.

Lemma wellFormed_setActiveFile s p : wellFormed s -> wellFormed (setActiveFile s p).1.
Proof. intros [Hm Ho]. split; [done|]. by apply NoDup_bump. Qed.

Lemma wellFormed_clearActiveFile s : wellFormed s -> wellFormed (clearActiveFile s).
Proof. by intros [Hm Ho]. Qed.

Lemma wellFormed_storeSummary now s p sm c :
  wellFormed s -> wellFormed (storeSummary now s p sm c).
Proof.
  intros [Hm Ho]. split; simpl; [by apply wf_set | by apply NoDup_bump].
Qed.

Lemma wellFormed_evictOldest s : wellFormed s -> wellFormed (evictOldest s).
Proof.
  intros [Hm Ho]. unfold evictOldest.
  destruct (accessOrder s) as [|oldest rest] eqn:Horder; [by split; [|rewrite Horder]|].
  apply NoDup_cons in Ho as [_ Ho].
  destruct (Js.truthy oldest && _); split; simpl; try done. by apply wf_delete.
Qed.

Lemma wellFormed_evictIfNeeded fuel s s' :
  evictIfNeeded fuel s = Some s' -> wellFormed s -> wellFormed s'.
Proof.
  revert s. induction fuel as [|fuel IH]; intros s; simpl;
    destruct (overLimit s); try done; try (by intros [= <-]).
  intros Hrun Hwf. eapply IH; [done|]. by apply wellFormed_evictOldest.
Qed.

Lemma wellFormed_setSummary fuel now s p sm c s' :
  setSummary fuel now s p sm c = Some s' -> wellFormed s -> wellFormed s'.
Proof.
  intros Hrun Hwf. eapply wellFormed_evictIfNeeded; [done|].
  by apply wellFormed_storeSummary.
Qed.

Lemma wellFormed_forget s p : wellFormed s -> wellFormed (forget s p).1.
Proof.
  intros [Hm Ho]. unfold forget; simpl.
  destruct (bool_decide (activeFile s = Some (normalizePath p))); split; simpl;
    (by apply wf_delete) || (by apply NoDup_filter).
Qed.

End WellFormed.

(** ** [setSummary] *)

Section SetSummary.
Context `{Host}.
Implicit Types (s : ContextState) (k : string).

Lemma storeSummary_activeFile now s p sm c :
  activeFile (storeSummary now s p sm c) = activeFile s.
Proof. done. Qed.

Lemma storeSummary_config now s p sm c :
  config (storeSummary now s p sm c) = config s.
Proof. done. Qed.

Lemma storeSummary_get now s p sm c :
  JsMap.get (normalizePath p) (summaries (storeSummary now s p sm c))
  = Some {| summary := sm; contentHash := hashContent c; fullSize := Js.byteLength c;
            summarySize := Js.byteLength sm; lastAccessed := now;
            relativePath := getRelativePath s p |}.
Proof. unfold storeSummary; simpl. apply get_set_eq. Qed.

Lemma setSummary_activeFile fuel now s p sm c s' :
  setSummary fuel now s p sm c = Some s' -> activeFile s' = activeFile s.
Proof. intros Hrun. by apply evictIfNeeded_activeFile in Hrun. Qed.

Lemma setSummary_config fuel now s p sm c s' :
  setSummary fuel now s p sm c = Some s' -> config s' = config s.
Proof. intros Hrun. by apply evictIfNeeded_config in Hrun. Qed.

(** C1. Eviction never removes the summary entry of the active file.
    Whenever a call of [setSummary] returns, with [maxTrackedFiles = N]:
    the active pointer is the one before the call; the entry of the
    active path is the one the map held when the eviction loop started;
    every path the loop deleted is a non-active path; the entries that
    remain are unchanged; and the number of entries whose path is not the
    active path is at most [N]. *)
Theorem setSummary_eviction_spares_active fuel now s p sm c s' :
  setSummary fuel now s p sm c = Some s' ->
  let stored := storeSummary now s p sm c in
  activeFile s' = activeFile s /\
  (forall a, activeFile s = Some a ->
     JsMap.get a (summaries s') = JsMap.get a (summaries stored)) /\
  (forall k, JsMap.has k (summaries stored) = true ->
     JsMap.has k (summaries s') = false -> activeFile s <> Some k) /\
  (forall k v, JsMap.get k (summaries s') = Some v ->
     JsMap.get k (summaries stored) = Some v) /\
  (Z.of_nat (length (nonActive s')) <= maxTrackedFiles (config s))%Z.
Proof.
  intros Hrun stored. unfold setSummary in Hrun. fold stored in Hrun.
  assert (forall a, activeFile s = Some a ->
            JsMap.get a (summaries s') = JsMap.get a (summaries stored)) as Hactive.
  { intros a Ha. apply (evictIfNeeded_get_pinned _ _ _ _ Hrun).
    unfold pinned. subst stored. rewrite storeSummary_activeFile, Ha.
    rewrite bool_decide_eq_true_2 by done. apply orb_true_r. }
  split; [by apply evictIfNeeded_activeFile in Hrun|].
  split; [done|].
  split.
  { intros k Hbefore Hafter Ha. rewrite <- not_true_iff_false in Hafter.
    apply Hafter. apply has_get. rewrite (Hactive _ Ha). by apply has_get. }
  split; [intros k v; by apply (evictIfNeeded_get_kept fuel)|].
  pose proof (evictIfNeeded_within_limit _ _ _ Hrun) as Hlim.
  pose proof (length_filter (fun kv => Some kv.1 <> activeFile s') (summaries s')) as Hlen.
  subst stored. rewrite storeSummary_config in Hlim.
  unfold nonActive, JsMap.size in *. lia.
Qed.

(** A call of [setSummary] returns exactly when the entries that the
    eviction loop cannot delete fit the limit. *)
Lemma setSummary_returns_iff now s p sm c :
  (exists fuel s', setSummary fuel now s p sm c = Some s')
  <-> (Z.of_nat (length (stuck (storeSummary now s p sm c))) <= maxTrackedFiles (config s))%Z.
Proof.
  rewrite <- (storeSummary_config now s p sm c). apply settles_iff.
Qed.

(** Storing a summary for a path that has one, in a cache within its
    limit, evicts nothing. *)
Lemma setSummary_tracked fuel now s p sm c :
  JsMap.has (normalizePath p) (summaries s) = true ->
  (Z.of_nat (JsMap.size (summaries s)) <= maxTrackedFiles (config s))%Z ->
  setSummary fuel now s p sm c = Some (storeSummary now s p sm c).
Proof.
  intros Hhas Hlim. unfold setSummary.
  assert (overLimit (storeSummary now s p sm c) = false) as Hover.
  { unfold overLimit. apply bool_decide_eq_false. simpl.
    rewrite size_set_present by done. lia. }
  destruct fuel; simpl; by rewrite Hover.
Qed.

(** A path with an entry whose hash is that of [c] is stale as soon as
    the disk holds a content with another hash. *)
Lemma isStale_changed s disk p cached c' :
  getSummary s p = Some cached ->
  readFileSync disk p = Some c' ->
  hashContent c' <> contentHash cached ->
  isStale s disk p = true.
Proof.
  unfold getSummary, isStale. intros -> -> Hneq.
  by rewrite bool_decide_eq_false_2.
Qed.

Lemma isStale_fresh s disk p cached c' :
  getSummary s p = Some cached ->
  readFileSync disk p = Some c' ->
  hashContent c' = contentHash cached ->
  isStale s disk p = false.
Proof.
  unfold getSummary, isStale. intros -> -> Heq.
  by rewrite bool_decide_eq_true_2.
Qed.

(** The staleness round trip on files that hold text.  Let [setSummary]
    have stored the summary of a path with content [c], the path being
    tracked afterwards.  If the disk then holds a content [c'] whose
    hash differs from that of [c], [isStale] is true; any further
    [setSummary] of the path with [c'] returns, and after it [isStale]
    is false. *)
Lemma staleness_round_trip fuel now s0 p sm c s1 disk c' :
  setSummary fuel now s0 p sm c = Some s1 ->
  is_Some (getSummary s1 p) ->
  readFileSync disk p = Some c' ->
  hashContent c' <> hashContent c ->
  isStale s1 disk p = true /\
  forall fuel' now' sm',
    exists s2, setSummary fuel' now' s1 p sm' c' = Some s2 /\ isStale s2 disk p = false.
Proof.
  intros Hrun [cached Hcached] Hdisk Hneq.
  assert (contentHash cached = hashContent c) as Hhash.
  { unfold getSummary in Hcached.
    apply (evictIfNeeded_get_kept _ _ _ _ _ Hrun) in Hcached.
    rewrite storeSummary_get in Hcached. by injection Hcached as <-. }
  split.
  - eapply isStale_changed; eauto. by rewrite Hhash.
  - intros fuel' now' sm'. exists (storeSummary now' s1 p sm' c'). split.
    + apply setSummary_tracked.
      * apply has_get. unfold getSummary in Hcached. by rewrite Hcached.
      * rewrite (setSummary_config _ _ _ _ _ _ _ Hrun).
        pose proof (evictIfNeeded_within_limit _ _ _ Hrun) as Hlim.
        by rewrite storeSummary_config in Hlim.
    + eapply isStale_fresh; [apply storeSummary_get | done | done].
Qed.

End SetSummary.

(** ** The files as bytes *)

Section Bytes.
Context `{Host}.
Implicit Types (s : ContextState).

(** A file that holds the UTF-8 encoding of a string reads as that
    string, and the operations on bytes then do what those on strings
    do. *)
Lemma encode_codePoints c : Utf8.encode (Utf8.codePoints c) = Js.utf8 c.
Proof.
  induction c as [|a rest IH]; [done|].
  unfold Utf8.encode in *. cbn [Utf8.codePoints map concat Js.utf8]. rewrite IH.
  pose proof (nat_ascii_bounded a) as Hlt. unfold Utf8.encodeOne.
  destruct (Z.of_nat (nat_of_ascii a) <? 128)%Z eqn:Hsmall; [done|].
  by rewrite (proj2 (Z.ltb_lt _ 2048)) by lia.
Qed.

Lemma decodeFrom_unit a rest :
  Utf8.decodeFrom None (Js.utf8 (String a EmptyString) ++ rest)
  = Z.of_nat (nat_of_ascii a) :: Utf8.decodeFrom None rest.
Proof. destruct a as [[] [] [] [] [] [] [] []]; reflexivity. Qed.

Lemma decode_utf8 c : Utf8.decode (Js.utf8 c) = Utf8.codePoints c.
Proof.
  unfold Utf8.decode. induction c as [|a rest IH]; [done|].
  assert (Js.utf8 (String a rest) = Js.utf8 (String a EmptyString) ++ Js.utf8 rest) as ->.
  { cbn [Js.utf8]. by destruct (_ <? 128)%Z. }
  rewrite decodeFrom_unit, IH. done.
Qed.

Lemma raw_hashContent c : Raw.hashContent (Utf8.codePoints c) = hashContent c.
Proof. unfold Raw.hashContent, hashContent. by rewrite encode_codePoints. Qed.

Lemma raw_setSummary fuel now s p sm c :
  Raw.setSummary fuel now s p sm (Utf8.codePoints c) = setSummary fuel now s p sm c.
Proof.
  unfold Raw.setSummary, setSummary, Raw.storeSummary, storeSummary, Js.byteLength.
  by rewrite raw_hashContent, encode_codePoints.
Qed.

Lemma raw_isStale s (disk : gmap string string) p :
  Raw.isStale s (Js.utf8 <$> disk) p = isStale s disk p.
Proof.
  unfold Raw.isStale, isStale, Raw.readFileSync, readFileSync.
  rewrite lookup_fmap.
  destruct (JsMap.get _ _) as [cached|]; [|done].
  destruct (disk !! normalizePath p) as [content|]; [|done]. simpl.
  by rewrite decode_utf8, raw_hashContent.
Qed.

Lemma raw_storeSummary_get now s p sm c :
  JsMap.get (normalizePath p) (summaries (Raw.storeSummary now s p sm c))
  = Some {| summary := sm; contentHash := Raw.hashContent c;
            fullSize := Z.of_nat (length (Utf8.encode c));
            summarySize := Js.byteLength sm; lastAccessed := now;
            relativePath := getRelativePath s p |}.
Proof. unfold Raw.storeSummary; simpl. apply get_set_eq. Qed.

Lemma raw_setSummary_tracked fuel now s p sm c :
  JsMap.has (normalizePath p) (summaries s) = true ->
  (Z.of_nat (JsMap.size (summaries s)) <= maxTrackedFiles (config s))%Z ->
  Raw.setSummary fuel now s p sm c = Some (Raw.storeSummary now s p sm c).
Proof.
  intros Hhas Hlim. unfold Raw.setSummary.
  assert (overLimit (Raw.storeSummary now s p sm c) = false) as Hover.
  { unfold overLimit. apply bool_decide_eq_false. simpl.
    rewrite size_set_present by done. lia. }
  destruct fuel; simpl; by rewrite Hover.
Qed.

(** C4, amended.  Staleness round trip.  Let [setSummary] have stored
    the summary of a path with content [c], the path being tracked
    afterwards.  If the bytes of the file are then [bytes'], and the
    text they are read as has a digest other than that of [c], [isStale]
    is true; any further [setSummary] of the path with that text
    returns, and after it [isStale] is false. *)
Theorem staleness_round_trip_on_bytes fuel now s0 p sm c s1
    (disk : gmap string (list Z)) bytes' :
  Raw.setSummary fuel now s0 p sm c = Some s1 ->
  is_Some (getSummary s1 p) ->
  disk !! normalizePath p = Some bytes' ->
  Raw.hashContent (Utf8.decode bytes') <> Raw.hashContent c ->
  Raw.isStale s1 disk p = true /\
  forall fuel' now' sm',
    exists s2,
      Raw.setSummary fuel' now' s1 p sm' (Utf8.decode bytes') = Some s2 /\
      Raw.isStale s2 disk p = false.
Proof.
  intros Hrun [cached Hcached] Hdisk Hneq.
  assert (contentHash cached = Raw.hashContent c) as Hhash.
  { unfold getSummary in Hcached.
    apply (evictIfNeeded_get_kept _ _ _ _ _ Hrun) in Hcached.
    rewrite raw_storeSummary_get in Hcached. by injection Hcached as <-. }
  split.
  - unfold Raw.isStale, Raw.readFileSync. unfold getSummary in Hcached.
    rewrite Hcached, Hdisk. simpl. rewrite Hhash.
    by rewrite bool_decide_eq_false_2.
  - intros fuel' now' sm'. exists (Raw.storeSummary now' s1 p sm' (Utf8.decode bytes')).
    split.
    + apply raw_setSummary_tracked.
      * apply has_get. unfold getSummary in Hcached. by rewrite Hcached.
      * assert (config s1 = config s0) as ->
          by (by apply evictIfNeeded_config in Hrun).
        by apply evictIfNeeded_within_limit in Hrun.
    + unfold Raw.isStale, Raw.readFileSync.
      rewrite raw_storeSummary_get, Hdisk. simpl.
      by rewrite bool_decide_eq_true_2.
Qed.

End Bytes.


(** ** The tools *)

Section ToolFacts.
Context `{Host} `{Extractors}.
Implicit Types (w : World) (s : ContextState).

(** A file that can be read can be overwritten. *)
Lemma writeFileSync_existing w p content c :
  readFileSync (disk w) p = Some content ->
  writeFileSync w p c = inr (<[normalizePath p := c]> (disk w)).
Proof. unfold readFileSync, writeFileSync, isFile. by intros ->. Qed.

(** A write that succeeds changes the content of its path and nothing
    else. *)
Lemma writeFileSync_written w p c written :
  writeFileSync w p c = inr written -> written = <[normalizePath p := c]> (disk w).
Proof.
  unfold writeFileSync. intros Hwrite. repeat case_match; by simplify_eq.
Qed.

Lemma summarizeFile_activeFile fuel w q w' :
  summarizeFile fuel w q = Some w' -> activeFile (ctx w') = activeFile (ctx w).
Proof.
  unfold summarizeFile. intros Hrun.
  repeat case_match; simplify_eq/=; try done.
  destruct (setSummary _ _ _ _ _ _) as [s'|] eqn:Hset; simplify_eq/=.
  by apply setSummary_activeFile in Hset.
Qed.

Lemma summarizeFile_disk fuel w q w' :
  summarizeFile fuel w q = Some w' -> disk w' = disk w.
Proof.
  unfold summarizeFile. intros Hrun.
  repeat case_match; simplify_eq/=; try done.
  destruct (setSummary _ _ _ _ _ _) as [s'|] eqn:Hset; by simplify_eq/=.
Qed.

Lemma summarizePrevious_disk fuel w q w' :
  summarizePrevious fuel w q = Some w' -> disk w' = disk w.
Proof.
  unfold summarizePrevious. intros Hrun.
  repeat case_match; simplify_eq/=; try done.
  by apply summarizeFile_disk in Hrun.
Qed.

Lemma activateAndSummarize_disk fuel w q content w' :
  activateAndSummarize fuel w q content = Some w' -> disk w' = disk w.
Proof.
  unfold activateAndSummarize. intros Hrun.
  destruct (summarizePrevious fuel w q) as [w1|] eqn:Hprev; [|done].
  apply summarizePrevious_disk in Hprev. simpl in Hrun.
  repeat case_match; simplify_eq/=; try done.
  destruct (setSummary _ _ _ _ _ _) as [s'|] eqn:Hset; by simplify_eq/=.
Qed.

(** C3. [peekFile] never changes the active-file pointer: whatever the
    state of the path (active, cached, stale, unsupported, failing to
    parse, unreadable), [getActiveFile()] after the call is
    [getActiveFile()] before it. *)
Theorem peekFile_keeps_active fuel w p w' r :
  peekFile fuel w p = Some (w', r) ->
  getActiveFile (ctx w') = getActiveFile (ctx w).
Proof.
  unfold peekFile, getActiveFile. intros Hrun.
  repeat case_match; simplify_eq/=; try done.
  destruct (setSummary _ _ _ _ _ _) as [s'|] eqn:Hset; simplify_eq/=.
  by apply setSummary_activeFile in Hset.
Qed.

(** [peekFile] returns whenever the eviction loop of the [setSummary] it
    may call can end. *)
Lemma peekFile_returns w p :
  (forall sm c,
     (Z.of_nat (length (stuck (storeSummary (clock w) (ctx w) (absolutePathOf p) sm c)))
      <= maxTrackedFiles (config (ctx w)))%Z) ->
  exists fuel w' r, peekFile fuel w p = Some (w', r).
Proof.
  intros Hfit. unfold peekFile.
  destruct (readFileSync (disk w) (absolutePathOf p)) as [content|]; [|by exists 0; eauto].
  destruct (negb (isSupported (absolutePathOf p))); [by exists 0; eauto|].
  destruct (isActive (ctx w) (absolutePathOf p)); [by exists 0; eauto|].
  destruct (freshSummary w (absolutePathOf p)); [by exists 0; eauto|].
  destruct (parseFile (absolutePathOf p) content) as [[sm fs|e]|]; try (by exists 0; eauto).
  destruct (proj2 (setSummary_returns_iff (clock w) (ctx w) (absolutePathOf p) fs content)
              (Hfit fs content)) as (fuel & s' & Hset).
  exists fuel. rewrite Hset. simpl. eauto.
Qed.

(** X22. Two peeks in a row return the same text: if the first one ran
    the extractor and the renderer, the second one is served from the
    cache, or, if the entry was evicted at once, from a second run of
    them. *)
Lemma peekFile_twice fuel fuel' w p w1 r1 w2 r2 :
  peekFile fuel w p = Some (w1, r1) ->
  peekFile fuel' w1 p = Some (w2, r2) ->
  r2 = r1.
Proof.
  unfold peekFile. intros Hfirst Hsecond.
  destruct (readFileSync (disk w) (absolutePathOf p)) as [content|] eqn:Hread.
  2: { simplify_eq. rewrite Hread in Hsecond. by simplify_eq. }
  destruct (negb (isSupported (absolutePathOf p))) eqn:Hsup.
  { simplify_eq. rewrite Hread in Hsecond. by simplify_eq. }
  destruct (isActive (ctx w) (absolutePathOf p)) eqn:Hactive.
  { simplify_eq. rewrite Hread, Hactive in Hsecond. by simplify_eq. }
  destruct (freshSummary w (absolutePathOf p)) as [cached|] eqn:Hfresh.
  { simplify_eq. rewrite Hread, Hactive, Hfresh in Hsecond. by simplify_eq. }
  destruct (parseFile (absolutePathOf p) content) as [[m formatted|e]|] eqn:Hparse.
  2,3: simplify_eq; rewrite Hread, Hactive, Hfresh, Hparse in Hsecond; by simplify_eq.
  destruct (setSummary fuel (clock w) (ctx w) (absolutePathOf p) formatted content)
    as [s|] eqn:Hset; simplify_eq/=.
  rewrite Hread in Hsecond.
  assert (isActive s (absolutePathOf p) = false) as Hactive'.
  { unfold isActive in *. by rewrite (setSummary_activeFile _ _ _ _ _ _ _ Hset). }
  assert (getRelativePath s (absolutePathOf p)
          = getRelativePath (ctx w) (absolutePathOf p)) as Hrel.
  { unfold getRelativePath. by rewrite (setSummary_config _ _ _ _ _ _ _ Hset). }
  rewrite Hactive', Hrel in Hsecond.
  unfold freshSummary in Hsecond. simpl in Hsecond.
  destruct (getSummary s (absolutePathOf p)) as [cached|] eqn:Hcached.
  - assert (summary cached = formatted /\ contentHash cached = hashContent content)
      as [Hsummary Hhash].
    { unfold getSummary in Hcached.
      apply (evictIfNeeded_get_kept _ _ _ _ _ Hset) in Hcached.
      rewrite storeSummary_get in Hcached. by injection Hcached as <-. }
    rewrite (isStale_fresh s (disk w) (absolutePathOf p) cached content) in Hsecond
      by done.
    simpl in Hsecond. by simplify_eq.
  - rewrite Hparse in Hsecond.
    destruct (setSummary fuel' _ s _ _ _); by simplify_eq/=.
Qed.

End ToolFacts.

(** ** Unsupported file types *)

Section Unsupported.
Context `{Host} `{Extractors}.
Implicit Types (w : World).

(** C5, amended.  For a path whose extension has no matching parser,
    [readFile], [peekFile], [editFile] and [writeFile] return or throw
    whatever the fuel, and leave the [ContextState] exactly as it was,
    whatever the outcome.  [readFile] and [peekFile] return the full
    content when the file can be read and throw the failure of the read
    otherwise; [editFile] returns its success message when the file can
    be read and [old] is found with an occurrence count of at most one,
    and throws otherwise, without writing; [writeFile] returns its
    success message when the directory of the path exists or can be made
    and the file can be written, and throws the failure of
    [fs.mkdirSync] or of [fs.writeFileSync] otherwise, without writing. *)
Theorem unsupported_leaves_state fuel w p :
  isSupported (absolutePathOf p) = false ->
  let absolutePath := absolutePathOf p in
  let relativePath := getRelativePath (ctx w) absolutePath in
  readFile fuel w p
  = Some (w, match readFileSync (disk w) absolutePath with
             | Some content => Returned (unsupportedRead w absolutePath content)
             | None => Threw (ReadFailure (lookupCode w absolutePath) absolutePath)
             end) /\
  peekFile fuel w p
  = Some (w, match readFileSync (disk w) absolutePath with
             | Some content => Returned (unsupportedPeek w absolutePath content)
             | None => Threw (ReadFailure (lookupCode w absolutePath) absolutePath)
             end) /\
  (forall content,
     writeFile fuel w p content
     = Some (match ensureDirectory w absolutePath with
             | inl e => (w, Threw e)
             | inr made =>
                 match writeFileSync (withDirs w made) absolutePath content with
                 | inl code => (withDirs w made, Threw (WriteFailure code absolutePath))
                 | inr written =>
                     (withDisk (withDirs w made) written,
                      Returned ("Successfully wrote " +:+ relativePath
                                +:+ " (unsupported file type - not tracked)"))
                 end
             end)) /\
  (forall old new,
     editFile fuel w p old new
     = Some (match readFileSync (disk w) absolutePath with
             | None => (w, Threw (ReadFailure (lookupCode w absolutePath) absolutePath))
             | Some content =>
                 if negb (Js.includes content old) then (w, Threw (NoMatch relativePath))
                 else if (1 <? countOccurrences content old)%Z then
                   (w, Threw (AmbiguousMatch (countOccurrences content old) relativePath))
                 else
                   (withDisk w (<[normalizePath absolutePath := Js.replace content old new]>
                                  (disk w)),
                    Returned ("Successfully edited " +:+ relativePath
                              +:+ " (unsupported file type - not tracked)"))
             end)) /\
  (forall old new w' r, editFile fuel w p old new = Some (w', r) -> ctx w' = ctx w) /\
  (forall content w' r, writeFile fuel w p content = Some (w', r) -> ctx w' = ctx w).
Proof.
  intros Hunsup absolutePath relativePath. subst absolutePath relativePath.
  assert (forall old new,
     editFile fuel w p old new
     = Some (match readFileSync (disk w) (absolutePathOf p) with
             | None => (w, Threw (ReadFailure (lookupCode w (absolutePathOf p))
                                    (absolutePathOf p)))
             | Some content =>
                 if negb (Js.includes content old)
                 then (w, Threw (NoMatch (getRelativePath (ctx w) (absolutePathOf p))))
                 else if (1 <? countOccurrences content old)%Z then
                   (w, Threw (AmbiguousMatch (countOccurrences content old)
                                (getRelativePath (ctx w) (absolutePathOf p))))
                 else
                   (withDisk w (<[normalizePath (absolutePathOf p)
                                  := Js.replace content old new]> (disk w)),
                    Returned ("Successfully edited "
                              +:+ getRelativePath (ctx w) (absolutePathOf p)
                              +:+ " (unsupported file type - not tracked)"))
             end)) as Hedit.
  { intros old new. unfold editFile. rewrite Hunsup. simpl.
    destruct (readFileSync (disk w) (absolutePathOf p)) as [content|] eqn:Hread; [|done].
    destruct (Js.includes content old); simpl; [|done].
    destruct (1 <? countOccurrences content old)%Z; [done|].
    by rewrite (writeFileSync_existing _ _ _ _ Hread). }
  assert (forall content,
     writeFile fuel w p content
     = Some (match ensureDirectory w (absolutePathOf p) with
             | inl e => (w, Threw e)
             | inr made =>
                 match writeFileSync (withDirs w made) (absolutePathOf p) content with
                 | inl code =>
                     (withDirs w made, Threw (WriteFailure code (absolutePathOf p)))
                 | inr written =>
                     (withDisk (withDirs w made) written,
                      Returned ("Successfully wrote "
                                +:+ getRelativePath (ctx w) (absolutePathOf p)
                                +:+ " (unsupported file type - not tracked)"))
                 end
             end)) as Hwrite.
  { intros content. unfold writeFile. rewrite Hunsup. simpl.
    destruct (ensureDirectory w (absolutePathOf p)) as [e|made]; [done|].
    by destruct (writeFileSync (withDirs w made) (absolutePathOf p) content). }
  unfold readFile, peekFile. rewrite Hunsup. simpl.
  split; [by destruct (readFileSync (disk w) (absolutePathOf p))|].
  split; [by destruct (readFileSync (disk w) (absolutePathOf p))|].
  split; [exact Hwrite|]. split; [exact Hedit|].
  split.
  - intros old new w' r. rewrite Hedit. intros Hrun.
    repeat case_match; by simplify_eq/=.
  - intros content w' r. rewrite Hwrite. intros Hrun.
    repeat case_match; by simplify_eq/=.
Qed.

End Unsupported.

(** ** [forget] *)

Section Forget.
Context `{Host} `{Extractors}.
Implicit Types (w : World) (s : ContextState).

Lemma forget_deleted s p :
  (forget s p).2 = true <-> is_Some (getSummary s p).
Proof. unfold forget, getSummary; simpl. apply has_get. Qed.

Lemma forget_summaries s p :
  getSummary (forget s p).1 p = None.
Proof.
  unfold forget, getSummary; simpl.
  destruct (bool_decide (activeFile s = Some (normalizePath p))); simpl;
    apply get_delete_eq.
Qed.

Lemma forget_accessOrder s p :
  accessOrder (forget s p).1 = filter (fun q => q <> normalizePath p) (accessOrder s).
Proof.
  unfold forget; simpl.
  by destruct (bool_decide (activeFile s = Some (normalizePath p))).
Qed.

Lemma forget_activeFile s p :
  getActiveFile (forget s p).1
  = if isActive s p then None else getActiveFile s.
Proof.
  unfold forget, isActive, getActiveFile; simpl.
  by destruct (bool_decide (activeFile s = Some (normalizePath p))).
Qed.

(** [readFile] either returns and makes a file of a supported type
    active, or leaves the process as it was. *)
Lemma readFile_outcome fuel w p w1 r :
  readFile fuel w p = Some (w1, r) ->
  (isSupported (absolutePathOf p) = true /\ (exists t, r = Returned t) /\
   activeFile (ctx w1) = Some (normalizePath (absolutePathOf p)))
  \/ (w1 = w /\ (isSupported (absolutePathOf p) = false \/ exists e, r = Threw e)).
Proof.
  unfold readFile. intros Hrun.
  destruct (readFileSync (disk w) (absolutePathOf p)) as [content|].
  - destruct (isSupported (absolutePathOf p)) eqn:Hsup; simpl in Hrun.
    + destruct (summarizePrevious fuel w (absolutePathOf p)); simplify_eq/=.
      left. eauto.
    + simplify_eq. right. eauto.
  - simplify_eq. right. eauto.
Qed.

End Forget.

Section ForgetScenario.
Context `{HostLaws} `{Extractors}.
Implicit Types (w : World) (s : ContextState).

(** The state and the tools name a path alike. *)
Lemma normalizePath_absolutePathOf p :
  normalizePath (absolutePathOf p) = normalizePath p.
Proof.
  unfold normalizePath, absolutePathOf.
  destruct (path_isAbsolute p) eqn:Habs; [by rewrite Habs|].
  by rewrite resolve_isAbsolute, normalize_resolve.
Qed.

(** C6, amended.  [forget(path)] returns true if and only if a summary
    entry existed for the normalized path; in every case it removes the
    entry and removes the path from the recency list, and it clears the
    active pointer if the path was the active file and leaves the pointer
    alone otherwise.  In particular, after [read(A)] followed by
    [forget(A)], [getSummary(A)] returns none, and [getActiveFile()]
    returns none whenever the read made [A] active (it returned, for a
    file of a supported type) or no other file was active before it. *)
Theorem forget_clears_tracking s p :
  ((forget s p).2 = true <-> is_Some (getSummary s p)) /\
  getSummary (forget s p).1 p = None /\
  (normalizePath p ∉ accessOrder (forget s p).1) /\
  (forall q, q <> normalizePath p ->
     (q ∈ accessOrder (forget s p).1 <-> q ∈ accessOrder s)) /\
  getActiveFile (forget s p).1 = (if isActive s p then None else getActiveFile s) /\
  (forall fuel w a w1 r,
     readFile fuel w a = Some (w1, r) ->
     getSummary (ctx (forgetFile w1 a).1) a = None /\
     ((isSupported (absolutePathOf a) = true /\ (exists t, r = Returned t))
      \/ getActiveFile (ctx w) = None \/ isActive (ctx w) a = true ->
      getActiveFile (ctx (forgetFile w1 a).1) = None)).
Proof.
  split; [apply forget_deleted|].
  split; [apply forget_summaries|].
  split.
  { rewrite forget_accessOrder, list_elem_of_filter. by intros [? _]. }
  split.
  { intros q Hq. rewrite forget_accessOrder, list_elem_of_filter.
    split; [by intros [_ ?] | by intros ?]. }
  split; [apply forget_activeFile|].
  intros fuel w a w1 r Hread.
  unfold forgetFile.
  destruct (forget (ctx w1) (absolutePathOf a)) as [s' tracked] eqn:Hforget. simpl.
  assert (s' = (forget (ctx w1) (absolutePathOf a)).1) as -> by (by rewrite Hforget).
  split.
  { unfold getSummary. rewrite <- normalizePath_absolutePathOf. apply forget_summaries. }
  intros Hcase. rewrite forget_activeFile. unfold isActive, getActiveFile in *.
  destruct (readFile_outcome _ _ _ _ _ Hread)
    as [(Hsup & _ & Hactive)|[-> Hnot]].
  - by rewrite Hactive, bool_decide_eq_true_2.
  - destruct Hcase as [[Hsup [t ->]]|[Hnone|Hactive]].
    + destruct Hnot as [Hunsup|[e He]]; congruence.
    + rewrite Hnone. by case_bool_decide.
    + apply bool_decide_eq_true in Hactive.
      rewrite normalizePath_absolutePathOf, Hactive. by rewrite bool_decide_eq_true_2.
Qed.

End ForgetScenario.

(** ** The content header *)

Section Header.
Context `{Host} `{Extractors}.
Implicit Types (w : World).

Lemma hasUnit_app c a b : hasUnit c (a +:+ b) = hasUnit c a || hasUnit c b.
Proof.
  induction a as [|x a IH]; simpl; [done|]. by rewrite IH, orb_assoc.
Qed.

(** C8, amended.  The content header that [formatFileHeader] produces is
    exactly [// === <relativePath> [FULL] ===] for full content and
    [// === <relativePath> [SUMMARY] ===] for summaries; it is a single
    line whenever the relative path holds no line feed; and every text
    that [readFile] or [peekFile] returns starts with that header,
    followed by a line feed. *)
Theorem formatFileHeader_format relativePath :
  formatFileHeader relativePath false = "// === " +:+ relativePath +:+ " [FULL] ===" /\
  formatFileHeader relativePath true = "// === " +:+ relativePath +:+ " [SUMMARY] ===" /\
  (forall isSummary,
     hasUnit "010" relativePath = false ->
     hasUnit "010" (formatFileHeader relativePath isSummary) = false) /\
  (forall fuel w p w' t,
     getRelativePath (ctx w) (absolutePathOf p) = relativePath ->
     readFile fuel w p = Some (w', Returned t) ->
     exists body, t = formatFileHeader relativePath false +:+ newline +:+ body) /\
  (forall fuel w p w' t,
     getRelativePath (ctx w) (absolutePathOf p) = relativePath ->
     peekFile fuel w p = Some (w', Returned t) ->
     exists isSummary body,
       t = formatFileHeader relativePath isSummary +:+ newline +:+ body).
Proof.
  split; [done|]. split; [done|]. split.
  { intros isSummary Hrel. unfold formatFileHeader.
    rewrite !hasUnit_app, Hrel. by destruct isSummary. }
  split.
  - intros fuel w p w' t <- Hrun. unfold readFile in Hrun.
    repeat case_match; simplify_eq/=; eauto.
    destruct (summarizePrevious _ _ _); simplify_eq/=; eauto.
  - intros fuel w p w' t <- Hrun. unfold peekFile in Hrun.
    repeat case_match; simplify_eq/=; eauto.
    destruct (setSummary _ _ _ _ _ _); simplify_eq/=; eauto.
Qed.

End Header.

(** ** [editFile] *)

Section Edit.
Context `{Host} `{Extractors}.
Implicit Types (w : World).

Lemma startsWith_split pat s :
  Js.startsWith pat s = true -> s = pat +:+ Js.sliceFrom (String.length pat) s.
Proof.
  revert s. induction pat as [|a pat IH]; intros [|b s]; simpl; try done.
  destruct (decide (a = b)) as [->|]; [|done].
  intros Hp.
  change (String b s = String b (pat +:+ Js.sliceFrom (String.length pat) s)).
  f_equal. by apply IH.
Qed.

(** A match cuts the text into what is before it, the pattern, and what
    is after it. *)
Lemma search_split pat s before after :
  Js.search pat s = Some (before, after) -> s = before +:+ pat +:+ after.
Proof.
  revert before. induction s as [|c s IH]; intros before; simpl.
  - destruct (Js.startsWith pat "") eqn:Hp; [|done].
    intros [= <- <-]. by apply startsWith_split in Hp.
  - destruct (Js.startsWith pat (String c s)) eqn:Hp.
    + intros [= <- <-]. by apply startsWith_split in Hp.
    + destruct (Js.search pat s) as [[b a]|]; [|done].
      intros [= <- <-].
      change (String c s = String c (b +:+ pat +:+ a)).
      f_equal. by apply IH.
Qed.

Lemma length_append (a b : string) :
  String.length (a +:+ b) = String.length a + String.length b.
Proof.
  induction a as [|c a IH]; [done|].
  change (S (String.length (a +:+ b)) = S (String.length a + String.length b)).
  by rewrite IH.
Qed.

(** [split] has rounds enough: every match of a non-empty separator
    leaves a shorter text, so more rounds do not change the pieces. *)
Lemma splitLoop_enough sep s n m :
  sep <> EmptyString ->
  String.length s <= n -> String.length s <= m ->
  Js.splitLoop n sep s = Js.splitLoop m sep s.
Proof.
  intros Hsep. revert m s. induction n as [|n IH]; intros m s Hn Hm.
  - destruct s; [|simpl in Hn; lia].
    destruct m; [done|]. simpl. by destruct sep.
  - destruct m as [|m].
    + destruct s; [|simpl in Hm; lia]. simpl. by destruct sep.
    + simpl. destruct (Js.search sep s) as [[before after]|] eqn:Hsearch; [|done].
      f_equal. apply search_split in Hsearch. subst s.
      rewrite !length_append in Hn, Hm.
      assert (0 < String.length sep) by (destruct sep; [done | simpl; lia]).
      apply IH; lia.
Qed.

Lemma splitLoop_pieces n sep s : 1 <= length (Js.splitLoop n sep s).
Proof.
  destruct n; simpl; [lia|]. destruct (Js.search sep s) as [[? ?]|]; simpl; lia.
Qed.

(** For a non-empty [old], the count of [editFile] is zero exactly when
    [includes] fails. *)
Lemma includes_count content old :
  old <> EmptyString ->
  (Js.includes content old = false <-> countOccurrences content old = 0%Z).
Proof.
  intros Hold. unfold Js.includes, countOccurrences, Js.split.
  destruct old as [|c old]; [done|].
  destruct (String.length content) as [|n] eqn:Hlen.
  - destruct content; [|done]. simpl. split; [lia|done].
  - simpl. destruct (Js.search (String c old) content) as [[before after]|].
    + pose proof (splitLoop_pieces n (String c old) after). simpl. split; [done|lia].
    + simpl. split; [lia|done].
Qed.

(** A replacement text without a dollar sign is inserted as it is. *)
Lemma getSubstitution_plain matched before after template :
  hasUnit "$" template = false ->
  Js.getSubstitution matched before after template = template.
Proof.
  induction template as [|c rest IH]; simpl; [done|].
  intros Hno. apply orb_false_iff in Hno as [Hc Hrest].
  apply bool_decide_eq_false in Hc.
  rewrite decide_False by done. by rewrite IH.
Qed.

Lemma replace_plain content old new before after :
  hasUnit "$" new = false ->
  Js.search old content = Some (before, after) ->
  content = before +:+ old +:+ after /\
  Js.replace content old new = before +:+ new +:+ after.
Proof.
  intros Hplain Hsearch. split; [by apply search_split|].
  unfold Js.replace. rewrite Hsearch. by rewrite getSubstitution_plain.
Qed.

(** No occurrence: the "not found" error, nothing written. *)
Lemma editFile_no_match fuel w p old new content :
  readFileSync (disk w) (absolutePathOf p) = Some content ->
  Js.includes content old = false ->
  editFile fuel w p old new
  = Some (w, Threw (NoMatch (getRelativePath (ctx w) (absolutePathOf p)))).
Proof. unfold editFile. by intros -> ->. Qed.

(** A count above one: the error carries the count, nothing written. *)
Lemma editFile_ambiguous fuel w p old new content :
  readFileSync (disk w) (absolutePathOf p) = Some content ->
  Js.includes content old = true ->
  (1 < countOccurrences content old)%Z ->
  editFile fuel w p old new
  = Some (w, Threw (AmbiguousMatch (countOccurrences content old)
                      (getRelativePath (ctx w) (absolutePathOf p)))).
Proof.
  unfold editFile. intros -> -> Hcount. simpl.
  apply Z.ltb_lt in Hcount. by rewrite Hcount.
Qed.

(** Otherwise, whatever [editFile] returns, the file holds
    [content.replace(old, new)]. *)
Lemma editFile_written fuel w p old new content w' r :
  readFileSync (disk w) (absolutePathOf p) = Some content ->
  Js.includes content old = true ->
  (countOccurrences content old <= 1)%Z ->
  editFile fuel w p old new = Some (w', r) ->
  readFileSync (disk w') (absolutePathOf p) = Some (Js.replace content old new) /\
  exists text, r = Returned text.
Proof.
  unfold editFile. intros Hread Hinc Hcount. rewrite Hread, Hinc. simpl.
  apply Z.ltb_ge in Hcount. rewrite Hcount.
  rewrite (writeFileSync_existing _ _ _ _ Hread).
  destruct (negb (isSupported (absolutePathOf p))).
  - intros [= <- <-]. split; [|by eauto].
    unfold readFileSync. simpl. apply lookup_insert_eq.
  - destruct (activateAndSummarize _ _ _ _) as [w2|] eqn:Hact; [|done].
    intros [= <- <-]. split; [|by eauto].
    apply activateAndSummarize_disk in Hact. rewrite Hact.
    unfold readFileSync. apply lookup_insert_eq.
Qed.

End Edit.

(** ** [fileStatus] *)

Section StatusFacts.
Context `{Host} `{Extractors}.
Implicit Types (w : World).

(** With at least one cached summary, a failure to read the active file
    leaves [fileStatus] as an exception: the read of the totals block is
    outside the [try]. *)
Lemma fileStatus_active_unreadable w active :
  activeFile (ctx w) = Some active ->
  Js.truthy active = true ->
  summaries (ctx w) <> [] ->
  readFileSync (disk w) active = None ->
  fileStatus w = Threw (ReadFailure (lookupCode w active) active).
Proof.
  intros Hactive Htruthy Hcached Hread. unfold fileStatus, activeSize. simpl.
  destruct (summaries (ctx w)); [done|]. simpl.
  by rewrite Hactive, Htruthy, Hread.
Qed.

(** With no cached summary, the report is returned, and says that the
    active file was not found. *)
Lemma fileStatus_empty_cache w active :
  activeFile (ctx w) = Some active ->
  Js.truthy active = true ->
  summaries (ctx w) = [] ->
  readFileSync (disk w) active = None ->
  fileStatus w
  = Returned (Js.join newline
      ["Context Status"; "=============="; "";
       "Active: " +:+ getRelativePath (ctx w) active +:+ " (file not found)"; "";
       "Cached Summaries: (none)"; ""]).
Proof.
  intros Hactive Htruthy Hcached Hread. unfold fileStatus, activeLine, cachedLines. simpl.
  by rewrite Hcached, Hactive, Htruthy, Hread.
Qed.

End StatusFacts.

(** ** The renderer *)

Section Renderer.
Context `{Host} `{Extractors}.

(** C9. The renderer is a function of the Summary Model alone: identical
    Summary Models render to identical text, for the Rust and for the PHP
    renderer, and extracting and rendering identical sources yields
    identical outcomes, so identical [formattedSummary] texts. *)
Theorem formatSummary_deterministic (m1 m2 : FileSummary) (source1 source2 : string) :
  m1 = m2 -> source1 = source2 ->
  Rust.formatSummary m1 = Rust.formatSummary m2 /\
  Php.formatSummary m1 = Php.formatSummary m2 /\
  parseRust source1 = parseRust source2 /\
  parsePHP source1 = parsePHP source2.
Proof. by intros -> ->. Qed.

End Renderer.

(** * Further properties of [ContextState] *)

Section MoreState.
Context `{Host}.
Implicit Types (s : ContextState) (k : string).

Lemma keptAfter_step s oldest rest popped :
  accessOrder s = oldest :: rest ->
  keptAfter s (oldest :: popped) = keptAfter (evictOldest s) popped.
Proof.
  intros Horder. unfold keptAfter, evictOldest, pinned. rewrite Horder.
  destruct (Js.truthy oldest && negb (bool_decide (Some oldest = activeFile s))) eqn:E;
    simpl.
  - rewrite delete_filter, list_filter_filter. apply list_filter_iff.
    intros [k v]; simpl. rewrite not_elem_of_cons.
    apply andb_true_iff in E as [Ht Ha]. apply negb_true_iff, bool_decide_eq_false in Ha.
    rewrite orb_true_iff, negb_true_iff, bool_decide_eq_true.
    split.
    + intros [[Hk|Hk]|[Hne Hnot]].
      * split; [by left; left|]. intros ->. by rewrite Ht in Hk.
      * split; [by left; right|]. by intros ->.
      * split; [by right | done].
    + intros [[Hp|Hnot] Hne]; [by left | by right].
  - apply list_filter_iff. intros [k v]; simpl. rewrite not_elem_of_cons.
    rewrite orb_true_iff, negb_true_iff, bool_decide_eq_true.
    split; [intros [Hp|[_ Hnot]]; [by left | by right]|].
    intros [Hp|Hnot]; [by left|].
    destruct (decide (k = oldest)) as [->|Hne]; [|by right].
    left. apply andb_false_iff in E as [Ht|Ha].
    + left. by rewrite Ht.
    + right. by apply negb_false_iff, bool_decide_eq_true in Ha.
Qed.

Lemma keptAfter_nil s : keptAfter s [] = summaries s.
Proof.
  unfold keptAfter. induction (summaries s) as [|kv m IH]; [done|].
  rewrite filter_cons_True; [by rewrite IH|]. right. apply not_elem_of_nil.
Qed.

(** The eviction loop pops a prefix of the recency list and stops at the
    first moment the map is within its limit. *)
Lemma evictIfNeeded_popped fuel s s' :
  evictIfNeeded fuel s = Some s' ->
  exists popped,
    accessOrder s = popped ++ accessOrder s' /\
    summaries s' = keptAfter s popped /\
    (Z.of_nat (length (keptAfter s popped)) <= maxTrackedFiles (config s))%Z /\
    forall n, n < length popped ->
      (maxTrackedFiles (config s) < Z.of_nat (length (keptAfter s (take n popped))))%Z.
Proof.
  revert s. induction fuel as [|fuel IH]; intros s; simpl;
    destruct (overLimit s) eqn:Hover; try done.
  - intros [= <-]. exists []. rewrite keptAfter_nil.
    unfold overLimit, JsMap.size in Hover. apply bool_decide_eq_false in Hover.
    repeat split; try done; [lia | simpl; lia].
  - intros Hrun. destruct (IH _ Hrun) as (popped & Horder & Hmap & Hfit & Hmin).
    rewrite evictOldest_config in Hfit, Hmin.
    unfold overLimit, JsMap.size in Hover. apply bool_decide_eq_true in Hover.
    destruct (accessOrder s) as [|oldest rest] eqn:Hs.
    + assert (evictOldest s = s) as Hsame by (unfold evictOldest; by rewrite Hs).
      rewrite Hsame in *. exists popped. by rewrite Hs in Horder.
    + exists (oldest :: popped).
      rewrite evictOldest_order, Hs in Horder. simpl in Horder.
      split; [simpl; by rewrite <- Horder|].
      rewrite (keptAfter_step s oldest rest popped Hs).
      split; [done|]. split; [done|].
      intros [|n] Hn; simpl in *.
      * rewrite keptAfter_nil. lia.
      * rewrite (keptAfter_step s oldest rest _ Hs). apply Hmin. lia.
  - intros [= <-]. exists []. rewrite keptAfter_nil.
    unfold overLimit, JsMap.size in Hover. apply bool_decide_eq_false in Hover.
    repeat split; try done; [lia | simpl; lia].
Qed.

(** X1. Eviction is strict least-recently-used.  When the eviction loop
    ends, it has popped a prefix of the recency list, the map holds the
    entries it held before except those of the popped paths that are not
    pinned (the active path and the empty string are), and the loop
    stopped at the first moment the map was within its limit: after any
    shorter prefix it was still over it. *)
Theorem eviction_is_least_recently_used fuel s s' :
  evictIfNeeded fuel s = Some s' ->
  exists popped,
    accessOrder s = popped ++ accessOrder s' /\
    summaries s' = keptAfter s popped /\
    (Z.of_nat (length (keptAfter s popped)) <= maxTrackedFiles (config s))%Z /\
    forall n, n < length popped ->
      (maxTrackedFiles (config s) < Z.of_nat (length (keptAfter s (take n popped))))%Z.
Proof. apply evictIfNeeded_popped. Qed.

(** X2. The invariants of the data model hold in a new [ContextState]
    and are kept by every operation: the map of summaries holds a key at
    most once and the recency list holds a path at most once after
    [setActiveFile], [clearActiveFile], [setSummary] and [forget]. *)
Theorem operations_keep_invariants s :
  wellFormed s ->
  (forall p, wellFormed (setActiveFile s p).1) /\
  wellFormed (clearActiveFile s) /\
  (forall p, wellFormed (forget s p).1) /\
  (forall fuel now p sm c s',
     setSummary fuel now s p sm c = Some s' -> wellFormed s').
Proof.
  intros Hwf.
  split; [intros p; by apply wellFormed_setActiveFile|].
  split; [by apply wellFormed_clearActiveFile|].
  split; [intros p; by apply wellFormed_forget|].
  intros fuel now p sm c s' Hrun. by eapply wellFormed_setSummary.
Qed.

(** X3. [setActiveFile] returns the path that was active, makes the
    normalized path the active one and the most recently used one (last
    in the recency list, in which it occurs once), keeps the other paths
    of the list in their order, and touches neither the summaries nor the
    configuration. *)
Theorem setActiveFile_bumps s p :
  (setActiveFile s p).2 = getActiveFile s /\
  isActive (setActiveFile s p).1 p = true /\
  last (accessOrder (setActiveFile s p).1) = Some (normalizePath p) /\
  filter (fun q => q <> normalizePath p) (accessOrder (setActiveFile s p).1)
  = filter (fun q => q <> normalizePath p) (accessOrder s) /\
  length (filter (fun q => q = normalizePath p) (accessOrder (setActiveFile s p).1)) = 1 /\
  summaries (setActiveFile s p).1 = summaries s /\
  config (setActiveFile s p).1 = config s.
Proof.
  unfold setActiveFile, isActive, getActiveFile; simpl.
  split; [done|]. split; [by rewrite bool_decide_eq_true_2|].
  split; [by rewrite last_snoc|].
  split.
  { rewrite filter_app, list_filter_filter. rewrite filter_cons_False by (simpl; auto).
    rewrite filter_nil, app_nil_r. apply list_filter_iff.
    intros q. split; [by intros [? _] | by intros ?; split]. }
  split; [|done].
  rewrite filter_app, list_filter_filter.
  rewrite (filter_cons_True (fun q => q = normalizePath p)) by done.
  rewrite filter_nil.
  replace (filter (fun a => a = normalizePath p /\ a <> normalizePath p) (accessOrder s))
    with (@nil string); [done|].
  symmetry. induction (accessOrder s) as [|x l IH]; [done|].
  rewrite filter_cons_False; [done|]. by intros [-> ?].
Qed.

(** X4. Insert and lookup.  When the path already has an entry and the
    map is within its limit, or the map has room for one more entry,
    [setSummary] returns at once, evicts nothing, [getSummary] of the path
    gives the entry just stored, and the entry of every other path is the
    one it was. *)
Theorem setSummary_then_getSummary fuel now s p sm c :
  (JsMap.has (normalizePath p) (summaries s) = true /\
   (Z.of_nat (JsMap.size (summaries s)) <= maxTrackedFiles (config s))%Z)
  \/ (Z.of_nat (JsMap.size (summaries s)) < maxTrackedFiles (config s))%Z ->
  exists s',
    setSummary fuel now s p sm c = Some s' /\
    getSummary s' p = Some (entryOf now s p sm c) /\
    (forall q, normalizePath q <> normalizePath p -> getSummary s' q = getSummary s q) /\
    activeFile s' = activeFile s /\
    last (accessOrder s') = Some (normalizePath p).
Proof.
  intros Hroom. exists (storeSummary now s p sm c).
  assert (overLimit (storeSummary now s p sm c) = false) as Hover.
  { unfold overLimit. apply bool_decide_eq_false. simpl.
    destruct (JsMap.has (normalizePath p) (summaries s)) eqn:Hhas.
    - rewrite size_set_present by done. destruct Hroom as [[_ ?]|?]; lia.
    - rewrite size_set_absent by done. destruct Hroom as [[? _]|?]; [done|lia]. }
  split; [unfold setSummary; destruct fuel; simpl; by rewrite Hover|].
  split; [apply storeSummary_get|].
  split; [|split; [done | simpl; by rewrite last_snoc]].
  intros q Hq. unfold getSummary; simpl. by apply get_set_ne.
Qed.

(** X5. [isStale] fails open: it answers false exactly when the path has
    an entry, the file can be read, and the digest of what is read is
    the digest stored with the entry; with no entry, or with a file that
    cannot be read, it answers true. *)
Theorem isStale_false_iff s disk p :
  isStale s disk p = false <->
  exists cached content,
    getSummary s p = Some cached /\
    readFileSync disk p = Some content /\
    hashContent content = contentHash cached.
Proof.
  unfold isStale, getSummary. split.
  - destruct (JsMap.get (normalizePath p) (summaries s)) as [cached|]; [|done].
    destruct (readFileSync disk p) as [content|]; [|done].
    intros Hfresh. apply negb_false_iff, bool_decide_eq_true in Hfresh. eauto.
  - intros (cached & content & -> & -> & Hhash). by rewrite bool_decide_eq_true_2.
Qed.

(** X6. [forget] of one path leaves the others alone, and a second
    [forget] of the path changes nothing and returns false. *)
Theorem forget_frame_and_again s p :
  (forall q, normalizePath q <> normalizePath p ->
     getSummary (forget s p).1 q = getSummary s q) /\
  (forall q, q <> normalizePath p -> getActiveFile s = Some q ->
     getActiveFile (forget s p).1 = Some q) /\
  config (forget s p).1 = config s /\
  forget (forget s p).1 p = ((forget s p).1, false).
Proof.
  split.
  { intros q Hq. unfold forget, getSummary; simpl.
    destruct (bool_decide (activeFile s = Some (normalizePath p))); simpl;
      by apply get_delete_ne. }
  split.
  { intros q Hq Hactive. rewrite forget_activeFile. unfold isActive, getActiveFile in *.
    rewrite bool_decide_eq_false_2; [done|]. congruence. }
  split.
  { unfold forget; simpl.
    by destruct (bool_decide (activeFile s = Some (normalizePath p))). }
  unfold forget; simpl.
  assert (JsMap.delete (normalizePath p) (JsMap.delete (normalizePath p) (summaries s))
          = JsMap.delete (normalizePath p) (summaries s)) as Hdel.
  { rewrite !delete_filter. apply list_filter_filter_l. naive_solver. }
  assert (forall l : list string,
            filter (fun q => q <> normalizePath p) (filter (fun q => q <> normalizePath p) l)
            = filter (fun q => q <> normalizePath p) l) as Hfil.
  { intros l. apply list_filter_filter_l. naive_solver. }
  assert (JsMap.has (normalizePath p) (JsMap.delete (normalizePath p) (summaries s)) = false)
    as Hhas.
  { unfold JsMap.has. by rewrite get_delete_eq. }
  destruct (bool_decide (activeFile s = Some (normalizePath p))) eqn:Hact; simpl.
  - rewrite Hdel, Hfil, Hhas. done.
  - rewrite Hact. simpl. rewrite Hdel, Hfil, Hhas. done.
Qed.

Lemma filter_or_length {A} (P Q : A -> Prop)
    `{!forall x, Decision (P x)} `{!forall x, Decision (Q x)} (l : list A) :
  length (filter (fun x => P x \/ Q x) l) <= length (filter P l) + length (filter Q l).
Proof.
  induction l as [|x l IH]; [done|].
  rewrite !filter_cons.
  destruct (decide (P x \/ Q x)) as [Hor|Hnor], (decide (P x)), (decide (Q x));
    simpl; try lia; tauto.
Qed.

Lemma wf_key_once {V} (m : list (string * V)) k :
  JsMap.wf m -> length (filter (fun kv => kv.1 = k) m) <= 1.
Proof.
  unfold JsMap.wf, JsMap.keys. induction m as [|[k' v] m IH]; simpl; [lia|].
  intros Hnd. apply NoDup_cons in Hnd as [Hnotin Hnd].
  rewrite filter_cons. destruct (decide ((k', v).1 = k)) as [Heq|Hne]; [|by apply IH].
  simpl in *. subst k'.
  replace (filter (fun kv : string * V => kv.1 = k) m) with (@nil (string * V)); [done|].
  symmetry. clear IH Hnd. induction m as [|[k2 v2] m IH]; [done|].
  simpl in Hnotin. apply not_elem_of_cons in Hnotin as [Hne Hnotin].
  rewrite filter_cons_False by (simpl; congruence). by apply IH.
Qed.

Lemma get_filter_wf {V} (P : string * V -> Prop) `{!forall kv, Decision (P kv)}
    (m : list (string * V)) k v :
  JsMap.wf m -> JsMap.get k m = Some v -> P (k, v) ->
  JsMap.get k (filter P m) = Some v.
Proof.
  unfold JsMap.wf, JsMap.keys. induction m as [|[k' v'] m IH]; simpl; [done|].
  intros Hnd. apply NoDup_cons in Hnd as [Hnotin Hnd].
  destruct (decide (k' = k)) as [->|Hne].
  - intros [= ->] HP. rewrite filter_cons_True by done. simpl. by rewrite decide_True.
  - intros Hget HP. rewrite filter_cons. destruct (decide (P (k', v'))); simpl.
    + rewrite decide_False by done. by apply IH.
    + by apply IH.
Qed.

(** X8. Termination of [setSummary].  The call returns exactly when the
    entries that the eviction loop cannot delete (those whose key is the
    active path, the empty string, or a path missing from the recency
    list) fit the limit; it then returns within as many iterations as the
    recency list is long, and otherwise no number of iterations ends the
    loop. *)
Theorem setSummary_returns_exactly_when now s p sm c :
  let stored := storeSummary now s p sm c in
  ((exists fuel s', setSummary fuel now s p sm c = Some s')
   <-> (Z.of_nat (length (stuck stored)) <= maxTrackedFiles (config s))%Z) /\
  ((Z.of_nat (length (stuck stored)) <= maxTrackedFiles (config s))%Z ->
   exists s', setSummary (length (accessOrder stored)) now s p sm c = Some s') /\
  ((maxTrackedFiles (config s) < Z.of_nat (length (stuck stored)))%Z ->
   forall fuel, setSummary fuel now s p sm c = None).
Proof.
  intros stored. unfold setSummary. fold stored.
  replace (config s) with (config stored) by apply storeSummary_config.
  split; [apply settles_iff|].
  split; [apply settles_fuel|].
  intros Hover fuel. by apply evictIfNeeded_never.
Qed.

(** When the limit exceeds the number of entries that the loop cannot
    delete, the entry that [setSummary] stores is not evicted. *)
Lemma setSummary_get_stored fuel now s p sm c s' :
  JsMap.wf (summaries s) ->
  (Z.of_nat (length (stuck (storeSummary now s p sm c))) < maxTrackedFiles (config s))%Z ->
  setSummary fuel now s p sm c = Some s' ->
  getSummary s' p = Some (entryOf now s p sm c).
Proof.
  intros Hwf Hroom. set (stored := storeSummary now s p sm c) in *.
  assert (config stored = config s) as Hcfg by apply storeSummary_config.
  intros Hrun. unfold setSummary in Hrun. fold stored in Hrun.
  destruct (evictIfNeeded_popped _ _ _ Hrun) as (popped & Horder & Hmap & _ & Hmin).
  set (np := normalizePath p) in *.
  set (init := filter (fun q => q <> np) (accessOrder s)) in *.
  assert (accessOrder stored = init ++ [np]) as Hstored by done.
  assert (np ∉ init) as Hnotin.
  { unfold init. rewrite list_elem_of_filter. by intros [? _]. }
  assert (JsMap.wf (summaries stored)) as Hwf' by (by apply wf_set).
  assert (JsMap.get np (summaries stored) = Some (entryOf now s p sm c)) as Hget
    by apply get_set_eq.
  unfold getSummary. fold np. rewrite Hmap. unfold keptAfter.
  apply get_filter_wf; [done | done |]. simpl.
  destruct (decide (np ∈ popped)) as [Hin|Hout]; [|by right].
  exfalso.
  rewrite Hstored in Horder. symmetry in Horder.
  apply app_eq_app in Horder as [l [[Hp Hl]|[Hi Hl]]].
  - destruct l as [|x l].
    + rewrite app_nil_r in Hp. by subst popped.
    + simpl in Hl. injection Hl as <- Hl. symmetry in Hl.
      apply app_eq_nil in Hl as [-> _].
      specialize (Hmin (length init)). rewrite Hp, length_app in Hmin. simpl in Hmin.
      rewrite take_app_length in Hmin. specialize (Hmin ltac:(lia)).
      pose proof (filter_or_length (fun kv : string * CachedSummary => unevictable stored kv = true)
                    (fun kv => kv.1 = np) (summaries stored)) as Hlen.
      pose proof (wf_key_once (summaries stored) np Hwf') as Honce.
      assert (length (keptAfter stored init)
              <= length (filter (fun kv : string * CachedSummary =>
                                   unevictable stored kv = true \/ kv.1 = np)
                           (summaries stored))) as Hle.
      { unfold keptAfter.
        erewrite (list_filter_iff _ (fun kv : string * CachedSummary =>
                                       unevictable stored kv = true \/ kv.1 = np)); [done|].
        intros [k v]; simpl. unfold unevictable; simpl.
        rewrite orb_true_iff, negb_true_iff, bool_decide_eq_false.
        fold np init. rewrite elem_of_app, list_elem_of_singleton.
        destruct (decide (k = np)) as [->|Hne]; tauto. }
      unfold stuck in Hroom. lia.
  - rewrite Hi in Hnotin. apply Hnotin, elem_of_app. by left.
Qed.

(** X9. The summary just stored survives the eviction.  In a map that
    holds a key at most once, when the limit exceeds the number of
    entries that the loop cannot delete, [setSummary] returns, and
    [getSummary] of the path then gives the entry just stored. *)
Theorem setSummary_keeps_new_entry now s p sm c :
  JsMap.wf (summaries s) ->
  (Z.of_nat (length (stuck (storeSummary now s p sm c))) < maxTrackedFiles (config s))%Z ->
  (exists s',
     setSummary (length (accessOrder (storeSummary now s p sm c))) now s p sm c = Some s') /\
  forall fuel s',
    setSummary fuel now s p sm c = Some s' ->
    getSummary s' p = Some (entryOf now s p sm c).
Proof.
  intros Hwf Hroom. split.
  - unfold setSummary. apply settles_fuel. rewrite storeSummary_config. lia.
  - intros fuel s'. by apply setSummary_get_stored.
Qed.


Lemma fold_left_sum {A} (f : A -> Z) (l : list A) (a : Z) :
  fold_left (fun sum r => sum + f r)%Z l a = (a + sumZ (map f l))%Z.
Proof.
  revert a. induction l as [|x l IH]; intros a; simpl; [lia|].
  rewrite IH. unfold sumZ. simpl. lia.
Qed.

(** X7. [getStatus] lists one row per summary, in the order of the map,
    and its totals add up: the total saving is the sum of the savings of
    the rows, and the two size totals are the sums of the sizes stored. *)
Theorem getStatus_totals s :
  map Status.path (Status.summaries (getStatus s)) = JsMap.keys (summaries s) /\
  Status.totalFullSize (getStatus s) = sumZ (map (fun kv => fullSize kv.2) (summaries s)) /\
  Status.totalSummarySize (getStatus s)
  = sumZ (map (fun kv => summarySize kv.2) (summaries s)) /\
  Status.totalSavings (getStatus s)
  = sumZ (map Status.savings (Status.summaries (getStatus s))) /\
  Status.activeFile (getStatus s) = getActiveFile s.
Proof.
  unfold getStatus; simpl. rewrite !fold_left_sum, !map_map. simpl.
  split; [done|]. split; [done|]. split; [done|]. split; [|done].
  unfold JsMap.keys, sumZ.
  induction (summaries s) as [|kv m IH]; simpl; [done|]. lia.
Qed.

End MoreState.


(** * Further properties of the tools *)

Section MoreTools.
Context `{Host} `{Extractors}.
Implicit Types (w : World) (s : ContextState).

Lemma summarizeFile_config fuel w q w' :
  summarizeFile fuel w q = Some w' -> config (ctx w') = config (ctx w).
Proof.
  unfold summarizeFile. intros Hrun.
  repeat case_match; simplify_eq/=; try done.
  destruct (setSummary _ _ _ _ _ _) as [s'|] eqn:Hset; simplify_eq/=.
  by apply setSummary_config in Hset.
Qed.

Lemma summarizeFile_clock fuel w q w' :
  summarizeFile fuel w q = Some w' -> clock w' = clock w.
Proof.
  unfold summarizeFile. intros Hrun.
  repeat case_match; simplify_eq/=; try done.
  destruct (setSummary _ _ _ _ _ _) as [s'|] eqn:Hset; by simplify_eq/=.
Qed.

Lemma summarizePrevious_facts fuel w q w' :
  summarizePrevious fuel w q = Some w' ->
  disk w' = disk w /\ config (ctx w') = config (ctx w) /\
  activeFile (ctx w') = activeFile (ctx w) /\ clock w' = clock w.
Proof.
  unfold summarizePrevious. intros Hrun.
  repeat case_match; simplify_eq/=; try done.
  split; [by eapply summarizeFile_disk|].
  split; [by eapply summarizeFile_config|].
  split; [by eapply summarizeFile_activeFile | by eapply summarizeFile_clock].
Qed.

Lemma activateAndSummarize_facts fuel w q content w' :
  activateAndSummarize fuel w q content = Some w' ->
  disk w' = disk w /\ config (ctx w') = config (ctx w) /\
  activeFile (ctx w') = Some (normalizePath q).
Proof.
  unfold activateAndSummarize. intros Hrun.
  destruct (summarizePrevious fuel w q) as [w1|] eqn:Hprev; [|done].
  apply summarizePrevious_facts in Hprev as (Hd & Hc & _ & _). simpl in Hrun.
  repeat case_match; simplify_eq/=; try done.
  destruct (setSummary _ _ _ _ _ _) as [s'|] eqn:Hset; simplify_eq/=.
  split; [done|]. split.
  - apply setSummary_config in Hset. by rewrite Hset.
  - apply setSummary_activeFile in Hset. by rewrite Hset.
Qed.

Lemma relativePath_config s s' q :
  config s' = config s -> getRelativePath s' q = getRelativePath s q.
Proof. unfold getRelativePath. by intros ->. Qed.

Lemma readFile_threw fuel w p w' e :
  readFile fuel w p = Some (w', Threw e) ->
  w' = w /\
  e = ReadFailure (lookupCode w (absolutePathOf p)) (absolutePathOf p) /\
  readFileSync (disk w) (absolutePathOf p) = None.
Proof.
  unfold readFile. intros Hrun.
  destruct (readFileSync (disk w) (absolutePathOf p)); [|by simplify_eq].
  destruct (negb (isSupported (absolutePathOf p))); [by simplify_eq|].
  destruct (summarizePrevious _ _ _); by simplify_eq/=.
Qed.

Lemma peekFile_threw fuel w p w' e :
  peekFile fuel w p = Some (w', Threw e) ->
  w' = w /\
  e = ReadFailure (lookupCode w (absolutePathOf p)) (absolutePathOf p) /\
  readFileSync (disk w) (absolutePathOf p) = None.
Proof.
  unfold peekFile. intros Hrun.
  destruct (readFileSync (disk w) (absolutePathOf p)); [|by simplify_eq].
  repeat case_match; simplify_eq/=.
  destruct (setSummary _ _ _ _ _ _); by simplify_eq/=.
Qed.

Lemma editFile_threw fuel w p old new w' e :
  editFile fuel w p old new = Some (w', Threw e) -> w' = w.
Proof.
  unfold editFile. intros Hrun.
  repeat case_match; simplify_eq/=; try done.
  destruct (activateAndSummarize _ _ _ _); by simplify_eq/=.
Qed.

Lemma writeFile_threw fuel w p content w' e :
  writeFile fuel w p content = Some (w', Threw e) ->
  ctx w' = ctx w /\ disk w' = disk w /\ clock w' = clock w /\
  ((exists code, e = MkdirFailure code (path_dirname (absolutePathOf p)) /\
                 w' = w) \/
   (exists code, e = WriteFailure code (absolutePathOf p))).
Proof.
  unfold writeFile, ensureDirectory. intros Hrun.
  repeat case_match; simplify_eq/=; eauto 10.
  all: destruct (activateAndSummarize _ _ _ _); by simplify_eq/=.
Qed.

(** X10. A tool that fails has changed no file and no state.  When
    [readFile], [peekFile] or [editFile] throws, the state, the files,
    the directories and the clock are what they were; [readFile] and
    [peekFile] throw only the failure to read the file, with the code
    the file system gives.  When [writeFile] throws, the state, the
    files and the clock are what they were, and what it throws is the
    failure of [mkdirSync] on the directory, with nothing changed at
    all, or the failure of [writeFileSync] on the file, when the
    directories made before it stay. *)
Theorem failed_tool_changes_nothing fuel w p old new content w' e :
  (readFile fuel w p = Some (w', Threw e) ->
   w' = w /\
   e = ReadFailure (lookupCode w (absolutePathOf p)) (absolutePathOf p) /\
   readFileSync (disk w) (absolutePathOf p) = None) /\
  (peekFile fuel w p = Some (w', Threw e) ->
   w' = w /\
   e = ReadFailure (lookupCode w (absolutePathOf p)) (absolutePathOf p) /\
   readFileSync (disk w) (absolutePathOf p) = None) /\
  (editFile fuel w p old new = Some (w', Threw e) -> w' = w) /\
  (writeFile fuel w p content = Some (w', Threw e) ->
   ctx w' = ctx w /\ disk w' = disk w /\ clock w' = clock w /\
   ((exists code, e = MkdirFailure code (path_dirname (absolutePathOf p)) /\
                  w' = w) \/
    (exists code, e = WriteFailure code (absolutePathOf p)))).
Proof.
  split; [apply readFile_threw|]. split; [apply peekFile_threw|].
  split; [apply editFile_threw | apply writeFile_threw].
Qed.

(** X11. A tool touches no file but its own.  [readFile] and [peekFile]
    leave the whole disk as it was; after [editFile] and [writeFile]
    every file of another path reads as before. *)
Theorem tools_touch_only_their_file fuel w p old new content w' r :
  (readFile fuel w p = Some (w', r) -> disk w' = disk w) /\
  (peekFile fuel w p = Some (w', r) -> disk w' = disk w) /\
  (editFile fuel w p old new = Some (w', r) ->
   forall q, normalizePath q <> normalizePath (absolutePathOf p) ->
     readFileSync (disk w') q = readFileSync (disk w) q) /\
  (writeFile fuel w p content = Some (w', r) ->
   forall q, normalizePath q <> normalizePath (absolutePathOf p) ->
     readFileSync (disk w') q = readFileSync (disk w) q).
Proof.
  split; [|split; [|split]].
  - unfold readFile. intros Hrun.
    repeat case_match; simplify_eq/=; try done.
    destruct (summarizePrevious _ _ _) as [w1|] eqn:Hprev; simplify_eq/=.
    by apply summarizePrevious_facts in Hprev as (? & _).
  - unfold peekFile. intros Hrun.
    repeat case_match; simplify_eq/=; try done.
    destruct (setSummary _ _ _ _ _ _); by simplify_eq/=.
  - unfold editFile. intros Hrun q Hq.
    repeat case_match; simplify_eq/=; try done.
    all: match goal with
         | Hw : writeFileSync _ _ _ = inr _ |- _ =>
             apply writeFileSync_written in Hw; simpl in Hw; subst
         end.
    + unfold readFileSync. by apply lookup_insert_ne.
    + destruct (activateAndSummarize _ _ _ _) as [w2|] eqn:Hact; simplify_eq/=.
      apply activateAndSummarize_facts in Hact as (Hd & _). rewrite Hd. simpl.
      unfold readFileSync. by apply lookup_insert_ne.
  - unfold writeFile. intros Hrun q Hq.
    repeat case_match; simplify_eq/=; try done.
    all: match goal with
         | Hw : writeFileSync _ _ _ = inr _ |- _ =>
             apply writeFileSync_written in Hw; simpl in Hw; subst
         end.
    + unfold readFileSync. by apply lookup_insert_ne.
    + destruct (activateAndSummarize _ _ _ _) as [w2|] eqn:Hact; simplify_eq/=.
      apply activateAndSummarize_facts in Hact as (Hd & _). rewrite Hd. simpl.
      unfold readFileSync. by apply lookup_insert_ne.
Qed.

(** X12. Write, then read.  After a [writeFile] that returned, the file
    holds the content written, a file of a supported type is the active
    one, and a [readFile] of the same path that returns gives the full
    header followed by that content and keeps the file active. *)
Theorem writeFile_then_readFile fuel fuel' w p c w1 t1 w2 r2 :
  writeFile fuel w p c = Some (w1, Returned t1) ->
  readFile fuel' w1 p = Some (w2, r2) ->
  readFileSync (disk w1) (absolutePathOf p) = Some c /\
  r2 = Returned
         (if isSupported (absolutePathOf p)
          then formatFileHeader (getRelativePath (ctx w) (absolutePathOf p)) false
               +:+ newline +:+ newline +:+ c
          else unsupportedRead w (absolutePathOf p) c) /\
  disk w2 = disk w1 /\
  (isSupported (absolutePathOf p) = true ->
   isActive (ctx w1) (absolutePathOf p) = true /\
   isActive (ctx w2) (absolutePathOf p) = true).
Proof.
  intros Hwrite Hread.
  assert (disk w1 = <[normalizePath (absolutePathOf p) := c]> (disk w) /\
          config (ctx w1) = config (ctx w) /\
          (isSupported (absolutePathOf p) = true ->
           activeFile (ctx w1) = Some (normalizePath (absolutePathOf p))))
    as (Hdisk & Hcfg & Hactive).
  { unfold writeFile in Hwrite.
    destruct (ensureDirectory w (absolutePathOf p)) as [|made];
      [by simplify_eq|].
    destruct (writeFileSync _ _ _) as [|written] eqn:Hw; [by simplify_eq|].
    apply writeFileSync_written in Hw. simpl in Hw. subst written.
    destruct (isSupported (absolutePathOf p)); simpl in Hwrite; [|by simplify_eq].
    destruct (activateAndSummarize _ _ _ _) as [w'|] eqn:Hact; simplify_eq/=.
    by apply activateAndSummarize_facts in Hact as (? & ? & ?). }
  assert (readFileSync (disk w1) (absolutePathOf p) = Some c) as Hc.
  { rewrite Hdisk. unfold readFileSync. apply lookup_insert_eq. }
  split; [done|].
  unfold readFile in Hread. rewrite Hc in Hread.
  rewrite (relativePath_config _ _ _ Hcfg) in Hread.
  destruct (isSupported (absolutePathOf p)); simpl in Hread.
  - destruct (summarizePrevious _ _ _) as [w'|] eqn:Hprev; simplify_eq/=.
    apply summarizePrevious_facts in Hprev as (Hd & _ & _ & _).
    split; [done|]. split; [done|]. intros _. unfold isActive. simpl.
    by rewrite Hactive, !bool_decide_eq_true_2.
  - simplify_eq. by repeat split.
Qed.

(** X13. [fileStatus] fails in one case only: there is at least one
    cached summary, and the active file cannot be read. *)
Theorem fileStatus_throws_iff w :
  (exists e, fileStatus w = Threw e) <->
  summaries (ctx w) <> [] /\
  exists active, getActiveFile (ctx w) = Some active /\ Js.truthy active = true /\
                 readFileSync (disk w) active = None.
Proof.
  unfold fileStatus, activeSize, getActiveFile. simpl.
  destruct (summaries (ctx w)) as [|kv m]; simpl.
  { split; [by intros [e ?] | by intros [? _]]. }
  destruct (activeFile (ctx w)) as [active|]; simpl.
  2: { split; [by intros [e ?] | by intros [_ (a & ? & _)]]. }
  destruct (Js.truthy active) eqn:Htruthy.
  2: { split; [by intros [e ?] | intros [_ (a & ? & ? & _)]; simplify_eq; congruence]. }
  destruct (readFileSync (disk w) active) eqn:Hread.
  - split; [by intros [e ?] | intros [_ (a & ? & ? & ?)]; simplify_eq; congruence].
  - split; [|by eauto]. intros _. split; [done|]. by exists active.
Qed.

(** X14. The set of supported extensions and the chain of parsers
    agree: [isSupported] accepts a path exactly when [parseFile] has a
    parser for it (its result is not null), whatever the content. *)
Theorem isSupported_iff_parseFile filePath content :
  isSupported filePath = true <-> is_Some (parseFile filePath content).
Proof.
  unfold isSupported, parseFile, SUPPORTED_EXTENSIONS, Rust.supportsExtension,
    Php.supportsExtension, pythonSupports, tsSupports, csharpSupports, gdscriptSupports.
  generalize (Js.toLowerCase (path_extname filePath)). intros ext.
  rewrite bool_decide_eq_true, !elem_of_cons, elem_of_nil.
  repeat (case_bool_decide; simpl); split; intros Hyp; try (by eexists); try tauto;
    destruct Hyp as [? Hyp]; done.
Qed.

Lemma size_set_le {V} k (v : V) m : JsMap.size (JsMap.set k v m) <= JsMap.size m + 1.
Proof.
  destruct (JsMap.has k m) eqn:Hhas.
  - rewrite size_set_present by done. lia.
  - rewrite size_set_absent by done. lia.
Qed.

(** With room for one more entry, [setSummary] evicts nothing. *)
Lemma setSummary_room fuel now s p sm c :
  (Z.of_nat (JsMap.size (summaries s)) < maxTrackedFiles (config s))%Z ->
  setSummary fuel now s p sm c = Some (storeSummary now s p sm c).
Proof.
  intros Hroom. unfold setSummary.
  assert (overLimit (storeSummary now s p sm c) = false) as Hover.
  { unfold overLimit. apply bool_decide_eq_false. simpl.
    pose proof (size_set_le (normalizePath p) (entryOf now s p sm c) (summaries s)).
    unfold entryOf in *. lia. }
  destruct fuel; simpl; by rewrite Hover.
Qed.

Lemma summarizeFile_room fuel w q :
  (Z.of_nat (JsMap.size (summaries (ctx w))) < maxTrackedFiles (config (ctx w)))%Z ->
  exists w', summarizeFile fuel w q = Some w' /\
             JsMap.size (summaries (ctx w')) <= JsMap.size (summaries (ctx w)) + 1.
Proof.
  intros Hroom. unfold summarizeFile.
  destruct (readFileSync (disk w) q) as [content|]; [|exists w; split; [done|lia]].
  destruct (parseFile q content) as [[m sm|e]|]; try (exists w; split; [done|lia]).
  rewrite setSummary_room by done. simpl. eexists. split; [done|]. simpl.
  apply size_set_le.
Qed.

Lemma summarizePrevious_room fuel w q :
  (Z.of_nat (JsMap.size (summaries (ctx w))) < maxTrackedFiles (config (ctx w)))%Z ->
  exists w', summarizePrevious fuel w q = Some w' /\
             JsMap.size (summaries (ctx w')) <= JsMap.size (summaries (ctx w)) + 1.
Proof.
  intros Hroom. unfold summarizePrevious.
  destruct (getActiveFile (ctx w)) as [a|]; [|exists w; split; [done|lia]].
  destruct (Js.truthy a && negb (bool_decide (a = q))); [|exists w; split; [done|lia]].
  by apply summarizeFile_room.
Qed.

Lemma activateAndSummarize_room fuel w q content :
  (Z.of_nat (JsMap.size (summaries (ctx w))) + 2 <= maxTrackedFiles (config (ctx w)))%Z ->
  exists w', activateAndSummarize fuel w q content = Some w'.
Proof.
  intros Hroom. unfold activateAndSummarize.
  destruct (summarizePrevious_room fuel w q ltac:(lia)) as (w1 & Hprev & Hsize).
  rewrite Hprev. simpl.
  apply summarizePrevious_facts in Hprev as (_ & Hcfg & _ & _).
  destruct (parseFile q content) as [[m sm|e]|]; try by eexists.
  rewrite setSummary_room; [by eexists|]. simpl. rewrite Hcfg. lia.
Qed.

(** X15. With room for two more entries in the cache, every tool
    returns: no call of [readFile], [peekFile], [editFile] or [writeFile]
    can stay in the eviction loop, whatever the files hold. *)
Theorem tools_return_with_room fuel w p old new content :
  (Z.of_nat (JsMap.size (summaries (ctx w))) + 2 <= maxTrackedFiles (config (ctx w)))%Z ->
  (exists w' r, readFile fuel w p = Some (w', r)) /\
  (exists w' r, peekFile fuel w p = Some (w', r)) /\
  (exists w' r, editFile fuel w p old new = Some (w', r)) /\
  (exists w' r, writeFile fuel w p content = Some (w', r)).
Proof.
  intros Hroom. split; [|split; [|split]].
  - unfold readFile. repeat case_match; try by eauto.
    destruct (summarizePrevious_room fuel w (absolutePathOf p) ltac:(lia)) as (w1 & -> & _).
    simpl. by eauto.
  - unfold peekFile. repeat case_match; try by eauto.
    rewrite setSummary_room by lia. simpl. by eauto.
  - unfold editFile. repeat case_match; try by eauto.
    match goal with
    | |- context [activateAndSummarize ?f ?w1 ?q ?c] =>
        destruct (activateAndSummarize_room f w1 q c ltac:(simpl; lia)) as (w2 & ->)
    end.
    simpl. by eauto.
  - unfold writeFile. repeat case_match; try by eauto.
    match goal with
    | |- context [activateAndSummarize ?f ?w1 ?q ?c] =>
        destruct (activateAndSummarize_room f w1 q c ltac:(simpl; lia)) as (w2 & ->)
    end.
    simpl. by eauto.
Qed.

(** X16. Switching files compacts the previous one.  When the active
    file is another file that can be read and parsed, a [readFile] of a
    supported file returns its full content, makes it the active file
    and the most recently used one, and leaves in the cache the summary
    of the file that was active, with the digest and the sizes of its
    content.  The cache holds a key once and the limit exceeds the number
    of entries that cannot be evicted. *)
Theorem readFile_compacts_previous w p previous content previousContent model formatted :
  isSupported (absolutePathOf p) = true ->
  readFileSync (disk w) (absolutePathOf p) = Some content ->
  getActiveFile (ctx w) = Some previous ->
  Js.truthy previous = true ->
  previous <> absolutePathOf p ->
  readFileSync (disk w) previous = Some previousContent ->
  parseFile previous previousContent = Some (ParseResult model formatted) ->
  JsMap.wf (summaries (ctx w)) ->
  (Z.of_nat (length (stuck (storeSummary (clock w) (ctx w) previous formatted previousContent)))
   < maxTrackedFiles (config (ctx w)))%Z ->
  (exists fuel w' r, readFile fuel w p = Some (w', r)) /\
  forall fuel w' r,
    readFile fuel w p = Some (w', r) ->
    r = Returned (formatFileHeader (getRelativePath (ctx w) (absolutePathOf p)) false
                  +:+ newline +:+ newline +:+ content) /\
    isActive (ctx w') (absolutePathOf p) = true /\
    last (accessOrder (ctx w')) = Some (normalizePath (absolutePathOf p)) /\
    getSummary (ctx w') previous
    = Some (entryOf (clock w) (ctx w) previous formatted previousContent).
Proof.
  intros Hsup Hread Hactive Htruthy Hne Hprev Hparse Hwf Hroom.
  assert (forall fuel, summarizePrevious fuel w (absolutePathOf p)
            = s ← setSummary fuel (clock w) (ctx w) previous formatted previousContent;
              Some (withCtx w s)) as Hstep.
  { intros fuel. unfold summarizePrevious, summarizeFile.
    rewrite Hactive, Htruthy, bool_decide_eq_false_2 by done. simpl.
    by rewrite Hprev, Hparse. }
  split.
  - destruct (settles_fuel (storeSummary (clock w) (ctx w) previous formatted previousContent))
      as [s' Hset]; [rewrite storeSummary_config; lia|].
    eexists _, _, _. unfold readFile. rewrite Hread, Hsup. simpl.
    rewrite Hstep. unfold setSummary. rewrite Hset. simpl. done.
  - intros fuel w' r. unfold readFile. rewrite Hread, Hsup. simpl. rewrite Hstep.
    destruct (setSummary fuel _ _ _ _ _) as [s'|] eqn:Hset; [|done]. simpl.
    intros [= <- <-]. split; [done|].
    split; [unfold isActive; simpl; by rewrite bool_decide_eq_true_2|].
    split; [simpl; by rewrite last_snoc|].
    unfold getSummary. simpl.
    by apply (setSummary_get_stored _ _ _ _ _ _ _ Hwf Hroom Hset).
Qed.

(** X17. The empty [old_string].  [editFile] never reports it as not
    found: on a file of three code units or more it fails as ambiguous,
    with a count of one less than the length of the file, and writes
    nothing; on a shorter file it puts the replacement in front of the
    content. *)
Theorem editFile_empty_old fuel w p new content :
  readFileSync (disk w) (absolutePathOf p) = Some content ->
  (2 < String.length content ->
   editFile fuel w p "" new
   = Some (w, Threw (AmbiguousMatch (Z.of_nat (String.length content) - 1)
                       (getRelativePath (ctx w) (absolutePathOf p))))) /\
  (String.length content <= 2 ->
   forall w' r, editFile fuel w p "" new = Some (w', r) ->
     readFileSync (disk w') (absolutePathOf p)
     = Some (Js.getSubstitution "" "" content new +:+ content) /\
     exists text, r = Returned text).
Proof.
  intros Hread.
  assert (Js.search "" content = Some (EmptyString, content)) as Hsearch
    by (by destruct content).
  assert (Js.includes content "" = true) as Hinc by (unfold Js.includes; by rewrite Hsearch).
  assert (countOccurrences content "" = (Z.of_nat (String.length content) - 1)%Z) as Hcount.
  { unfold countOccurrences, Js.split. f_equal. f_equal.
    clear. induction content as [|c content IH]; simpl; [done|]. by rewrite IH. }
  split.
  - intros Hlong. rewrite <- Hcount. eapply editFile_ambiguous; [done | done |].
    rewrite Hcount. lia.
  - intros Hshort w' r Hrun.
    destruct (editFile_written fuel w p "" new content w' r Hread Hinc ltac:(lia) Hrun)
      as [Hdisk Hr].
    split; [|done]. rewrite Hdisk. unfold Js.replace. by rewrite Hsearch.
Qed.

(** X18. The edit of the one occurrence.  For a non-empty [old_string]
    that [editFile] counts at most once and a [new_string] without a
    dollar sign, the file holds afterwards what was before the
    occurrence, the new string, and what was after it, and [old_string]
    does not occur in that last part. *)
Theorem editFile_replaces_the_occurrence fuel w p old new content before after w' r :
  readFileSync (disk w) (absolutePathOf p) = Some content ->
  old <> EmptyString ->
  Js.search old content = Some (before, after) ->
  (countOccurrences content old <= 1)%Z ->
  hasUnit "$" new = false ->
  editFile fuel w p old new = Some (w', r) ->
  content = before +:+ old +:+ after /\
  Js.includes after old = false /\
  readFileSync (disk w') (absolutePathOf p) = Some (before +:+ new +:+ after) /\
  exists text, r = Returned text.
Proof.
  intros Hread Hold Hsearch Hcount Hplain Hrun.
  assert (Js.includes content old = true) as Hinc
    by (unfold Js.includes; by rewrite Hsearch).
  destruct (replace_plain content old new before after Hplain Hsearch) as [Hsplit Hrepl].
  destruct (editFile_written fuel w p old new content w' r Hread Hinc Hcount Hrun)
    as [Hdisk Hr].
  split; [done|]. split; [|split; [by rewrite Hdisk, Hrepl | done]].
  unfold countOccurrences, Js.split in Hcount.
  destruct old as [|c old]; [done|].
  unfold Js.includes.
  destruct (Js.search (String c old) after) as [[b a]|] eqn:Hafter; [|done].
  exfalso.
  destruct (String.length content) as [|n] eqn:Hlen.
  - subst content. rewrite !length_append in Hlen. simpl in Hlen. lia.
  - simpl in Hcount. rewrite Hsearch in Hcount. simpl in Hcount.
    destruct n as [|n].
    + subst content. rewrite !length_append in Hlen. simpl in Hlen.
      assert (after = EmptyString) as -> by (destruct after; [done | simpl in Hlen; lia]).
      done.
    + simpl in Hcount. rewrite Hafter in Hcount. simpl in Hcount.
      pose proof (splitLoop_pieces n (String c old) a). lia.
Qed.


Lemma append_associative (a b c : string) : (a +:+ b) +:+ c = a +:+ b +:+ c.
Proof.
  induction a as [|x a IH]; [done|].
  change (String x ((a +:+ b) +:+ c) = String x (a +:+ b +:+ c)). by rewrite IH.
Qed.

Lemma Forall_set {V} (P : string * V -> Prop) k v m :
  Forall P m -> P (k, v) -> Forall P (JsMap.set k v m).
Proof.
  intros Hm Hkv. induction Hm as [|[k' v'] m Hx Hm IH]; simpl.
  - by constructor.
  - destruct (decide (k' = k)); by constructor.
Qed.

Lemma Forall_filter_keeps {A} (P Q : A -> Prop) `{!forall x, Decision (Q x)} (l : list A) :
  Forall P l -> Forall P (filter Q l).
Proof.
  rewrite !Forall_forall. intros Hl x Hx. apply list_elem_of_filter in Hx as [_ Hx]. auto.
Qed.

Lemma size_filter_le {V} (Q : string * V -> Prop) `{!forall x, Decision (Q x)}
    (m : list (string * V)) :
  JsMap.size (filter Q m) <= JsMap.size m.
Proof. apply length_filter. Qed.

(** ** What holds of every state of a server process *)

Lemma invariant_same_ctx w w' : ctx w' = ctx w -> invariant w -> invariant w'.
Proof. intros Hctx [? ? ? ? ?]. split; by rewrite Hctx. Qed.

Lemma invariant_setSummary fuel w q sm c m s' :
  invariant w ->
  parseFile q c = Some (ParseResult m sm) ->
  setSummary fuel (clock w) (ctx w) q sm c = Some s' ->
  invariant (withCtx w s').
Proof.
  intros [Hcfg Hwf Hsize Hsound Hactive] Hparse Hset. split; simpl.
  - by rewrite (setSummary_config _ _ _ _ _ _ _ Hset).
  - by eapply wellFormed_setSummary.
  - pose proof (evictIfNeeded_within_limit _ _ _ Hset) as Hlim.
    rewrite storeSummary_config, Hcfg in Hlim. done.
  - unfold setSummary in Hset.
    destruct (evictIfNeeded_popped _ _ _ Hset) as (popped & _ & -> & _).
    apply Forall_filter_keeps. simpl. apply Forall_set; [done|].
    exists q, c, m. by repeat split.
  - intros a. rewrite (setSummary_activeFile _ _ _ _ _ _ _ Hset). apply Hactive.
Qed.

Lemma invariant_setActiveFile w q :
  invariant w -> isSupported (absolutePathOf q) = true ->
  invariant (withCtx w (setActiveFile (ctx w) (absolutePathOf q)).1).
Proof.
  intros [Hcfg Hwf Hsize Hsound Hactive] Hsup. split; simpl; try done.
  - by apply (wellFormed_setActiveFile (ctx w)).
  - intros a [= <-]. by exists q.
Qed.

Lemma invariant_forget w q : invariant w -> invariant (withCtx w (forget (ctx w) q).1).
Proof.
  intros [Hcfg Hwf Hsize Hsound Hactive].
  assert (summaries (forget (ctx w) q).1
          = JsMap.delete (normalizePath q) (summaries (ctx w))) as Hmap.
  { unfold forget; simpl.
    by destruct (bool_decide (activeFile (ctx w) = Some (normalizePath q))). }
  split; cbn [ctx withCtx].
  - unfold forget; simpl.
    by destruct (bool_decide (activeFile (ctx w) = Some (normalizePath q))).
  - by apply wellFormed_forget.
  - rewrite Hmap, delete_filter.
    pose proof (size_filter_le (fun kv : string * CachedSummary => kv.1 <> normalizePath q)
                  (summaries (ctx w))). lia.
  - rewrite Hmap, delete_filter. by apply Forall_filter_keeps.
  - intros a Ha. apply Hactive. unfold forget in Ha; simpl in Ha.
    by destruct (bool_decide (activeFile (ctx w) = Some (normalizePath q))).
Qed.

Lemma invariant_summarizeFile fuel w q w' :
  invariant w -> summarizeFile fuel w q = Some w' -> invariant w'.
Proof.
  intros Hinv. unfold summarizeFile.
  destruct (readFileSync (disk w) q) as [content|]; [|by intros [= <-]].
  destruct (parseFile q content) as [[m sm|e]|] eqn:Hparse; try by intros [= <-].
  destruct (setSummary _ _ _ _ _ _) as [s'|] eqn:Hset; [|done].
  intros [= <-]. by eapply invariant_setSummary.
Qed.

Lemma invariant_summarizePrevious fuel w q w' :
  invariant w -> summarizePrevious fuel w q = Some w' -> invariant w'.
Proof.
  intros Hinv. unfold summarizePrevious.
  destruct (getActiveFile (ctx w)) as [a|]; [|by intros [= <-]].
  destruct (Js.truthy a && negb (bool_decide (a = q))); [|by intros [= <-]].
  by apply invariant_summarizeFile.
Qed.

Lemma invariant_activateAndSummarize fuel w q content w' :
  invariant w -> isSupported (absolutePathOf q) = true ->
  activateAndSummarize fuel w (absolutePathOf q) content = Some w' -> invariant w'.
Proof.
  intros Hinv Hsup. unfold activateAndSummarize.
  destruct (summarizePrevious _ _ _) as [w1|] eqn:Hprev; [|done]. simpl.
  apply invariant_summarizePrevious in Hprev; [|done].
  pose proof (invariant_setActiveFile w1 q Hprev Hsup) as Hinv2.
  destruct (parseFile (absolutePathOf q) content) as [[m sm|e]|] eqn:Hparse;
    try by intros [= <-].
  destruct (setSummary _ _ _ _ _ _) as [s'|] eqn:Hset; [|done].
  intros [= <-].
  by apply (invariant_setSummary fuel _ _ _ _ _ _ Hinv2 Hparse) in Hset.
Qed.

Lemma invariant_readFile fuel w p w' r :
  invariant w -> readFile fuel w p = Some (w', r) -> invariant w'.
Proof.
  intros Hinv. unfold readFile.
  destruct (readFileSync _ _) as [content|]; [|by intros [= <- _]].
  destruct (isSupported (absolutePathOf p)) eqn:Hsup; simpl; [|by intros [= <- _]].
  destruct (summarizePrevious _ _ _) as [w1|] eqn:Hprev; [|done]. simpl.
  intros [= <- _]. apply invariant_setActiveFile; [|done].
  by eapply invariant_summarizePrevious.
Qed.

Lemma invariant_peekFile fuel w p w' r :
  invariant w -> peekFile fuel w p = Some (w', r) -> invariant w'.
Proof.
  intros Hinv. unfold peekFile.
  destruct (readFileSync _ _) as [content|]; [|by intros [= <- _]].
  destruct (negb (isSupported (absolutePathOf p))); [by intros [= <- _]|].
  destruct (isActive _ _); [by intros [= <- _]|].
  destruct (freshSummary _ _); [by intros [= <- _]|].
  destruct (parseFile (absolutePathOf p) content) as [[m sm|e]|] eqn:Hparse;
    try by intros [= <- _].
  destruct (setSummary _ _ _ _ _ _) as [s'|] eqn:Hset; [|done].
  intros [= <- _]. by eapply invariant_setSummary.
Qed.

Lemma invariant_editFile fuel w p old new w' r :
  invariant w -> editFile fuel w p old new = Some (w', r) -> invariant w'.
Proof.
  intros Hinv. unfold editFile.
  destruct (readFileSync _ _) as [content|]; [|by intros [= <- _]].
  destruct (negb (Js.includes content old)); [by intros [= <- _]|].
  destruct (1 <? countOccurrences content old)%Z; [by intros [= <- _]|].
  destruct (writeFileSync _ _ _) as [|written]; [by intros [= <- _]|].
  destruct (isSupported (absolutePathOf p)) eqn:Hsup; simpl.
  - destruct (activateAndSummarize _ _ _ _) as [w2|] eqn:Hact; [|done].
    intros [= <- _].
    apply (invariant_activateAndSummarize _ _ _ _ _) in Hact; [done| |done].
    by apply (invariant_same_ctx w).
  - intros [= <- _]. by apply (invariant_same_ctx w).
Qed.

Lemma invariant_writeFile fuel w p content w' r :
  invariant w -> writeFile fuel w p content = Some (w', r) -> invariant w'.
Proof.
  intros Hinv. unfold writeFile.
  destruct (ensureDirectory _ _) as [|made]; [by intros [= <- _]|].
  destruct (writeFileSync _ _ _) as [|written];
    [intros [= <- _]; by apply (invariant_same_ctx w)|].
  destruct (isSupported (absolutePathOf p)) eqn:Hsup; simpl.
  - destruct (activateAndSummarize _ _ _ _) as [w2|] eqn:Hact; [|done].
    intros [= <- _].
    apply (invariant_activateAndSummarize _ _ _ _ _) in Hact; [done| |done].
    by apply (invariant_same_ctx w).
  - intros [= <- _]. by apply (invariant_same_ctx w).
Qed.

Lemma invariant_forgetFile w p : invariant w -> invariant (forgetFile w p).1.
Proof.
  intros Hinv. unfold forgetFile.
  pose proof (invariant_forget w (absolutePathOf p) Hinv) as Hinv'.
  by destruct (forget (ctx w) (absolutePathOf p)).
Qed.

Lemma invariant_callTool fuel w name args w' response :
  invariant w -> callTool fuel w name args = Some (w', response) -> invariant w'.
Proof.
  intros Hinv. unfold callTool.
  repeat case_match; try (by intros [= <- _]).
  - destruct (readFile _ _ _) as [[w1 r]|] eqn:Hrun; [|done].
    intros [= <- _]. by eapply invariant_readFile.
  - destruct (peekFile _ _ _) as [[w1 r]|] eqn:Hrun; [|done].
    intros [= <- _]. by eapply invariant_peekFile.
  - destruct (editFile _ _ _ _ _) as [[w1 r]|] eqn:Hrun; [|done].
    intros [= <- _]. by eapply invariant_editFile.
  - destruct (writeFile _ _ _ _) as [[w1 r]|] eqn:Hrun; [|done].
    intros [= <- _]. by eapply invariant_writeFile.
  - intros [= <- _].
    match goal with
    | Hf : forgetFile w ?q = _ |- _ =>
        pose proof (invariant_forgetFile w q Hinv) as Hinv'; by rewrite Hf in Hinv'
    end.
Qed.

(** X19. In every state that a server process can reach, whatever the
    calls, their arguments and the changes of the files in between: the
    configuration is the default one, the cache holds at most 50
    summaries, a key at most once, the recency list holds a path at most
    once, every cached summary is what the parser made of a content
    whose digest and size are stored with it, and the active file, if
    any, is a file of a supported type. *)
Theorem reachable_invariant w : reachable w -> invariant w.
Proof.
  induction 1 as [d ds t|fuel w name args w' response _ IH Hcall|w d ds t _ IH].
  - split; simpl; try done.
    + apply (wellFormed_new noConfig).
  - by eapply invariant_callTool.
  - by apply (invariant_same_ctx w).
Qed.

Lemma callTool_failure_unchanged fuel w name args w' text :
  callTool fuel w name args = Some (w', Content text true) ->
  ctx w' = ctx w /\ disk w' = disk w /\ clock w' = clock w /\
  (name <> "write_file" -> w' = w) /\
  exists e, text = "Error: " +:+ errorMessage e.
Proof.
  unfold callTool.
  repeat case_match; try (by intros [= <-]).
  - destruct (readFile _ _ _) as [[w1 [t|err]]|] eqn:Hrun; try by intros [= <-].
    intros [= <- <-]. apply readFile_threw in Hrun as [-> _]. by eauto 10.
  - destruct (peekFile _ _ _) as [[w1 [t|err]]|] eqn:Hrun; try by intros [= <-].
    intros [= <- <-]. apply peekFile_threw in Hrun as [-> _]. by eauto 10.
  - destruct (editFile _ _ _ _ _) as [[w1 [t|err]]|] eqn:Hrun; try by intros [= <-].
    intros [= <- <-]. apply editFile_threw in Hrun as ->. by eauto 10.
  - destruct (writeFile _ _ _ _) as [[w1 [t|err]]|] eqn:Hrun; try by intros [= <-].
    intros [= <- <-]. apply writeFile_threw in Hrun as (? & ? & ? & _).
    do 3 (split; [done|]). split; [by intros []|]. by eexists.
  - destruct (fileStatus w) as [t|err]; [by intros [= <-]|].
    intros [= <- <-]. by eauto 10.
  - unfold forgetFile in *. destruct (forget _ _). by simplify_eq.
Qed.

Lemma callTool_forwards_message fuel w name args path w' e :
  Args.path args = Some path -> falsy (Some path) = false ->
  (name = "read_file" -> readFile fuel w path = Some (w', Threw e) ->
   callTool fuel w name args
   = Some (w', Content ("Error: " +:+ errorMessage e) true)) /\
  (name = "peek_file" -> peekFile fuel w path = Some (w', Threw e) ->
   callTool fuel w name args
   = Some (w', Content ("Error: " +:+ errorMessage e) true)) /\
  (forall old new,
     name = "edit_file" ->
     Args.old_string args = Some old -> Args.new_string args = Some new ->
     editFile fuel w path old new = Some (w', Threw e) ->
     callTool fuel w name args
     = Some (w', Content ("Error: " +:+ errorMessage e) true)) /\
  (forall content,
     name = "write_file" -> Args.content args = Some content ->
     writeFile fuel w path content = Some (w', Threw e) ->
     callTool fuel w name args
     = Some (w', Content ("Error: " +:+ errorMessage e) true)).
Proof.
  intros Hpath Hfalsy. unfold callTool. rewrite Hpath, Hfalsy.
  split; [|split; [|split]].
  - by intros -> ->.
  - by intros -> ->.
  - by intros old new -> -> -> ->.
  - by intros content -> -> ->.
Qed.

(** X20. The handler.  A call that the handler rejects with an
    [McpError] changes nothing.  A call whose tool fails leaves the
    state, the files and the clock as they were, and everything else
    too unless the tool is [write_file], which may have made
    directories; the answer is a content block flagged as an error
    whose text is [Error: ] and a message.  This message is the one of
    what the tool threw, whichever failure of the file system it is,
    for [read_file], [peek_file], [edit_file] and [write_file] alike.
    A call of a tool that takes a path is rejected as [InvalidParams]
    when the path is missing or empty, and a call of an unknown tool as
    [MethodNotFound]. *)
Theorem callTool_rejects_and_reports fuel w name args :
  (forall w' code message,
     callTool fuel w name args = Some (w', McpError code message) -> w' = w) /\
  (forall w' text,
     callTool fuel w name args = Some (w', Content text true) ->
     ctx w' = ctx w /\ disk w' = disk w /\ clock w' = clock w /\
     (name <> "write_file" -> w' = w) /\
     exists e, text = "Error: " +:+ errorMessage e) /\
  (forall path w' e,
     Args.path args = Some path -> falsy (Some path) = false ->
     (name = "read_file" -> readFile fuel w path = Some (w', Threw e) ->
      callTool fuel w name args
      = Some (w', Content ("Error: " +:+ errorMessage e) true)) /\
     (name = "peek_file" -> peekFile fuel w path = Some (w', Threw e) ->
      callTool fuel w name args
      = Some (w', Content ("Error: " +:+ errorMessage e) true)) /\
     (forall old new,
        name = "edit_file" ->
        Args.old_string args = Some old -> Args.new_string args = Some new ->
        editFile fuel w path old new = Some (w', Threw e) ->
        callTool fuel w name args
        = Some (w', Content ("Error: " +:+ errorMessage e) true)) /\
     (forall content,
        name = "write_file" -> Args.content args = Some content ->
        writeFile fuel w path content = Some (w', Threw e) ->
        callTool fuel w name args
        = Some (w', Content ("Error: " +:+ errorMessage e) true))) /\
  (name ∈ ["read_file"; "peek_file"; "edit_file"; "write_file"; "forget_file"] ->
   falsy (Args.path args) = true ->
   exists message, callTool fuel w name args = Some (w, McpError InvalidParams message)) /\
  (name ∉ ["read_file"; "peek_file"; "edit_file"; "write_file"; "file_status";
           "forget_file"] ->
   callTool fuel w name args = Some (w, McpError MethodNotFound ("Unknown tool: " +:+ name))).
Proof.
  split; [|split; [|split; [|split]]].
  - intros w' code message. unfold callTool.
    repeat case_match; try (by intros [= <-]);
      try (destruct (readFile _ _ _) as [[? []]|]; by intros [= <-]);
      try (destruct (peekFile _ _ _) as [[? []]|]; by intros [= <-]);
      try (destruct (editFile _ _ _ _ _) as [[? []]|]; by intros [= <-]);
      try (destruct (writeFile _ _ _ _) as [[? []]|]; by intros [= <-]);
      try (destruct (fileStatus w); by intros [= <-]).
    unfold forgetFile in *. destruct (forget _ _). by simplify_eq.
  - apply callTool_failure_unchanged.
  - intros path w' e. apply callTool_forwards_message.
  - intros Hname Hfalsy. unfold callTool.
    rewrite !elem_of_cons, elem_of_nil in Hname.
    destruct (Args.path args) as [path|] eqn:Hpath.
    + rewrite Hfalsy.
      destruct Hname as [->|[->|[->|[->|[->|[]]]]]]; simpl; repeat case_match; by eauto.
    + destruct Hname as [->|[->|[->|[->|[->|[]]]]]]; simpl; repeat case_match; by eauto.
  - intros Hname. unfold callTool.
    rewrite !not_elem_of_cons in Hname.
    destruct Hname as (? & ? & ? & ? & ? & ? & _).
    by rewrite !decide_False by done.
Qed.

(** X21. What [peekFile] serves.  In a cache whose entries are sound,
    the text that [peekFile] returns for a readable file is either the
    full header, a note and the content of the file, or the summary
    header and a summary that the parser made of a content with the
    digest of the content now on the disk: a summary is never served for
    a file that has changed since. *)
Theorem peekFile_serves_current_summary fuel w p content w' text :
  Forall sound (summaries (ctx w)) ->
  readFileSync (disk w) (absolutePathOf p) = Some content ->
  peekFile fuel w p = Some (w', Returned text) ->
  (exists note,
     text = formatFileHeader (getRelativePath (ctx w) (absolutePathOf p)) false
            +:+ newline +:+ note +:+ newline +:+ newline +:+ content) \/
  (exists q current model formatted,
     text = formatFileHeader (getRelativePath (ctx w) (absolutePathOf p)) true
            +:+ newline +:+ newline +:+ formatted /\
     normalizePath q = normalizePath (absolutePathOf p) /\
     parseFile q current = Some (ParseResult model formatted) /\
     hashContent current = hashContent content).
Proof.
  intros Hsound Hread. unfold peekFile. rewrite Hread.
  destruct (negb (isSupported (absolutePathOf p))); [intros [= <- <-]; left; by eexists|].
  destruct (isActive _ _); [intros [= <- <-]; left; by eexists|].
  destruct (freshSummary w (absolutePathOf p)) as [cached|] eqn:Hfresh.
  - intros [= <- <-]. right. unfold freshSummary in Hfresh.
    destruct (getSummary (ctx w) (absolutePathOf p)) as [cached'|] eqn:Hget; [|done].
    destruct (isStale (ctx w) (disk w) (absolutePathOf p)) eqn:Hstale; [done|].
    simpl in Hfresh. simplify_eq.
    unfold isStale in Hstale. unfold getSummary in Hget. rewrite Hget, Hread in Hstale.
    apply negb_false_iff, bool_decide_eq_true in Hstale.
    apply get_elem_of in Hget. rewrite Forall_forall in Hsound.
    destruct (Hsound _ Hget) as (q & current & model & Hkey & Hparse & Hhash & _).
    simpl in *. exists q, current, model, (summary cached).
    split; [done|]. split; [done|]. split; [done|]. congruence.
  - destruct (parseFile (absolutePathOf p) content) as [[m sm|e]|] eqn:Hparse.
    + destruct (setSummary _ _ _ _ _ _) as [s'|]; [|done].
      intros [= <- <-]. right. by exists (absolutePathOf p), content, m, sm.
    + intros [= <- <-]. left.
      exists ("// (Could not generate summary (Parse error: " +:+ e +:+ "))").
      by rewrite !append_associative.
    + intros [= <- <-]. left. by eexists.
Qed.


End MoreTools.


(** * Further properties of the renderers *)

Section MoreRenderer.

(** The text before the first match of a one-unit pattern does not hold
    that unit; with no match, the text does not hold it. *)
Lemma search_unit x s :
  match Js.search (String x EmptyString) s with
  | Some (before, _) => hasUnit x before = false
  | None => hasUnit x s = false
  end.
Proof.
  induction s as [|c s IH]; [done|].
  cbn [Js.search Js.startsWith].
  destruct (decide (x = c)) as [->|Hne]; [done|].
  destruct (Js.search (String x EmptyString) s) as [[before after]|]; simpl;
    by rewrite bool_decide_eq_false_2, IH.
Qed.

Lemma firstLine_no_newline d : hasUnit "010" (firstLine d) = false.
Proof.
  unfold firstLine, Js.split, newline.
  destruct (String.length d) as [|n] eqn:Hlen.
  - by destruct d.
  - simpl. pose proof (search_unit "010" d) as Hsearch.
    by destruct (Js.search (String "010" EmptyString) d) as [[before after]|].
Qed.

(** A text that holds no line feed is its own first line. *)
Lemma search_unit_none x s :
  hasUnit x s = false -> Js.search (String x EmptyString) s = None.
Proof.
  induction s as [|c s IH]; [done|].
  cbn [hasUnit]. intros [Hc Hs]%orb_false_iff.
  apply bool_decide_eq_false in Hc.
  cbn [Js.search Js.startsWith]. rewrite decide_False by congruence.
  by rewrite IH.
Qed.

Lemma firstLine_one_line s : hasUnit "010" s = false -> firstLine s = s.
Proof.
  intros Hnone. unfold firstLine, Js.split, newline.
  destruct (String.length s); simpl; [done|].
  by rewrite search_unit_none.
Qed.

Lemma docShown_docHead doc : docShown (docHead doc) = docShown doc.
Proof.
  destruct doc as [d|]; [|done]. unfold docHead, docShown.
  destruct (Js.truthy (firstLine d)) eqn:Hhead; [|done].
  rewrite Hhead, (firstLine_one_line _ (firstLine_no_newline d)).
  destruct d; [vm_compute in Hhead; discriminate|done].
Qed.

Lemma rust_docLine_shown doc :
  Rust.docLine doc = match docShown doc with Some l => ["/// " +:+ l] | None => [] end.
Proof.
  destruct doc as [d|]; [|done]. unfold Rust.docLine, docShown.
  by destruct (Js.truthy d).
Qed.

Lemma php_docLine_shown doc :
  Php.docLine doc
  = match docShown doc with Some l => ["/** " +:+ l +:+ " */"] | None => [] end.
Proof.
  destruct doc as [d|]; [|done]. unfold Php.docLine, docShown.
  by destruct (Js.truthy d).
Qed.

Lemma blankAfter_map {A B} (f : A -> B) (l : list A) : blankAfter (map f l) = blankAfter l.
Proof. by destruct l. Qed.

Lemma map_lines_ext {A} (f g : A -> list string) (h : A -> A) (l : list A) :
  (forall x, f (h x) = g x) -> concat (map f (map h l)) = concat (map g l).
Proof. intros Hext. rewrite map_map. f_equal. apply map_ext. exact Hext. Qed.

Section ShownDocs.
Variables (declared inner : option string -> option string).
Hypothesis Hshown : forall doc, docShown (declared doc) = docShown doc.

Lemma rust_docLine_declared doc : Rust.docLine (declared doc) = Rust.docLine doc.
Proof. by rewrite !rust_docLine_shown, Hshown. Qed.

Lemma php_docLine_declared doc : Php.docLine (declared doc) = Php.docLine doc.
Proof. by rewrite !php_docLine_shown, Hshown. Qed.

Lemma methodLines_inner (l : list FunctionSummary.t) :
  map Rust.methodLine (map (functionWithDoc inner) l) = map Rust.methodLine l /\
  map Php.methodLine (map (functionWithDoc inner) l) = map Php.methodLine l.
Proof. split; rewrite map_map; by apply map_ext. Qed.

Lemma publicFields_inner (line : FieldSummary.t -> string) (l : list FieldSummary.t) :
  (forall f, line (fieldWithDoc inner f) = line f) ->
  map line (filter (fun f => FieldSummary.isPublic f = true) (map (fieldWithDoc inner) l))
  = map line (filter (fun f => FieldSummary.isPublic f = true) l).
Proof.
  intros Hline. induction l as [|f l IH]; [done|].
  cbn [map]. rewrite !filter_cons. cbn [fieldWithDoc FieldSummary.isPublic].
  destruct (decide (FieldSummary.isPublic f = true)); [|done].
  cbn [map]. by rewrite IH, Hline.
Qed.

Lemma rust_structLines_docs st :
  Rust.structLines (structWithDocs declared inner st) = Rust.structLines st.
Proof.
  unfold Rust.structLines, structWithDocs.
  cbn [StructSummary.name StructSummary.doc StructSummary.generics
       StructSummary.fields StructSummary.methods StructSummary.derives].
  rewrite rust_docLine_declared.
  assert (forall l, map Rust.methodLine (map (functionWithDoc inner) l)
                    = map Rust.methodLine l) as Hmethods
    by (intros l; apply methodLines_inner).
  pose proof (publicFields_inner
                (fun f => "  pub " +:+ FieldSummary.name f +:+ ": "
                          +:+ FieldSummary.type f +:+ ",")
                (StructSummary.fields st) (fun _ => eq_refl)) as Hfields.
  destruct (filter _ (map (fieldWithDoc inner) (StructSummary.fields st)));
    destruct (filter _ (StructSummary.fields st));
    try discriminate Hfields; rewrite ?Hfields;
    destruct (StructSummary.methods st) as [|method rest]; cbn [map];
    rewrite ?Hmethods; reflexivity.
Qed.

Lemma php_classLines_docs cls :
  Php.classLines (structWithDocs declared inner cls) = Php.classLines cls.
Proof.
  unfold Php.classLines, structWithDocs.
  cbn [StructSummary.name StructSummary.doc StructSummary.generics
       StructSummary.fields StructSummary.methods StructSummary.derives].
  rewrite php_docLine_declared, (proj2 (methodLines_inner _)).
  by rewrite map_map.
Qed.

Lemma rust_formatSummary_docs m :
  Rust.formatSummary (withDocs declared inner m) = Rust.formatSummary m.
Proof.
  unfold Rust.formatSummary, withDocs.
  cbn [purpose structs traits enums functions typeAliases constants reexports].
  rewrite !blankAfter_map.
  rewrite (map_lines_ext _ Rust.constantLines),
          (map_lines_ext _ Rust.aliasLines),
          (map_lines_ext _ Rust.structLines),
          (map_lines_ext _ Rust.enumLines),
          (map_lines_ext _ Rust.traitLines),
          (map_lines_ext _ Rust.functionLines); try done.
  - intros f. unfold Rust.functionLines. simpl. by rewrite rust_docLine_declared.
  - intros t. unfold Rust.traitLines. simpl.
    by rewrite rust_docLine_declared, (proj1 (methodLines_inner _)).
  - intros e. unfold Rust.enumLines. simpl. by rewrite rust_docLine_declared.
  - apply rust_structLines_docs.
  - intros a. unfold Rust.aliasLines. simpl. by rewrite rust_docLine_declared.
  - intros c. unfold Rust.constantLines. simpl. by rewrite rust_docLine_declared.
Qed.

Lemma php_formatSummary_docs m :
  Php.formatSummary (withDocs declared inner m) = Php.formatSummary m.
Proof.
  unfold Php.formatSummary, withDocs.
  cbn [purpose structs traits enums functions typeAliases constants reexports].
  rewrite !blankAfter_map.
  rewrite (map_lines_ext _ Php.constantLines),
          (map_lines_ext _ Php.enumLines),
          (map_lines_ext _ Php.interfaceLines),
          (map_lines_ext _ Php.classLines),
          (map_lines_ext _ Php.functionLines); try done.
  - intros f. unfold Php.functionLines. simpl. by rewrite php_docLine_declared.
  - apply php_classLines_docs.
  - intros t. unfold Php.interfaceLines. simpl.
    by rewrite php_docLine_declared, (proj2 (methodLines_inner _)).
  - intros e. unfold Php.enumLines. simpl. by rewrite php_docLine_declared.
  - intros c. unfold Php.constantLines. simpl. by rewrite php_docLine_declared.
Qed.

End ShownDocs.

(** X23. Of the documentation of a declaration, a summary shows the
    first line.  The text that the Rust and the PHP renderer make of a
    Summary Model stays the same when the documentation of its
    constants, type aliases, structs, enums, traits and functions is
    replaced by one with the same first line, an empty one by none, and
    that of the fields and of the methods by anything: those are not
    printed.  The purpose is no part of this; it is printed with the
    lines it has. *)
Theorem formatSummary_shows_first_doc_line declared inner (m : FileSummary) :
  (forall doc, docShown (declared doc) = docShown doc) ->
  Rust.formatSummary (withDocs declared inner m) = Rust.formatSummary m /\
  Php.formatSummary (withDocs declared inner m) = Php.formatSummary m.
Proof.
  intros Hshown. split.
  - by apply rust_formatSummary_docs.
  - by apply php_formatSummary_docs.
Qed.

Lemma structLines_public st : Rust.structLines (withPublicFields st) = Rust.structLines st.
Proof.
  unfold Rust.structLines, withPublicFields. simpl.
  replace (filter (fun f => FieldSummary.isPublic f = true)
             (filter (fun f => FieldSummary.isPublic f = true) (StructSummary.fields st)))
    with (filter (fun f => FieldSummary.isPublic f = true) (StructSummary.fields st)); [done|].
  symmetry. apply list_filter_filter_l. naive_solver.
Qed.

(** X24. The Rust summary shows public fields only: the text rendered
    from a Summary Model is the text rendered from the model without
    the fields that are not public. *)
Theorem formatSummary_hides_private_fields (m : FileSummary) :
  Rust.formatSummary (publicInterface m) = Rust.formatSummary m.
Proof.
  unfold Rust.formatSummary, publicInterface. simpl.
  rewrite map_map.
  replace (map (fun x => Rust.structLines (withPublicFields x)) (structs m))
    with (map Rust.structLines (structs m)); [done|].
  apply map_ext. intros st. by rewrite structLines_public.
Qed.

End MoreRenderer.


(** * Properties of the Rust extractor *)

Section RustExtractor.
Implicit Types (c : RustParser.Collected) (n : Syntax.Located) (source : string).

Lemma fold_left_keeps {A B} (P : A -> Prop) (f : A -> B -> A) (l : list B) (a : A) :
  P a -> (forall a b, P a -> P (f a b)) -> P (fold_left f l a).
Proof.
  intros Ha Hstep. revert a Ha. induction l as [|b l IH]; intros a Ha; simpl; [done|].
  apply IH. by apply Hstep.
Qed.

Lemma fold_left_collects {A B C} (f : A -> B -> A) (g : A -> list C) (h : B -> option C)
    (l : list B) (a : A) :
  (forall a b, g (f a b) = g a ++ option_list (h b)) ->
  g (fold_left f l a) = g a ++ omap h l.
Proof.
  intros Hstep. revert a. induction l as [|b l IH]; intros a; simpl.
  - by rewrite app_nil_r.
  - rewrite IH, Hstep, <- app_assoc. by destruct (h b).
Qed.

Lemma startsWith_append p a b :
  Js.startsWith p a = true -> Js.startsWith p (a +:+ b) = true.
Proof.
  revert a. induction p as [|x p IH]; intros [|y a]; simpl; try done.
  destruct (decide (x = y)); [|done]. apply IH.
Qed.

Lemma isPublic_visibility node :
  RustParser.isPublic node = true ->
  Js.startsWith "pub" (RustParser.getVisibility node) = true.
Proof.
  unfold RustParser.isPublic, RustParser.getVisibility.
  destruct (Syntax.childOfType node "visibility_modifier") as [child|]; [|done].
  intros Hpub. apply orb_true_iff in Hpub as [Hpub|Hpub].
  - apply bool_decide_eq_true in Hpub. by rewrite Hpub.
  - destruct (Syntax.text child) as [|a [|b [|d [|e t]]]]; simpl in *; try done;
      repeat case_decide; done.
Qed.

Lemma headed_app v parts more : headed v parts -> headed v (parts ++ more).
Proof.
  intros (tail & -> & Htail). exists (tail ++ more). split; [done|].
  by destruct tail.
Qed.

Lemma headed_start v parts x : (exists tail, parts = v :: tail) -> headed v (parts ++ [x]).
Proof.
  intros [tail ->]. exists (tail ++ [x]). split; [done|]. by destruct tail.
Qed.

Lemma appendToLast_last front x s :
  Text.appendToLast (front ++ [x]) s = front ++ [x +:+ s].
Proof. unfold Text.appendToLast. by rewrite reverse_snoc, reverse_involutive. Qed.

Lemma headed_appendToLast v parts s :
  headed v parts -> headed v (Text.appendToLast parts s).
Proof.
  intros (tail & -> & Htail).
  destruct (exists_last Htail) as (front & x & ->).
  rewrite app_comm_cons, appendToLast_last. exists (front ++ [x +:+ s]).
  split; [done|]. by destruct front.
Qed.

Lemma headed_join v parts :
  headed v parts -> Js.startsWith "pub" v = true ->
  Js.startsWith "pub" (Js.join " " parts) = true.
Proof.
  intros (tail & -> & Htail) Hv. destruct tail as [|x tail]; [done|].
  change (Js.join " " (v :: x :: tail)) with (v +:+ " " +:+ Js.join " " (x :: tail)).
  by apply startsWith_append.
Qed.

Lemma parseFunctionSignature_name n source fn :
  RustParser.parseFunctionSignature n source = Some fn ->
  RustParser.nameOf (Syntax.this n) = Some (FunctionSummary.name fn) /\
  FunctionSummary.isPublic fn = RustParser.isPublic (Syntax.this n).
Proof.
  unfold RustParser.parseFunctionSignature.
  destruct (RustParser.nameOf (Syntax.this n)) as [name|]; [|done].
  by intros [= <-].
Qed.

Lemma parseFunctionSignature_listed n source fn :
  RustParser.parseFunctionSignature n source = Some fn ->
  FunctionSummary.isPublic fn = true ->
  listedAsPublic fn.
Proof.
  unfold RustParser.parseFunctionSignature.
  destruct (RustParser.nameOf (Syntax.this n)) as [name|]; [|done].
  intros [= <-]. cbn [FunctionSummary.isPublic]. intros Hpub. split; [done|].
  cbn [FunctionSummary.signature]. rewrite Hpub.
  apply (headed_join (RustParser.getVisibility (Syntax.this n)));
    [|by apply isPublic_visibility].
  repeat match goal with
         | |- headed _ (match ?x with Some _ => _ | None => _ end) => destruct x
         | |- headed _ (if ?b then _ else _) => destruct b
         | |- headed _ (Text.appendToLast _ _) => apply headed_appendToLast
         | |- headed _ (_ ++ ["fn"]) => apply headed_start
         | |- headed _ (_ ++ _) => apply headed_app
         end;
    repeat match goal with
           | |- context [if ?b then _ else _] => destruct b
           end;
    by eexists.
Qed.

Lemma names_alter fn i (l : list StructSummary.t) :
  map StructSummary.name (alter (RustParser.pushMethod fn) i l) = map StructSummary.name l.
Proof.
  revert i. induction l as [|st l IH]; intros [|i]; simpl; try done.
  f_equal. apply IH.
Qed.

Lemma implMethod_names source i l child :
  map StructSummary.name (RustParser.implMethod source i l child)
  = map StructSummary.name l.
Proof.
  unfold RustParser.implMethod. repeat case_match; try done. apply names_alter.
Qed.

Lemma parseImplBlock_names n source structMap l :
  map StructSummary.name (RustParser.parseImplBlock n source structMap l)
  = map StructSummary.name l.
Proof.
  unfold RustParser.parseImplBlock. repeat case_match; try done.
  apply (fold_left_keeps
           (fun l' => map StructSummary.name l' = map StructSummary.name l)); [done|].
  intros l' child <-. apply implMethod_names.
Qed.

(** ** Only public functions and methods *)

Lemma Forall_alter_pushMethod fn i (l : list StructSummary.t) :
  listedAsPublic fn ->
  Forall (fun st => Forall listedAsPublic (StructSummary.methods st)) l ->
  Forall (fun st => Forall listedAsPublic (StructSummary.methods st))
    (alter (RustParser.pushMethod fn) i l).
Proof.
  intros Hfn Hl. revert i. induction Hl as [|st l Hst Hl IH]; intros [|i]; simpl.
  - constructor.
  - constructor.
  - constructor; [|done]. simpl. apply Forall_app. split; [done|]. by constructor.
  - constructor; [done|]. apply IH.
Qed.

Lemma parseImplBlock_listed n source structMap l :
  Forall (fun st => Forall listedAsPublic (StructSummary.methods st)) l ->
  Forall (fun st => Forall listedAsPublic (StructSummary.methods st))
    (RustParser.parseImplBlock n source structMap l).
Proof.
  intros Hl. unfold RustParser.parseImplBlock. repeat case_match; try done.
  apply fold_left_keeps; [done|].
  intros l' child Hl'. unfold RustParser.implMethod.
  destruct (decide _); [|done].
  destruct (RustParser.parseFunctionSignature child source) as [fn|] eqn:Hfn; [|done].
  destruct (FunctionSummary.isPublic fn) eqn:Hpub; [|done].
  apply Forall_alter_pushMethod; [|done].
  by eapply parseFunctionSignature_listed.
Qed.

(** X25. The summary of a Rust file lists public functions only: every
    function of the summary, and every method attached to a struct, is
    flagged as public and has a signature that starts with [pub]. *)
Theorem extract_lists_public_functions (root : Syntax.Node) (source : string) :
  Forall listedAsPublic (functions (RustParser.extract root source)) /\
  Forall (fun st => Forall listedAsPublic (StructSummary.methods st))
    (structs (RustParser.extract root source)).
Proof.
  unfold RustParser.extract, RustParser.firstPass.
  apply (fold_left_keeps
           (fun c => Forall listedAsPublic (functions (RustParser.summary c)) /\
                     Forall (fun st => Forall listedAsPublic (StructSummary.methods st))
                       (structs (RustParser.summary c)))).
  - apply (fold_left_keeps
             (fun c => Forall listedAsPublic (functions (RustParser.summary c)) /\
                       Forall (fun st => Forall listedAsPublic (StructSummary.methods st))
                         (structs (RustParser.summary c)))).
    + split; constructor.
    + intros c n [Hf Hs]. unfold RustParser.collectItem.
      destruct (decide (Syntax.type (Syntax.this n) = "struct_item")).
      { destruct (RustParser.isPublic (Syntax.this n)); [|done].
        destruct (RustParser.parseStruct n source) as [st|] eqn:Hst; [|done].
        simpl. split; [done|]. apply Forall_app. split; [done|].
        constructor; [|constructor].
        unfold RustParser.parseStruct in Hst.
        destruct (RustParser.nameOf (Syntax.this n)); [|done].
        injection Hst as <-. simpl. constructor. }
      destruct (decide (Syntax.type (Syntax.this n) = "enum_item")).
      { by repeat case_match. }
      destruct (decide (Syntax.type (Syntax.this n) = "trait_item")).
      { by repeat case_match. }
      destruct (decide (Syntax.type (Syntax.this n) = "function_item")).
      { destruct (RustParser.isPublic (Syntax.this n)) eqn:Hpub; [|done].
        destruct (RustParser.parseFunctionSignature n source) as [fn|] eqn:Hfn; [|done].
        simpl. split; [|done]. apply Forall_app. split; [done|].
        constructor; [|constructor].
        apply (parseFunctionSignature_listed n source fn Hfn).
        apply parseFunctionSignature_name in Hfn as [_ ->]. done. }
      by repeat case_match.
  - intros c n [Hf Hs]. unfold RustParser.collectImpl.
    destruct (decide _); [|done]. simpl. split; [done|].
    by apply parseImplBlock_listed.
Qed.

(** ** Impl blocks and structs of one name *)

Lemma lastNamed_snoc names name : lastNamed (names ++ [name]) name (length names).
Proof.
  split.
  - by rewrite lookup_app_r, Nat.sub_diag by lia.
  - intros j Hj. apply lookup_lt_Some in Hj. rewrite length_app in Hj. simpl in Hj. lia.
Qed.

Lemma lastNamed_other names name other i :
  name <> other -> lastNamed names name i -> lastNamed (names ++ [other]) name i.
Proof.
  intros Hne [Hi Hlast]. split.
  - by apply lookup_app_l_Some.
  - intros j Hj. apply Hlast.
    destruct (decide (j < length names)) as [Hlt|Hge].
    + by rewrite lookup_app_l in Hj.
    + rewrite lookup_app_r in Hj by lia.
      destruct (j - length names) as [|k]; simpl in Hj; [congruence | done].
Qed.

Lemma collectItem_collected source c n :
  collected c -> collected (RustParser.collectItem source c n).
Proof.
  intros [Hmap Hnone]. unfold RustParser.collectItem.
  destruct (decide (Syntax.type (Syntax.this n) = "struct_item")).
  2: { by repeat case_match. }
  destruct (RustParser.isPublic (Syntax.this n)); [|done].
  destruct (RustParser.parseStruct n source) as [st|] eqn:Hst; [|done].
  split; simpl.
  - intros name i. rewrite map_app. simpl.
    destruct (decide (StructSummary.name st = name)) as [<-|Hne].
    + rewrite get_set_eq. intros [= <-].
      rewrite <- (length_map StructSummary.name). apply lastNamed_snoc.
    + rewrite get_set_ne by done. intros Hget.
      apply lastNamed_other; [done|]. by apply Hmap.
  - apply Forall_app. split; [done|]. constructor; [|constructor].
    unfold RustParser.parseStruct in Hst.
    destruct (RustParser.nameOf (Syntax.this n)); [|done]. by injection Hst as <-.
Qed.

Lemma attached_alter fn i l :
  (forall st, l !! i = Some st ->
     lastNamed (map StructSummary.name l) (StructSummary.name st) i) ->
  attached l -> attached (alter (RustParser.pushMethod fn) i l).
Proof.
  intros Hi Hl j st Hj Hmethods. rewrite names_alter.
  destruct (decide (j = i)) as [->|Hne].
  - rewrite list_lookup_alter_eq in Hj.
    destruct (l !! i) as [st0|] eqn:Hst0; [|done].
    injection Hj as <-. simpl. by apply Hi.
  - rewrite list_lookup_alter_ne in Hj by done. by apply Hl.
Qed.

Lemma parseImplBlock_attached n source structMap l :
  (forall name i,
     JsMap.get name structMap = Some i -> lastNamed (map StructSummary.name l) name i) ->
  attached l -> attached (RustParser.parseImplBlock n source structMap l).
Proof.
  intros Hmap Hl. unfold RustParser.parseImplBlock.
  destruct (Syntax.childForFieldName (Syntax.this n) "type") as [type|]; [|done].
  destruct (Syntax.childForFieldName (Syntax.this n) "trait"); [done|].
  destruct (Js.split (Syntax.text type) "<") as [|typeName pieces]; [done|].
  destruct (JsMap.get typeName structMap) as [i|] eqn:Hget; [|done].
  destruct (Syntax.childOfType (Syntax.this n) "declaration_list") as [body|]; [|done].
  apply Hmap in Hget.
  apply (fold_left_keeps
           (fun l' => map StructSummary.name l' = map StructSummary.name l /\ attached l')).
  { done. }
  intros l' child [Hnames Hl']. split; [by rewrite implMethod_names|].
  unfold RustParser.implMethod. repeat case_match; try done.
  apply attached_alter; [|done].
  intros st Hst. rewrite Hnames.
  assert (map StructSummary.name l' !! i = Some (StructSummary.name st)) as Hname
    by (by rewrite list_lookup_fmap, Hst).
  rewrite Hnames in Hname. destruct Hget as [Hi Hlast].
  assert (StructSummary.name st = typeName) as -> by congruence.
  by split.
Qed.

(** X26. An impl block reaches one struct.  When the summary holds
    several structs of one name, the methods of the impl blocks of that
    name are attached to the last of them: an earlier struct of the name
    has no method. *)
Theorem impl_methods_go_to_last_struct (root : Syntax.Node) (source : string)
    (i j : nat) (first second : StructSummary.t) :
  structs (RustParser.extract root source) !! i = Some first ->
  structs (RustParser.extract root source) !! j = Some second ->
  i < j ->
  StructSummary.name first = StructSummary.name second ->
  StructSummary.methods first = [].
Proof.
  intros Hfirst Hsecond Hlt Hname.
  assert (attached (structs (RustParser.extract root source))) as Hattached.
  { unfold RustParser.extract.
    apply (fold_left_keeps
             (fun c => (forall name i,
                          JsMap.get name (RustParser.structMap c) = Some i ->
                          lastNamed (map StructSummary.name (structs (RustParser.summary c)))
                            name i) /\
                       attached (structs (RustParser.summary c)))).
    - assert (collected (RustParser.firstPass root source)) as [Hmap Hnone].
      { unfold RustParser.firstPass. apply fold_left_keeps.
        - split; [done | constructor].
        - intros c n. apply collectItem_collected. }
      split; [done|]. intros k st Hk Hmethods.
      rewrite Forall_forall in Hnone. exfalso. apply Hmethods, Hnone.
      by eapply list_elem_of_lookup_2.
    - intros c n [Hmap Hl]. unfold RustParser.collectImpl.
      destruct (decide _); [|done]. simpl. split.
      + intros name k Hget. rewrite parseImplBlock_names. by apply Hmap.
      + by apply parseImplBlock_attached. }
  destruct (StructSummary.methods first) as [|m ms] eqn:Hmethods; [done|].
  exfalso.
  destruct (Hattached i first Hfirst) as [_ Hlast]; [by rewrite Hmethods|].
  assert (j <= i); [|lia]. apply Hlast.
  by rewrite list_lookup_fmap, Hsecond, Hname.
Qed.

(** ** Private items *)

Lemma collectItem_private source c n :
  RustParser.isPublic (Syntax.this n) = false -> RustParser.collectItem source c n = c.
Proof.
  intros Hprivate. unfold RustParser.collectItem, RustParser.parseReexport.
  rewrite Hprivate. simpl. by repeat case_match.
Qed.

Lemma fold_left_same {A B} (f : A -> B -> A) (l : list B) (a : A) :
  (forall b, b ∈ l -> forall a', f a' b = a') -> fold_left f l a = a.
Proof.
  induction l as [|b l IH]; simpl; [done|]. intros Hstep.
  rewrite Hstep by left. apply IH. intros b' Hb'. apply Hstep. by right.
Qed.

(** X27. A file without a public item has an empty interface: when no
    child of the root has pub visibility, the summary holds the module
    doc and nothing else, whatever the file declares and implements. *)
Theorem extract_private_only (root : Syntax.Node) (source : string) :
  (forall n, n ∈ Syntax.namedChildren root -> RustParser.isPublic (Syntax.this n) = false) ->
  RustParser.extract root source
  = {| purpose := RustParser.extractModuleDoc root source; structs := []; traits := [];
       enums := []; functions := []; typeAliases := []; constants := [];
       reexports := [] |}.
Proof.
  intros Hprivate. unfold RustParser.extract, RustParser.firstPass.
  rewrite (fold_left_same (RustParser.collectItem source)).
  2: { intros n Hn c. apply collectItem_private. by apply Hprivate. }
  apply (fold_left_keeps
           (fun c => RustParser.summary c
                     = RustParser.summary (RustParser.emptySummary root source) /\
                     RustParser.structMap c = [])); [done|].
  intros c n [Hsummary Hmap]. unfold RustParser.collectImpl.
  destruct (decide _); [|done].
  unfold RustParser.parseImplBlock. rewrite Hmap, Hsummary. simpl.
  by repeat case_match.
Qed.

(** ** Every public item, in the order of the source *)

Lemma parseFunctionSignature_nameOf n source :
  FunctionSummary.name <$> RustParser.parseFunctionSignature n source
  = RustParser.nameOf (Syntax.this n).
Proof.
  unfold RustParser.parseFunctionSignature. by destruct (RustParser.nameOf (Syntax.this n)).
Qed.

Lemma parseStruct_nameOf n source :
  StructSummary.name <$> RustParser.parseStruct n source = RustParser.nameOf (Syntax.this n).
Proof. unfold RustParser.parseStruct. by destruct (RustParser.nameOf (Syntax.this n)). Qed.

Lemma parseEnum_nameOf n source :
  EnumSummary.name <$> RustParser.parseEnum n source = RustParser.nameOf (Syntax.this n).
Proof. unfold RustParser.parseEnum. by destruct (RustParser.nameOf (Syntax.this n)). Qed.

Lemma parseTrait_nameOf n source :
  TraitSummary.name <$> RustParser.parseTrait n source = RustParser.nameOf (Syntax.this n).
Proof. unfold RustParser.parseTrait. by destruct (RustParser.nameOf (Syntax.this n)). Qed.

Ltac by_item_type :=
  unfold RustParser.collectItem, publicItemName;
  repeat (case_decide; simplify_eq/=);
  repeat case_match; simplify_eq/=; rewrite ?map_app, ?app_nil_r; (done || congruence).

Lemma collectItem_function_names source c n :
  map FunctionSummary.name (functions (RustParser.summary (RustParser.collectItem source c n)))
  = map FunctionSummary.name (functions (RustParser.summary c))
    ++ option_list (publicItemName "function_item" n).
Proof.
  unfold publicItemName. rewrite <- (parseFunctionSignature_nameOf n source). by_item_type.
Qed.

Lemma collectItem_struct_names source c n :
  map StructSummary.name (structs (RustParser.summary (RustParser.collectItem source c n)))
  = map StructSummary.name (structs (RustParser.summary c))
    ++ option_list (publicItemName "struct_item" n).
Proof.
  unfold publicItemName. rewrite <- (parseStruct_nameOf n source). by_item_type.
Qed.

Lemma collectItem_enum_names source c n :
  map EnumSummary.name (enums (RustParser.summary (RustParser.collectItem source c n)))
  = map EnumSummary.name (enums (RustParser.summary c))
    ++ option_list (publicItemName "enum_item" n).
Proof.
  unfold publicItemName. rewrite <- (parseEnum_nameOf n source). by_item_type.
Qed.

Lemma collectItem_trait_names source c n :
  map TraitSummary.name (traits (RustParser.summary (RustParser.collectItem source c n)))
  = map TraitSummary.name (traits (RustParser.summary c))
    ++ option_list (publicItemName "trait_item" n).
Proof.
  unfold publicItemName. rewrite <- (parseTrait_nameOf n source). by_item_type.
Qed.

Lemma collectImpl_names source c n :
  map StructSummary.name (structs (RustParser.summary (RustParser.collectImpl source c n)))
  = map StructSummary.name (structs (RustParser.summary c)) /\
  functions (RustParser.summary (RustParser.collectImpl source c n))
  = functions (RustParser.summary c) /\
  enums (RustParser.summary (RustParser.collectImpl source c n))
  = enums (RustParser.summary c) /\
  traits (RustParser.summary (RustParser.collectImpl source c n))
  = traits (RustParser.summary c).
Proof.
  unfold RustParser.collectImpl. destruct (decide _); [|done]. simpl.
  split; [apply parseImplBlock_names | done].
Qed.

(** X28. The summary of a Rust file lists every public item, once and
    in the order of the source: the names of its functions are the names
    of the function items of the root that have pub visibility and a
    name, in that order, and likewise for structs, enums and traits;
    impl blocks add and remove none. *)
Theorem extract_lists_public_items_in_order (root : Syntax.Node) (source : string) :
  map FunctionSummary.name (functions (RustParser.extract root source))
  = omap (publicItemName "function_item") (Syntax.namedChildren root) /\
  map StructSummary.name (structs (RustParser.extract root source))
  = omap (publicItemName "struct_item") (Syntax.namedChildren root) /\
  map EnumSummary.name (enums (RustParser.extract root source))
  = omap (publicItemName "enum_item") (Syntax.namedChildren root) /\
  map TraitSummary.name (traits (RustParser.extract root source))
  = omap (publicItemName "trait_item") (Syntax.namedChildren root).
Proof.
  set (first := RustParser.firstPass root source).
  assert (map StructSummary.name (structs (RustParser.extract root source))
          = map StructSummary.name (structs (RustParser.summary first)) /\
          functions (RustParser.extract root source) = functions (RustParser.summary first) /\
          enums (RustParser.extract root source) = enums (RustParser.summary first) /\
          traits (RustParser.extract root source) = traits (RustParser.summary first))
    as (-> & -> & -> & ->).
  { unfold RustParser.extract. fold first.
    apply (fold_left_keeps
             (fun c =>
                map StructSummary.name (structs (RustParser.summary c))
                = map StructSummary.name (structs (RustParser.summary first)) /\
                functions (RustParser.summary c) = functions (RustParser.summary first) /\
                enums (RustParser.summary c) = enums (RustParser.summary first) /\
                traits (RustParser.summary c) = traits (RustParser.summary first)));
      [done|].
    intros c n (Hs & Hf & He & Ht).
    destruct (collectImpl_names source c n) as (-> & -> & -> & ->). done. }
  unfold first, RustParser.firstPass.
  split; [|split; [|split]].
  - rewrite (fold_left_collects (RustParser.collectItem source)
               (fun c => map FunctionSummary.name (functions (RustParser.summary c)))
               (publicItemName "function_item")); [done|].
    intros c n. apply collectItem_function_names.
  - rewrite (fold_left_collects (RustParser.collectItem source)
               (fun c => map StructSummary.name (structs (RustParser.summary c)))
               (publicItemName "struct_item")); [done|].
    intros c n. apply collectItem_struct_names.
  - rewrite (fold_left_collects (RustParser.collectItem source)
               (fun c => map EnumSummary.name (enums (RustParser.summary c)))
               (publicItemName "enum_item")); [done|].
    intros c n. apply collectItem_enum_names.
  - rewrite (fold_left_collects (RustParser.collectItem source)
               (fun c => map TraitSummary.name (traits (RustParser.summary c)))
               (publicItemName "trait_item")); [done|].
    intros c n. apply collectItem_trait_names.
Qed.


(** [parseRust] is [parseRustWith] of the parser, when the extractor of
    the process walks the tree that the parser returns. *)
Lemma parseRust_parseRustWith `{Extractors} (parse : string -> string + Syntax.Node) source :
  rustExtract source
  = match parse source with
    | inr root => inr (RustParser.extract root source)
    | inl message => inl message
    end ->
  parseRust source = RustParser.parseRustWith parse source.
Proof.
  unfold parseRust, RustParser.parseRustWith. intros ->. by destruct (parse source).
Qed.


(** ** Doc comments *)



Lemma moduleDocLoop_stops source top item rest comments :
  endsModuleDoc item ->
  RustParser.moduleDocLoop source (top ++ item :: rest) comments
  = RustParser.moduleDocLoop source top comments.
Proof.
  intros (Hline & Hblock & Huse & Hattribute & Hcomment).
  revert comments. induction top as [|child top IH]; intros comments;
    cbn [app RustParser.moduleDocLoop].
  - rewrite !decide_False by done.
    by rewrite !bool_decide_eq_false_2, Hcomment by done.
  - repeat case_match; by rewrite ?IH.
Qed.

(** X30. The module doc is read from the top of the file: the loop of
    [extractModuleDoc] stops at the first child of the root that is no
    comment, no use declaration and no attribute, so that the purpose
    of the summary is that of the file cut before that child. *)
Theorem extractModuleDoc_reads_top_only root source top item rest :
  Syntax.children root = top ++ item :: rest ->
  endsModuleDoc item ->
  RustParser.extractModuleDoc root source
  = RustParser.extractModuleDoc (withChildren root top) source.
Proof.
  intros Hchildren Hitem. unfold RustParser.extractModuleDoc.
  rewrite Hchildren. simpl. by rewrite moduleDocLoop_stops.
Qed.


End RustExtractor.


(** * The properties at concrete inputs *)

#[local] Existing Instance Example.host.
#[local] Existing Instance Example.extractors.

#[local] Instance example_laws : HostLaws.
Proof.
  split.
  - intros p. unfold path_resolve, path_isAbsolute; simpl. unfold Example.resolve.
    by destruct (Example.isAbsolute p) eqn:Habs.
  - done.
Qed.

(** C1 at an input: with limit 1 and [/work/a.rs] active and cached,
    storing a summary for [/work/b.rs] evicts [/work/b.rs] and spares
    [/work/a.rs]. *)
Lemma setSummary_eviction_spares_active_witness :
  setSummary 2 7 Example.cacheA "/work/b.rs" "// b" "fn b() {}" = Some Example.drained /\
  JsMap.get "/work/a.rs" (summaries Example.drained) = Some Example.entryA /\
  (Z.of_nat (length (nonActive Example.drained)) <= 1)%Z.
Proof.
  assert (setSummary 2 7 Example.cacheA "/work/b.rs" "// b" "fn b() {}"
          = Some Example.drained) as Hrun by (vm_compute; reflexivity).
  split; [exact Hrun|].
  destruct (setSummary_eviction_spares_active _ _ _ _ _ _ _ Hrun)
    as (_ & Hactive & _ & _ & Hcount).
  split; [|exact Hcount].
  rewrite (Hactive "/work/a.rs" eq_refl). vm_compute. reflexivity.
Defined.

(** C3 at an input: a peek at [/work/b.rs] while [/work/a.rs] is active
    returns the summary of [/work/b.rs], and [/work/a.rs] stays active. *)
Lemma peekFile_keeps_active_witness :
  peekFile 0 Example.readingA "b.rs"
  = Some (Example.peekedB,
          Returned ("// === b.rs [SUMMARY] ===" +:+ newline +:+ newline
                    +:+ "// Purpose: fn b() {}")) /\
  getActiveFile (ctx Example.peekedB) = Some "/work/a.rs".
Proof.
  assert (peekFile 0 Example.readingA "b.rs"
          = Some (Example.peekedB,
                  Returned ("// === b.rs [SUMMARY] ===" +:+ newline +:+ newline
                            +:+ "// Purpose: fn b() {}"))) as Hrun
    by (vm_compute; reflexivity).
  split; [exact Hrun|].
  rewrite (peekFile_keeps_active _ _ _ _ _ Hrun). reflexivity.
Defined.

(** The round trip at an input: [/work/a.rs] summarized with content
    [fn a() {}]; the disk then holds [fn b() {}] under that path. *)
Lemma staleness_round_trip_witness :
  setSummary 0 0 (newContextState noConfig) "/work/a.rs" "// a" "fn a() {}"
  = Some (storeSummary 0 (newContextState noConfig) "/work/a.rs" "// a" "fn a() {}") /\
  isStale (storeSummary 0 (newContextState noConfig) "/work/a.rs" "// a" "fn a() {}")
          {["/work/a.rs" := "fn b() {}"]} "/work/a.rs" = true /\
  exists s2,
    setSummary 0 1 (storeSummary 0 (newContextState noConfig) "/work/a.rs" "// a" "fn a() {}")
               "/work/a.rs" "// b" "fn b() {}" = Some s2 /\
    isStale s2 {["/work/a.rs" := "fn b() {}"]} "/work/a.rs" = false.
Proof.
  assert (setSummary 0 0 (newContextState noConfig) "/work/a.rs" "// a" "fn a() {}"
          = Some (storeSummary 0 (newContextState noConfig) "/work/a.rs" "// a" "fn a() {}"))
    as Hrun by (vm_compute; reflexivity).
  split; [exact Hrun|].
  destruct (staleness_round_trip 0 0 (newContextState noConfig) "/work/a.rs" "// a"
              "fn a() {}" _ {["/work/a.rs" := "fn b() {}"]} "fn b() {}" Hrun)
    as [Hstale Hfresh].
  - vm_compute. eexists. reflexivity.
  - vm_compute. reflexivity.
  - vm_compute. discriminate.
  - split; [exact Hstale|]. exact (Hfresh 0 1%Z "// b").
Defined.

(** C4 as stated fails: the summary of [/work/a.rs] is stored while
    the file holds the byte [ff], with the text the file reads as; the
    byte is then [fe], another content, which is not the encoding of
    that text either; [isStale] is false, because both bytes read as
    U+FFFD. *)
Lemma isStale_misses_changed_bytes :
  [255%Z] <> [254%Z] /\
  Utf8.encode (Utf8.decode [255%Z]) <> [254%Z] /\
  exists s1,
    Raw.setSummary 0 0 (newContextState noConfig) "/work/a.rs" "// a"
                   (Utf8.decode [255%Z]) = Some s1 /\
    is_Some (getSummary s1 "/work/a.rs") /\
    Raw.isStale s1 {["/work/a.rs" := [255%Z]]} "/work/a.rs" = false /\
    Raw.isStale s1 {["/work/a.rs" := [254%Z]]} "/work/a.rs" = false.
Proof.
  split; [discriminate|]. split; [vm_compute; discriminate|].
  eexists. split; [vm_compute; reflexivity|].
  split; [vm_compute; by eexists|].
  split; vm_compute; reflexivity.
Qed.

(** C4, amended, at an input: [/work/a.rs] summarized while it holds
    the byte [ff]; the file then holds the two bytes of [e] with an
    acute accent. *)
Lemma staleness_round_trip_on_bytes_witness :
  exists s1,
    Raw.setSummary 0 0 (newContextState noConfig) "/work/a.rs" "// a"
                   (Utf8.decode [255%Z]) = Some s1 /\
    Raw.isStale s1 {["/work/a.rs" := [195%Z; 169%Z]]} "/work/a.rs" = true /\
    exists s2,
      Raw.setSummary 0 1 s1 "/work/a.rs" "// b" [233%Z] = Some s2 /\
      Raw.isStale s2 {["/work/a.rs" := [195%Z; 169%Z]]} "/work/a.rs" = false.
Proof.
  assert (Raw.setSummary 0 0 (newContextState noConfig) "/work/a.rs" "// a"
            (Utf8.decode [255%Z])
          = Some (Raw.storeSummary 0 (newContextState noConfig) "/work/a.rs" "// a"
                    (Utf8.decode [255%Z])))
    as Hrun by (vm_compute; reflexivity).
  eexists. split; [exact Hrun|].
  destruct (staleness_round_trip_on_bytes 0 0 (newContextState noConfig) "/work/a.rs"
              "// a" (Utf8.decode [255%Z]) _ {["/work/a.rs" := [195%Z; 169%Z]]}
              [195%Z; 169%Z] Hrun)
    as [Hstale Hfresh].
  - vm_compute. eexists. reflexivity.
  - vm_compute. reflexivity.
  - vm_compute. discriminate.
  - split; [exact Hstale|]. exact (Hfresh 0 1%Z "// b").
Defined.


(** C5 as stated fails: [/work/notes.txt] has no matching parser and can
    be read, and [editFile] throws, because [Y] does not occur in it. *)
Lemma unsupported_edit_throws :
  isSupported (absolutePathOf "notes.txt") = false /\
  editFile 0 (Example.boot noConfig Example.files) "notes.txt" "Y" "Z"
  = Some (Example.boot noConfig Example.files, Threw (NoMatch "notes.txt")).
Proof. split; vm_compute; reflexivity. Qed.

(** C5, amended, at an input: [/work/notes.txt] is read in full, and the
    state stays as it was. *)
Lemma unsupported_leaves_state_witness :
  isSupported (absolutePathOf "notes.txt") = false /\
  readFile 0 (Example.boot noConfig Example.files) "notes.txt"
  = Some (Example.boot noConfig Example.files,
          Returned ("// === notes.txt [FULL] ===" +:+ newline
                    +:+ "// (Unsupported file type - not tracked for compaction)"
                    +:+ newline +:+ newline +:+ "price: X")).
Proof.
  assert (isSupported (absolutePathOf "notes.txt") = false) as Hunsup
    by (vm_compute; reflexivity).
  split; [exact Hunsup|].
  destruct (unsupported_leaves_state 0 (Example.boot noConfig Example.files) "notes.txt"
              Hunsup) as (Hread & _).
  rewrite Hread. vm_compute. reflexivity.
Defined.

(** [writeFile] writes before it looks at the type of the file, and the
    write can fail: under the file [/work/notes.txt] there is no
    directory to write in, nor one to make, and [/work] is a directory.
    Nothing has changed then. *)
Lemma unsupported_write_throws :
  isSupported (absolutePathOf "notes.txt/x.txt") = false /\
  writeFile 0 (Example.boot noConfig Example.files) "notes.txt/x.txt" "hi"
  = Some (Example.boot noConfig Example.files,
          Threw (WriteFailure ENOTDIR "/work/notes.txt/x.txt")) /\
  writeFile 0 (Example.boot noConfig Example.files) "notes.txt/sub/x.txt" "hi"
  = Some (Example.boot noConfig Example.files,
          Threw (MkdirFailure ENOTDIR "/work/notes.txt/sub")) /\
  writeFile 0 (Example.boot noConfig Example.files) "/work" "hi"
  = Some (Example.boot noConfig Example.files, Threw (WriteFailure EISDIR "/work")).
Proof. repeat split; vm_compute; reflexivity. Qed.

(** [writeFile] makes the directories that are missing: after a write of
    [/work/new/deep/x.txt] both [/work/new] and [/work/new/deep] are
    directories, and the file holds the content. *)
Lemma writeFile_makes_directories :
  exists w',
    writeFile 0 (Example.boot noConfig Example.files) "new/deep/x.txt" "hi"
    = Some (w', Returned ("Successfully wrote new/deep/x.txt"
                          +:+ " (unsupported file type - not tracked)")) /\
    isDirectory w' "/work/new" = true /\
    isDirectory w' "/work/new/deep" = true /\
    readFileSync (disk w') "/work/new/deep/x.txt" = Some "hi" /\
    ctx w' = ctx (Example.boot noConfig Example.files).
Proof.
  eexists. split; [vm_compute; reflexivity|].
  repeat split; vm_compute; reflexivity.
Qed.

(** The failures of a read, each with its code, and what the handler
    answers: a directory, a path under a file, a file that does not
    exist. *)
Lemma read_failures_by_code :
  readFile 0 (Example.boot noConfig Example.files) "/work"
  = Some (Example.boot noConfig Example.files, Threw (ReadFailure EISDIR "/work")) /\
  peekFile 0 (Example.boot noConfig Example.files) "notes.txt/x.rs"
  = Some (Example.boot noConfig Example.files,
          Threw (ReadFailure ENOTDIR "/work/notes.txt/x.rs")) /\
  editFile 0 (Example.boot noConfig Example.files) "c.rs" "a" "b"
  = Some (Example.boot noConfig Example.files, Threw (ReadFailure ENOENT "/work/c.rs")) /\
  callTool 0 (Example.boot noConfig Example.files) "read_file"
    {| Args.path := Some "/work"; Args.old_string := None;
       Args.new_string := None; Args.content := None |}
  = Some (Example.boot noConfig Example.files,
          Content "Error: EISDIR: illegal operation on a directory, read" true) /\
  callTool 0 (Example.boot noConfig Example.files) "write_file"
    {| Args.path := Some "notes.txt/x.txt"; Args.old_string := None;
       Args.new_string := None; Args.content := Some "hi" |}
  = Some (Example.boot noConfig Example.files,
          Content "Error: ENOTDIR: not a directory, open '/work/notes.txt/x.txt'" true) /\
  callTool 0 (Example.boot noConfig Example.files) "peek_file"
    {| Args.path := Some "c.rs"; Args.old_string := None;
       Args.new_string := None; Args.content := None |}
  = Some (Example.boot noConfig Example.files,
          Content "Error: ENOENT: no such file or directory, open '/work/c.rs'" true).
Proof. repeat split; vm_compute; reflexivity. Qed.


(** C6 as stated fails: with [/work/b.rs] active, [read] and then
    [forget] of [/work/notes.txt], whose type is not supported, leave
    [/work/b.rs] active. *)
Lemma forget_after_unsupported_read_keeps_active :
  exists w1 t1 w2 t2,
    readFile 0 (Example.boot noConfig Example.files) "b.rs" = Some (w1, Returned t1) /\
    readFile 0 w1 "notes.txt" = Some (w2, Returned t2) /\
    getActiveFile (ctx (forgetFile w2 "notes.txt").1) = Some "/work/b.rs".
Proof.
  do 4 eexists. split; [vm_compute; reflexivity|]. split; [vm_compute; reflexivity|].
  vm_compute. reflexivity.
Qed.

(** C6, amended, at an input: [read] and then [forget] of
    [/work/a.rs]. *)
Lemma forget_clears_tracking_witness :
  readFile 0 (Example.boot noConfig Example.files) "a.rs"
  = Some (Example.readingA,
          Returned ("// === a.rs [FULL] ===" +:+ newline +:+ newline +:+ "fn a() {}")) /\
  getSummary (ctx (forgetFile Example.readingA "a.rs").1) "a.rs" = None /\
  getActiveFile (ctx (forgetFile Example.readingA "a.rs").1) = None.
Proof.
  assert (readFile 0 (Example.boot noConfig Example.files) "a.rs"
          = Some (Example.readingA,
                  Returned ("// === a.rs [FULL] ===" +:+ newline +:+ newline
                            +:+ "fn a() {}"))) as Hread by (vm_compute; reflexivity).
  split; [exact Hread|].
  destruct (forget_clears_tracking (ctx Example.readingA) "a.rs")
    as (_ & _ & _ & _ & _ & Hscenario).
  destruct (Hscenario _ _ _ _ _ Hread) as [Hsummary Hactive].
  split; [exact Hsummary|].
  apply Hactive. left. split; [vm_compute; reflexivity | eauto].
Defined.

(** C8 as stated fails: the header starts with [// ]. *)
Lemma formatFileHeader_has_comment_prefix :
  formatFileHeader "src/a.rs" false = "// === src/a.rs [FULL] ===" /\
  formatFileHeader "src/a.rs" false <> "=== src/a.rs [FULL] ===" /\
  formatFileHeader "src/a.rs" true <> "=== src/a.rs [SUMMARY] ===".
Proof.
  split; [vm_compute; reflexivity|]. split; vm_compute; discriminate.
Qed.

(** C8, amended, at an input. *)
Lemma formatFileHeader_format_witness :
  hasUnit "010" "a.rs" = false /\
  hasUnit "010" (formatFileHeader "a.rs" false) = false /\
  exists body,
    "// === a.rs [FULL] ===" +:+ newline +:+ newline +:+ "fn a() {}"
    = formatFileHeader "a.rs" false +:+ newline +:+ body.
Proof.
  assert (hasUnit "010" "a.rs" = false) as Hline by (vm_compute; reflexivity).
  split; [exact Hline|].
  destruct (formatFileHeader_format "a.rs") as (_ & _ & Hsingle & Hread & _).
  split; [exact (Hsingle false Hline)|].
  apply (Hread 0 (Example.boot noConfig Example.files) "a.rs" Example.readingA);
    vm_compute; reflexivity.
Defined.

(** C9 at an input: the text of a Summary Model. *)
Lemma formatSummary_deterministic_witness :
  Rust.formatSummary Example.model
  = Js.join newline
      ["// Purpose: Pointers."; "";
       "pub const MAX: usize;"; "";
       "#[derive(Debug, Clone)]";
       "/// A pointer";
       "pub struct Ptr<T> { ... }";
       "  // Public fields:";
       "  pub raw: *mut T,";
       "impl<T> Ptr<T> {";
       "    pub fn new(raw: *mut T) -> Self;";
       "}"] /\
  Rust.formatSummary Example.model = Rust.formatSummary Example.model /\
  parseRust "fn a() {}" = parseRust "fn a() {}".
Proof.
  split; [vm_compute; reflexivity|].
  destruct (formatSummary_deterministic Example.model Example.model "fn a() {}" "fn a() {}"
              eq_refl eq_refl) as (Hrust & _ & Hparse & _).
  split; [exact Hrust | exact Hparse].
Defined.

(** C2 fails on the code: [X] occurs exactly once in the file, and
    [editFile] succeeds, but the file then holds [$5] where [$$5] was
    asked for, because [String.prototype.replace] reads the replacement
    text as a template. *)
Theorem editFile_dollar_in_replacement :
  exists w',
    editFile 0 (Example.boot noConfig [("/work/notes.txt", "price: X")])
             "notes.txt" "X" "$$5"
    = Some (w', Returned "Successfully edited notes.txt (unsupported file type - not tracked)")
    /\ readFileSync (disk w') "/work/notes.txt" = Some "price: $5"
    /\ "price: $5" <> "price: $$5".
Proof.
  eexists. split; [vm_compute; reflexivity|]. split; [vm_compute; reflexivity|].
  discriminate.
Qed.

(** [aa] occurs at two places of [aaa], and [editFile] replaces the
    first: [split] counts the matches that do not overlap. *)
Lemma editFile_overlapping_occurrences :
  exists w',
    editFile 0 (Example.boot noConfig [("/work/notes.txt", "aaa")]) "notes.txt" "aa" "b"
    = Some (w', Returned "Successfully edited notes.txt (unsupported file type - not tracked)")
    /\ readFileSync (disk w') "/work/notes.txt" = Some "ba".
Proof.
  eexists. split; [vm_compute; reflexivity|]. vm_compute. reflexivity.
Qed.

(** C7 fails on the code: [/work/a.rs] is written, so that it is active
    and has a cached summary, then vanishes from the disk; [fileStatus]
    throws the failure of the read instead of returning the report. *)
Theorem fileStatus_throws_when_active_file_vanished :
  exists w1 t,
    writeFile 0 (Example.boot noConfig []) "a.rs" "//! A" = Some (w1, Returned t) /\
    fileStatus (withDisk w1 (delete "/work/a.rs" (disk w1)))
    = Threw (ReadFailure ENOENT "/work/a.rs").
Proof.
  do 2 eexists. split; [vm_compute; reflexivity|]. vm_compute. reflexivity.
Qed.

(** C10 fails on the code: on a fresh [ContextState] of limit 1, after
    [setActiveFile(a)], [setSummary(a)], [setSummary(b)] and
    [setActiveFile(b)], the call [setSummary(b)] never returns: the map
    holds the entries of [a] and of [b], the recency list is empty, and
    every further iteration shifts nothing. *)
Theorem setSummary_never_returns :
  Example.beforeHang = Some Example.hanging /\
  forall fuel, setSummary fuel 0 Example.hanging "/work/b.rs" "// b" "fn b() {}" = None.
Proof.
  split; [vm_compute; reflexivity|].
  intros fuel. unfold setSummary. apply evictIfNeeded_never. vm_compute. reflexivity.
Qed.

(** The same through the tools, with limit 1: [write(a.rs)], [peek(b.rs)],
    the file [a.rs] vanishes, and [write(b.rs)] never returns. *)
Lemma writeFile_never_returns :
  exists w1 t1 w2 t2,
    writeFile 0 (Example.boot (Example.limit 1) Example.files) "a.rs" "//! A"
    = Some (w1, Returned t1) /\
    peekFile 2 w1 "b.rs" = Some (w2, Returned t2) /\
    forall fuel,
      writeFile fuel (withDisk w2 (delete "/work/a.rs" (disk w2))) "b.rs" "//! B" = None.
Proof.
  do 4 eexists. split; [vm_compute; reflexivity|]. split; [vm_compute; reflexivity|].
  intros fuel. cbv -[evictIfNeeded].
  rewrite evictIfNeeded_never; [reflexivity|]. vm_compute. reflexivity.
Qed.

(** ** The further properties at concrete inputs *)

(** X1 at an input: at limit 1, with [/work/a.rs] active, the loop pops
    both paths of the recency list and deletes the entry of
    [/work/b.rs] only. *)
Lemma eviction_is_least_recently_used_witness :
  evictIfNeeded 2 (storeSummary 7 Example.cacheA "/work/b.rs" "// b" "fn b() {}")
  = Some Example.drained /\
  exists popped,
    accessOrder (storeSummary 7 Example.cacheA "/work/b.rs" "// b" "fn b() {}")
    = popped ++ accessOrder Example.drained /\
    summaries Example.drained
    = keptAfter (storeSummary 7 Example.cacheA "/work/b.rs" "// b" "fn b() {}") popped.
Proof.
  assert (evictIfNeeded 2 (storeSummary 7 Example.cacheA "/work/b.rs" "// b" "fn b() {}")
          = Some Example.drained) as Hrun by (vm_compute; reflexivity).
  split; [exact Hrun|].
  destruct (eviction_is_least_recently_used _ _ _ Hrun) as (popped & Horder & Hmap & _).
  exists popped. split; [exact Horder | exact Hmap].
Defined.

(** X2 at an input: the state with [/work/a.rs] active and a summary of
    [/work/b.rs]. *)
Lemma operations_keep_invariants_witness :
  wellFormed (ctx Example.peekedB) /\
  wellFormed (setActiveFile (ctx Example.peekedB) "b.rs").1 /\
  wellFormed (forget (ctx Example.peekedB) "b.rs").1.
Proof.
  assert (wellFormed (ctx Example.peekedB)) as Hwf.
  { split; apply (bool_decide_unpack _); vm_compute; exact I. }
  split; [exact Hwf|].
  destruct (operations_keep_invariants _ Hwf) as (Hset & _ & Hforget & _).
  split; [apply Hset | apply Hforget].
Defined.

(** X4 at an input: the first summary stored in a new state. *)
Lemma setSummary_then_getSummary_witness :
  (Z.of_nat (JsMap.size (summaries (newContextState noConfig)))
   < maxTrackedFiles (config (newContextState noConfig)))%Z /\
  exists s',
    setSummary 0 0 (newContextState noConfig) "/work/a.rs" "// a" "fn a() {}" = Some s' /\
    getSummary s' "/work/a.rs" = Some Example.entryA.
Proof.
  assert (Z.of_nat (JsMap.size (summaries (newContextState noConfig)))
          < maxTrackedFiles (config (newContextState noConfig)))%Z as Hroom
    by (vm_compute; reflexivity).
  split; [exact Hroom|].
  destruct (setSummary_then_getSummary 0 0 (newContextState noConfig) "/work/a.rs" "// a"
              "fn a() {}" (or_intror Hroom)) as (s' & Hset & Hget & _).
  exists s'. split; [exact Hset|]. rewrite Hget. vm_compute. reflexivity.
Defined.

(** X9 at an input: a summary of [/work/a.rs] stored while it is active
    and [/work/b.rs] is cached. *)
Lemma setSummary_keeps_new_entry_witness :
  JsMap.wf (summaries (ctx Example.peekedB)) /\
  exists s',
    setSummary 2 0 (ctx Example.peekedB) "/work/a.rs" "// a" "fn a() {}" = Some s' /\
    getSummary s' "/work/a.rs" = Some Example.entryA.
Proof.
  assert (JsMap.wf (summaries (ctx Example.peekedB))) as Hwf.
  { apply (bool_decide_unpack _). vm_compute. exact I. }
  split; [exact Hwf|].
  destruct (setSummary_keeps_new_entry 0 (ctx Example.peekedB) "/work/a.rs" "// a"
              "fn a() {}" Hwf) as [[s' Hset] Hget].
  - vm_compute. reflexivity.
  - exists s'. split; [exact Hset|]. rewrite (Hget _ _ Hset). vm_compute. reflexivity.
Defined.

(** X12 at an input: [/work/a.rs] written, then read. *)
Lemma writeFile_then_readFile_witness :
  exists w1 t1 w2 r2,
    writeFile 0 (Example.boot noConfig Example.files) "a.rs" "fn c() {}"
    = Some (w1, Returned t1) /\
    readFile 0 w1 "a.rs" = Some (w2, r2) /\
    r2 = Returned ("// === a.rs [FULL] ===" +:+ newline +:+ newline +:+ "fn c() {}") /\
    isActive (ctx w2) "/work/a.rs" = true.
Proof.
  destruct (writeFile 0 (Example.boot noConfig Example.files) "a.rs" "fn c() {}")
    as [[w1 [t1|e1]]|] eqn:Hwrite; try (vm_compute in Hwrite; discriminate).
  pose proof Hwrite as Hw. vm_compute in Hw. injection Hw as <- <-.
  match type of Hwrite with
  | _ = Some (?w1, _) =>
      destruct (readFile 0 w1 "a.rs") as [[w2 r2]|] eqn:Hread;
        [|vm_compute in Hread; discriminate]
  end.
  destruct (writeFile_then_readFile _ _ _ _ _ _ _ _ _ Hwrite Hread)
    as (_ & Hr & _ & Hactive).
  eexists _, _, w2, r2. split; [reflexivity|]. split; [exact Hread|].
  split; [rewrite Hr; vm_compute; reflexivity|].
  apply Hactive. vm_compute. reflexivity.
Defined.

(** X15 at an input: the tools on a process whose cache is empty. *)
Lemma tools_return_with_room_witness :
  (Z.of_nat (JsMap.size (summaries (ctx Example.readingA))) + 2
   <= maxTrackedFiles (config (ctx Example.readingA)))%Z /\
  (exists w' r, readFile 0 Example.readingA "b.rs" = Some (w', r)) /\
  (exists w' r, writeFile 0 Example.readingA "b.rs" "fn c() {}" = Some (w', r)).
Proof.
  assert (Z.of_nat (JsMap.size (summaries (ctx Example.readingA))) + 2
          <= maxTrackedFiles (config (ctx Example.readingA)))%Z as Hroom
    by (vm_compute; discriminate).
  split; [exact Hroom|].
  destruct (tools_return_with_room 0 Example.readingA "b.rs" "" "" "fn c() {}" Hroom)
    as (Hread & _ & _ & Hwrite).
  split; [exact Hread | exact Hwrite].
Defined.

(** X16 at an input: [/work/a.rs] is active, and [/work/b.rs] is
    read. *)
Lemma readFile_compacts_previous_witness :
  getActiveFile (ctx Example.readingA) = Some "/work/a.rs" /\
  (exists fuel w' r, readFile fuel Example.readingA "b.rs" = Some (w', r)) /\
  forall fuel w' r,
    readFile fuel Example.readingA "b.rs" = Some (w', r) ->
    isActive (ctx w') "/work/b.rs" = true /\
    getSummary (ctx w') "/work/a.rs"
    = Some (entryOf 0 (ctx Example.readingA) "/work/a.rs" "// Purpose: fn a() {}"
              "fn a() {}").
Proof.
  split; [reflexivity|].
  edestruct (readFile_compacts_previous Example.readingA "b.rs" "/work/a.rs" "fn b() {}"
               "fn a() {}") as [Hreturns Hafter].
  - vm_compute. reflexivity.
  - vm_compute. reflexivity.
  - reflexivity.
  - reflexivity.
  - discriminate.
  - vm_compute. reflexivity.
  - vm_compute. reflexivity.
  - unfold JsMap.wf. simpl. constructor.
  - vm_compute. reflexivity.
  - split; [exact Hreturns|]. intros fuel w' r Hrun.
    destruct (Hafter fuel w' r Hrun) as (_ & Hactive & _ & Hsummary).
    split; [exact Hactive | exact Hsummary].
Defined.

(** X17 at an input: the empty [old_string] on [/work/notes.txt], of
    eight code units. *)
Lemma editFile_empty_old_witness :
  readFileSync (disk (Example.boot noConfig Example.files)) (absolutePathOf "notes.txt")
  = Some "price: X" /\
  editFile 0 (Example.boot noConfig Example.files) "notes.txt" "" "Z"
  = Some (Example.boot noConfig Example.files, Threw (AmbiguousMatch 7 "notes.txt")).
Proof.
  assert (readFileSync (disk (Example.boot noConfig Example.files))
            (absolutePathOf "notes.txt") = Some "price: X") as Hread
    by (vm_compute; reflexivity).
  split; [exact Hread|].
  destruct (editFile_empty_old 0 _ "notes.txt" "Z" _ Hread) as [Hlong _].
  rewrite Hlong; [vm_compute; reflexivity | simpl; lia].
Defined.

(** X18 at an input: [X] replaced by [Y] in [/work/notes.txt]. *)
Lemma editFile_replaces_the_occurrence_witness :
  Js.search "X" "price: X" = Some ("price: ", "") /\
  exists w' r,
    editFile 0 (Example.boot noConfig Example.files) "notes.txt" "X" "Y" = Some (w', r) /\
    readFileSync (disk w') (absolutePathOf "notes.txt") = Some "price: Y".
Proof.
  split; [vm_compute; reflexivity|].
  destruct (editFile 0 (Example.boot noConfig Example.files) "notes.txt" "X" "Y")
    as [[w' r]|] eqn:Hrun; [|vm_compute in Hrun; discriminate].
  exists w', r. split; [reflexivity|].
  destruct (editFile_replaces_the_occurrence 0 (Example.boot noConfig Example.files)
              "notes.txt" "X" "Y" "price: X" "price: " "" w' r) as (_ & _ & Hdisk & _).
  - vm_compute. reflexivity.
  - discriminate.
  - vm_compute. reflexivity.
  - vm_compute. discriminate.
  - vm_compute. reflexivity.
  - exact Hrun.
  - exact Hdisk.
Defined.

(** X19 at an input: the process after a [read_file] of [a.rs]. *)
Lemma reachable_invariant_witness :
  reachable Example.readingA /\ invariant Example.readingA.
Proof.
  assert (reachable Example.readingA) as Hreach.
  { apply (reachable_call 0 (Example.boot noConfig Example.files) "read_file"
             {| Args.path := Some "a.rs"; Args.old_string := None;
                Args.new_string := None; Args.content := None |}
             Example.readingA
             (Content ("// === a.rs [FULL] ===" +:+ newline +:+ newline +:+ "fn a() {}")
                false)).
    - apply (reachable_start (list_to_map Example.files) Example.folders 0).
    - vm_compute. reflexivity. }
  split; [exact Hreach | exact (reachable_invariant _ Hreach)].
Defined.

(** X21 at an input: a peek at [/work/b.rs] from an empty cache. *)
Lemma peekFile_serves_current_summary_witness :
  peekFile 0 Example.readingA "b.rs"
  = Some (Example.peekedB,
          Returned ("// === b.rs [SUMMARY] ===" +:+ newline +:+ newline
                    +:+ "// Purpose: fn b() {}")) /\
  exists q current model,
    normalizePath q = "/work/b.rs" /\
    parseFile q current = Some (ParseResult model "// Purpose: fn b() {}") /\
    hashContent current = hashContent "fn b() {}".
Proof.
  assert (peekFile 0 Example.readingA "b.rs"
          = Some (Example.peekedB,
                  Returned ("// === b.rs [SUMMARY] ===" +:+ newline +:+ newline
                            +:+ "// Purpose: fn b() {}"))) as Hrun
    by (vm_compute; reflexivity).
  split; [exact Hrun|].
  assert (readFileSync (disk Example.readingA) (absolutePathOf "b.rs") = Some "fn b() {}")
    as Hread by (vm_compute; reflexivity).
  destruct (peekFile_serves_current_summary 0 Example.readingA "b.rs" "fn b() {}" _ _
              (Forall_nil_2 _) Hread Hrun)
    as [[note Hfull]|(q & c & m & f & Htext & Hq & Hp & Hh)].
  - exfalso. vm_compute in Hfull. discriminate.
  - exists q, c, m. split; [exact Hq|]. split; [|exact Hh].
    assert (f = "// Purpose: fn b() {}") as <-; [|exact Hp].
    vm_compute in Htext. injection Htext as Htext.
    congruence.
Defined.

(** X22 at an input: two peeks at [/work/b.rs] in a row. *)
Lemma peekFile_twice_witness :
  exists w1 r1 w2 r2,
    peekFile 0 Example.readingA "b.rs" = Some (w1, r1) /\
    peekFile 0 w1 "b.rs" = Some (w2, r2) /\
    r2 = r1.
Proof.
  exists Example.peekedB,
    (Returned ("// === b.rs [SUMMARY] ===" +:+ newline +:+ newline
               +:+ "// Purpose: fn b() {}")),
    Example.peekedB,
    (Returned ("// === b.rs [SUMMARY] ===" +:+ newline +:+ newline
               +:+ "// Purpose: fn b() {}")).
  assert (peekFile 0 Example.readingA "b.rs"
          = Some (Example.peekedB,
                  Returned ("// === b.rs [SUMMARY] ===" +:+ newline +:+ newline
                            +:+ "// Purpose: fn b() {}"))) as Hfirst
    by (vm_compute; reflexivity).
  assert (peekFile 0 Example.peekedB "b.rs"
          = Some (Example.peekedB,
                  Returned ("// === b.rs [SUMMARY] ===" +:+ newline +:+ newline
                            +:+ "// Purpose: fn b() {}"))) as Hsecond
    by (vm_compute; reflexivity).
  split; [exact Hfirst|]. split; [exact Hsecond|].
  exact (peekFile_twice _ _ _ _ _ _ _ _ Hfirst Hsecond).
Defined.

(** X23 at an input: the documentation cut after its first line, and
    the texts made of a model whose purpose and documentation have more
    than one line. *)
Lemma formatSummary_shows_first_doc_line_witness :
  (forall doc, docShown (docHead doc) = docShown doc) /\
  Rust.formatSummary (withDocs docHead (fun _ => None) documented)
  = Rust.formatSummary documented /\
  Rust.formatSummary documented
  = Js.join newline
      ["// Purpose: Pointers.";
       "//          Use with care.";
       "";
       "/// A pointer";
       "pub struct Ptr<T> { ... }";
       "  // Public fields:";
       "  pub raw: *mut T,";
       "impl<T> Ptr<T> {";
       "    pub fn new(raw: *mut T) -> Self;";
       "}";
       "";
       "/// The null pointer.";
       "pub fn null() -> Ptr<()>;"] /\
  Php.formatSummary (withDocs docHead (fun _ => None) documented)
  = Js.join newline
      ["<?php";
       "/**";
       " * Pointers.";
       " * Use with care.";
       " */";
       "";
       "/** A pointer */";
       "class Ptr <T> {";
       "    public *mut T $raw;";
       "    pub fn new(raw: *mut T) -> Self;";
       "}";
       "";
       "/** The null pointer. */";
       "pub fn null() -> Ptr<()>;"].
Proof.
  split; [exact docShown_docHead|].
  destruct (formatSummary_shows_first_doc_line docHead (fun _ => None) documented
              docShown_docHead) as [Hrust Hphp].
  split; [exact Hrust|]. split; [vm_compute; reflexivity|].
  rewrite Hphp. vm_compute. reflexivity.
Defined.


(** X25 at an input: a documented public function.  The extractor and
    the renderer give its doc line and its signature. *)
Lemma extract_lists_public_functions_witness :
  Rust.formatSummary (RustParser.extract RustExample.addTree RustExample.addSource)
  = "/// Adds." +:+ newline +:+ "pub fn add(a: i32) -> i32;" /\
  Forall listedAsPublic
    (functions (RustParser.extract RustExample.addTree RustExample.addSource)).
Proof.
  split; [vm_compute; reflexivity|].
  exact (proj1 (extract_lists_public_functions RustExample.addTree RustExample.addSource)).
Defined.

(** X26 at an input: two public structs named [P] and an impl block of
    [P]; the method goes to the second struct. *)
Lemma impl_methods_go_to_last_struct_witness :
  structs (RustParser.extract RustExample.twiceTree RustExample.twiceSource)
  = [RustExample.firstP; RustExample.secondP] /\
  StructSummary.methods RustExample.firstP = [].
Proof.
  assert (structs (RustParser.extract RustExample.twiceTree RustExample.twiceSource)
          = [RustExample.firstP; RustExample.secondP]) as Hstructs
    by (vm_compute; reflexivity).
  split; [exact Hstructs|].
  apply (impl_methods_go_to_last_struct RustExample.twiceTree RustExample.twiceSource 0 1
           RustExample.firstP RustExample.secondP).
  - rewrite Hstructs. reflexivity.
  - rewrite Hstructs. reflexivity.
  - lia.
  - reflexivity.
Defined.

(** X27 at an input: a file that declares one private function. *)
Lemma extract_private_only_witness :
  RustParser.extract RustExample.hiddenTree RustExample.hiddenSource
  = {| purpose := None; structs := []; traits := []; enums := []; functions := [];
       typeAliases := []; constants := []; reexports := [] |} /\
  Rust.formatSummary (RustParser.extract RustExample.hiddenTree RustExample.hiddenSource)
  = "".
Proof.
  assert (forall n, n ∈ Syntax.namedChildren RustExample.hiddenTree ->
                    RustParser.isPublic (Syntax.this n) = false) as Hprivate.
  { intros n Hn. vm_compute in Hn. apply list_elem_of_singleton in Hn. subst n.
    vm_compute. reflexivity. }
  rewrite (extract_private_only _ _ Hprivate).
  split; vm_compute; reflexivity.
Defined.

(** X28 at an input: the names that the summary of [twiceTree] lists. *)
Lemma extract_lists_public_items_in_order_witness :
  map StructSummary.name
    (structs (RustParser.extract RustExample.twiceTree RustExample.twiceSource))
  = ["P"; "P"] /\
  map FunctionSummary.name
    (functions (RustParser.extract RustExample.twiceTree RustExample.twiceSource))
  = [].
Proof.
  destruct (extract_lists_public_items_in_order RustExample.twiceTree RustExample.twiceSource)
    as (Hfunctions & Hstructs & _).
  rewrite Hfunctions, Hstructs. split; vm_compute; reflexivity.
Defined.


(** X30 at an input: [twiceTree], whose first child is a struct. *)
Lemma extractModuleDoc_reads_top_only_witness :
  RustParser.extractModuleDoc RustExample.twiceTree RustExample.twiceSource = None.
Proof.
  destruct (Syntax.children RustExample.twiceTree) as [|item rest] eqn:Hchildren;
    [vm_compute in Hchildren; discriminate|].
  pose proof Hchildren as Hfirst. vm_compute in Hfirst. injection Hfirst as <- <-.
  rewrite (extractModuleDoc_reads_top_only _ _ [] _ _ Hchildren).
  - vm_compute. reflexivity.
  - repeat split; vm_compute; (discriminate || reflexivity).
Defined.
